(** * The C API of TileDB (core/src/c_api/tiledb.cc), embedded in Rocq.

    The C API is a layer of small functions over the storage engine.  Every
    function is embedded as a state transformer over a [world]: the heap of
    blocks obtained from [malloc], the outcome of the coming [malloc] calls,
    and the state of the storage engine.  The classes of the engine
    (StorageManager, Array, Metadata, the iterators, ArraySchema,
    Configurator) are not part of the sources; their methods are the fields
    of the class [Engine], and every statement about the C API holds for
    every engine. *)

From Stdlib Require Import ZArith Lia.
From stdpp Require Import base option list strings gmap.

Set Default Proof Using "Type".

Open Scope Z_scope.

(** ** Pointers and plain data *)

(** Addresses of heap blocks; the null pointer is [None]. *)
Abbreviation addr := nat.
Abbreviation ptr := (option addr).
Definition NULL : ptr := None.

(** A [const char*] argument, by value; the null pointer is [None]. *)
Abbreviation cstr := (option string).

(** A C++ object of one of the engine classes, named by its identity. *)
Abbreviation obj := nat.

(** A raw buffer ([void*] with a length in bytes). *)
Abbreviation bytes := (list Z).

(** A [const char*] that a function returns: the address of a string
    literal, which lives as long as the program, or a pointer to characters
    whose storage has ended. *)
Inductive const_char_ptr :=
| Literal (s : string)
| Dangling.

(** The string that the caller reads through the pointer; reading through a
    dangling pointer is undefined. *)
Definition read_chars (p : const_char_ptr) : option string :=
  match p with
  | Literal s => Some s
  | Dangling => None
  end.

(** ** The type int

    The limits of int (climits) are those of the platform; int is taken as
    32 bits wide, and size_t as 64 bits wide, so that the size of an array
    of int-many elements does not wrap. *)
Definition INT_MIN : Z := -2147483648.
Definition INT_MAX : Z := 2147483647.

(** ** Status (status.h)

    The C API builds statuses with Status::Ok() and Status::Error(msg), and
    inspects them with ok() only. *)
Inductive Status :=
| Status_Ok
| Status_Error (msg : string).

Definition ok (st : Status) : bool :=
  match st with
  | Status_Ok => true
  | Status_Error _ => false
  end.

(** ** Return codes (tiledb.h) *)

(** Modelled from the spec: the macros TILEDB_OK, TILEDB_ERR and TILEDB_OOM
    are declared in tiledb.h, which is not among the sources; the spec gives
    the codes as 0 ok, 1 error, 2 out of memory. *)
Definition TILEDB_OK : Z := 0.
Definition TILEDB_ERR : Z := 1.
Definition TILEDB_OOM : Z := 2.

(** ** The structs of the C API *)

Record tiledb_config_t := { config_ : option obj }.

Record tiledb_ctx_t := {
  storage_manager_ : option obj;
  last_error_ : option Status
}.

Record tiledb_error_t := { status_ : option Status }.

Record tiledb_array_t := {
  array_ : option obj;
  ctx_ : ptr
}.

Record tiledb_array_iterator_t := {
  array_it_ : option obj;
  array_it_ctx_ : ptr
}.

Record tiledb_metadata_t := {
  metadata_ : option obj;
  metadata_ctx_ : ptr
}.

Record tiledb_metadata_iterator_t := {
  metadata_it_ : option obj;
  metadata_it_ctx_ : ptr
}.

(** tiledb_array_schema_t, and tiledb::ArraySchemaC, which has the same
    fields.  The enumerations (layout, datatype, compressor) are C ints. *)
Record tiledb_array_schema_t := {
  array_name_ : ptr;
  attributes_ : ptr;
  attribute_num_ : Z;
  capacity_ : Z;
  cell_order_ : Z;
  cell_val_num_ : ptr;
  compressor_ : ptr;
  dense_ : Z;
  dimensions_ : ptr;
  dim_num_ : Z;
  domain_ : ptr;
  tile_extents_ : ptr;
  tile_order_ : Z;
  types_ : ptr
}.

(** tiledb_metadata_schema_t, and tiledb::MetadataSchemaC. *)
Record tiledb_metadata_schema_t := {
  metadata_name_ : ptr;
  m_attributes_ : ptr;
  m_attribute_num_ : Z;
  m_capacity_ : Z;
  m_cell_val_num_ : ptr;
  m_compressor_ : ptr;
  m_types_ : ptr
}.

(** TileDB_AIO_Request, the request struct of the caller. *)
Record TileDB_AIO_Request := {
  rq_buffers_ : ptr;
  rq_buffer_sizes_ : ptr;
  rq_subarray_ : ptr;
  rq_completion_handle_ : ptr;
  rq_completion_data_ : ptr;
  rq_status_ : Z
}.

(** A pointer to the status_ field inside the request struct at [req]. *)
Inductive status_ptr :=
| StatusField (req : addr).

(** tiledb::AIO_Request, the copy that is handed to the engine. *)
Record AIO_Request := {
  aio_id_ : Z;
  aio_buffers_ : ptr;
  aio_buffer_sizes_ : ptr;
  aio_mode_ : Z;
  aio_status_ : option status_ptr;
  aio_subarray_ : ptr;
  aio_completion_handle_ : ptr;
  aio_completion_data_ : ptr
}.

(** ** The heap *)

(** What a block obtained from malloc holds. *)
Inductive block :=
| BConfig (c : tiledb_config_t)
| BCtx (c : tiledb_ctx_t)
| BError (e : tiledb_error_t)
| BArray (a : tiledb_array_t)
| BArrayIt (a : tiledb_array_iterator_t)
| BMetadata (m : tiledb_metadata_t)
| BMetadataIt (m : tiledb_metadata_iterator_t)
| BArraySchema (s : tiledb_array_schema_t)
| BMetadataSchema (s : tiledb_metadata_schema_t)
| BRequest (r : TileDB_AIO_Request)
| BAIO (r : AIO_Request)
| BPtr (p : ptr)              (* a pointer variable, the target of a T** *)
| BChars (s : string)         (* char[], a NUL-terminated string *)
| BStrings (l : list ptr)     (* char*[] *)
| BInts (l : list Z)          (* int[], also the arrays of enum values *)
| BBytes (l : bytes).         (* untyped memory *)

(** The heap is the list of all blocks ever allocated; the address of a
    block is its index, a freed block leaves [None] behind. *)
Abbreviation heap := (list (option block)).

Definition as_config (b : block) := match b with BConfig c => Some c | _ => None end.
Definition as_ctx (b : block) := match b with BCtx c => Some c | _ => None end.
Definition as_error (b : block) := match b with BError c => Some c | _ => None end.
Definition as_array (b : block) := match b with BArray c => Some c | _ => None end.
Definition as_array_it (b : block) := match b with BArrayIt c => Some c | _ => None end.
Definition as_metadata (b : block) := match b with BMetadata c => Some c | _ => None end.
Definition as_metadata_it (b : block) := match b with BMetadataIt c => Some c | _ => None end.
Definition as_array_schema (b : block) := match b with BArraySchema c => Some c | _ => None end.
Definition as_metadata_schema (b : block) := match b with BMetadataSchema c => Some c | _ => None end.
Definition as_request (b : block) := match b with BRequest c => Some c | _ => None end.
Definition as_aio (b : block) := match b with BAIO c => Some c | _ => None end.
Definition as_ptr (b : block) := match b with BPtr c => Some c | _ => None end.
Definition as_chars (b : block) := match b with BChars c => Some c | _ => None end.
Definition as_strings (b : block) := match b with BStrings c => Some c | _ => None end.
Definition as_ints (b : block) := match b with BInts c => Some c | _ => None end.
Definition as_bytes (b : block) := match b with BBytes c => Some c | _ => None end.

(** The live block at an address. *)
Definition block_at (h : heap) (a : addr) : option block :=
  match h !! a with
  | Some (Some b) => Some b
  | _ => None
  end.

(** The live block of a given kind behind a pointer. *)
Definition deref {A} (proj : block -> option A) (h : heap) (p : ptr) : option A :=
  match p with
  | Some a => match block_at h a with Some b => proj b | None => None end
  | None => None
  end.

(** tiledb_object_t; the spec names the kinds of directory. *)
Inductive tiledb_object_t :=
| TILEDB_WORKSPACE
| TILEDB_GROUP
| TILEDB_ARRAY
| TILEDB_METADATA
| TILEDB_NONE.

(** ** The storage engine

    The methods of the engine classes that the C API calls.  A method takes
    the engine state and returns its results with the new state; the object
    it is called on comes first.  Out-parameters are results.  Arguments that
    the C API only passes on (paths, buffers, subarrays, attribute lists) are
    given by value. *)
Class Engine := {
  State : Type;

  (* Status *)
  Status_to_string : Status -> string;

  (* tiledb_object_t as a C int *)
  object_code : tiledb_object_t -> Z;

  (* Configurator *)
  Configurator_new : State -> option obj * State;
  Configurator_delete : obj -> State -> State;
  Configurator_set_read_method : obj -> Z -> State -> State;
  Configurator_set_write_method : obj -> Z -> State -> State;

  (* StorageManager *)
  StorageManager_new : State -> obj * State;
  StorageManager_delete : obj -> State -> State;
  sm_init : obj -> option obj -> State -> Status * State;
  sm_finalize : obj -> State -> Status * State;
  sm_group_create : obj -> cstr -> State -> Status * State;
  sm_basic_array_create : obj -> cstr -> State -> Status * State;
  sm_array_create : obj -> tiledb_array_schema_t -> heap -> State -> Status * State;
  sm_array_init :
    obj -> cstr -> Z -> option bytes -> option (list string) -> Z ->
    State -> (Status * option obj) * State;
  sm_array_consolidate : obj -> cstr -> State -> Status * State;
  sm_array_finalize : obj -> option obj -> State -> Status * State;
  sm_array_sync : obj -> option obj -> State -> Status * State;
  sm_array_sync_attribute : obj -> option obj -> cstr -> State -> Status * State;
  sm_array_iterator_init :
    obj -> cstr -> Z -> option bytes -> option (list string) -> Z ->
    list bytes -> list Z -> State -> (Status * option obj) * State;
  sm_array_iterator_finalize : obj -> option obj -> State -> Status * State;
  sm_metadata_create :
    obj -> tiledb_metadata_schema_t -> heap -> State -> Status * State;
  sm_metadata_init :
    obj -> cstr -> Z -> option (list string) -> Z ->
    State -> (Status * option obj) * State;
  sm_metadata_load_schema : obj -> cstr -> State -> (Status * option obj) * State;
  sm_metadata_consolidate : obj -> cstr -> State -> Status * State;
  sm_metadata_finalize : obj -> option obj -> State -> Status * State;
  sm_metadata_iterator_init :
    obj -> cstr -> option (list string) -> Z -> list bytes -> list Z ->
    State -> (Status * option obj) * State;
  sm_metadata_iterator_finalize : obj -> option obj -> State -> Status * State;
  (* Modelled from the spec: StorageManager::dir_type is not among the
     sources; the spec says that it returns one of WORKSPACE, GROUP, ARRAY,
     METADATA, NONE. *)
  sm_dir_type : obj -> cstr -> State -> tiledb_object_t;
  sm_clear : obj -> cstr -> State -> Status * State;
  sm_delete_entire : obj -> cstr -> State -> Status * State;
  sm_move : obj -> cstr -> cstr -> State -> Status * State;
  sm_ls :
    obj -> cstr -> list string -> list Z -> Z ->
    State -> (Status * (list string * list Z * Z)) * State;
  sm_ls_c : obj -> cstr -> Z -> State -> (Status * Z) * State;

  (* Array *)
  Array_reset_subarray : obj -> option bytes -> State -> Status * State;
  Array_reset_attributes : obj -> option (list string) -> Z -> State -> Status * State;
  Array_array_schema : obj -> State -> option obj;
  Array_write : obj -> list bytes -> list Z -> State -> Status * State;
  Array_read :
    obj -> list bytes -> list Z -> State -> (Status * (list bytes * list Z)) * State;
  Array_overflow : obj -> Z -> State -> bool;
  Array_mode : obj -> State -> Z;
  Array_aio_read : obj -> ptr -> heap -> State -> Status * State;
  Array_aio_write : obj -> ptr -> heap -> State -> Status * State;

  (* ArrayIterator *)
  ArrayIterator_get_value : obj -> Z -> State -> (Status * (bytes * Z)) * State;
  ArrayIterator_next : obj -> State -> Status * State;
  ArrayIterator_end : obj -> State -> bool;

  (* Metadata *)
  Metadata_reset_attributes :
    obj -> option (list string) -> Z -> State -> Status * State;
  Metadata_array_schema : obj -> State -> option obj;
  Metadata_write : obj -> cstr -> Z -> list bytes -> list Z -> State -> Status * State;
  Metadata_read :
    obj -> cstr -> list bytes -> list Z ->
    State -> (Status * (list bytes * list Z)) * State;
  Metadata_overflow : obj -> Z -> State -> bool;

  (* MetadataIterator *)
  MetadataIterator_get_value : obj -> Z -> State -> (Status * (bytes * Z)) * State;
  MetadataIterator_next : obj -> State -> Status * State;
  MetadataIterator_end : obj -> State -> bool;

  (* ArraySchema.  array_schema_export fills a C struct with arrays that it
     allocates: it is given the first free address and returns the struct
     with the blocks that the struct points to, which are added to the
     heap. *)
  ArraySchema_new : State -> obj * State;
  ArraySchema_delete : obj -> State -> State;
  ArraySchema_load : obj -> cstr -> State -> Status * State;
  ArraySchema_export : obj -> addr -> State -> tiledb_array_schema_t * list block;
  ArraySchema_export_metadata :
    obj -> addr -> State -> tiledb_metadata_schema_t * list block
}.

Section C_API.

Context {engine : Engine}.

(** ** The state of a run, and the monad of the C functions *)

Record world := {
  w_heap : heap;
  (* the coming calls of malloc: [true] when the call returns the null
     pointer; once the list is used up every call succeeds *)
  w_oom : list bool;
  w_engine : State
}.

(** A C function maps a world to its result and the new world, or to [None]
    when it dereferences a null or dangling pointer, reads outside an array
    or frees what is not allocated, where C++ leaves the behaviour
    undefined. *)
Definition M (A : Type) : Type := world -> option (A * world).

Definition ret {A} (a : A) : M A := fun w => Some (a, w).

Definition bind {A B} (m : M A) (k : A -> M B) : M B :=
  fun w => match m w with
           | Some (a, w') => k a w'
           | None => None
           end.

Definition undefined {A} : M A := fun _ => None.

Notation "x <- c1 ;; c2" := (bind c1 (fun x => c2))
  (at level 20, c1 at level 99, c2 at level 200, only parsing).
Notation "c1 ;; c2" := (bind c1 (fun _ => c2))
  (at level 100, c2 at level 200, right associativity, only parsing).

Definition with_heap (w : world) (h : heap) : world :=
  {| w_heap := h; w_oom := w_oom w; w_engine := w_engine w |}.

Definition with_engine (w : world) (e : State) : world :=
  {| w_heap := w_heap w; w_oom := w_oom w; w_engine := e |}.

(** malloc: the null pointer when the allocation fails, else the address of
    a new block.  [init] stands for the indeterminate first content. *)
Definition malloc (init : block) : M ptr :=
  fun w =>
    match w_oom w with
    | true :: rest =>
        Some (NULL, {| w_heap := w_heap w; w_oom := rest; w_engine := w_engine w |})
    | _ =>
        Some (Some (length (w_heap w)),
              {| w_heap := w_heap w ++ [Some init];
                 w_oom := tail (w_oom w);
                 w_engine := w_engine w |})
    end.

(** free: nothing for the null pointer. *)
Definition free (p : ptr) : M unit :=
  fun w =>
    match p with
    | None => Some (tt, w)
    | Some a =>
        match block_at (w_heap w) a with
        | Some _ => Some (tt, with_heap w (<[a := None]> (w_heap w)))
        | None => None
        end
    end.

(** Reading a struct or an array through a pointer. *)
Definition load {A} (proj : block -> option A) (p : ptr) : M A :=
  fun w =>
    match deref proj (w_heap w) p with
    | Some x => Some (x, w)
    | None => None
    end.

(** Writing a struct or an array through a pointer. *)
Definition store (p : ptr) (b : block) : M unit :=
  fun w =>
    match p with
    | Some a =>
        match block_at (w_heap w) a with
        | Some _ => Some (tt, with_heap w (<[a := Some b]> (w_heap w)))
        | None => None
        end
    | None => None
    end.

(** Calling a method of the engine. *)
Definition call {A} (op : State -> A * State) : M A :=
  fun w => let '(a, e) := op (w_engine w) in Some (a, with_engine w e).

Definition call_ (op : State -> State) : M unit :=
  fun w => Some (tt, with_engine w (op (w_engine w))).

Definition query {A} (f : State -> A) : M A :=
  fun w => Some (f (w_engine w), w).

(** A method that reads the arrays of a C struct. *)
Definition call_heap {A} (op : heap -> State -> A * State) : M A :=
  fun w => let '(a, e) := op (w_heap w) (w_engine w) in Some (a, with_engine w e).

(** The arrays that array_schema_export allocates. *)
Definition export {A} (op : addr -> State -> A * list block) : M A :=
  fun w =>
    let '(a, bs) := op (length (w_heap w)) (w_engine w) in
    Some (a, with_heap w (w_heap w ++ (Some <$> bs))).

(** ** Config *)

Definition tiledb_config_create : M ptr :=
  config <- malloc (BConfig {| config_ := None |}) ;;
  if config is None then ret NULL
  else
    c <- call Configurator_new ;;
    store config (BConfig {| config_ := c |}) ;;
    if c is None then free config ;; ret NULL
    else ret config.

Definition tiledb_config_free (config : ptr) : M Z :=
  if config is None then ret TILEDB_OK
  else
    c <- load as_config config ;;
    (if config_ c is Some o then call_ (Configurator_delete o) else ret tt) ;;
    free config ;;
    ret TILEDB_OK.

Definition tiledb_config_set_read_method (config : ptr) (read_method : Z) : M Z :=
  if config is None then ret TILEDB_ERR
  else
    c <- load as_config config ;;
    match config_ c with
    | None => ret TILEDB_ERR
    | Some o => call_ (Configurator_set_read_method o read_method) ;; ret TILEDB_OK
    end.

Definition tiledb_config_set_write_method (config : ptr) (write_method : Z) : M Z :=
  if config is None then ret TILEDB_ERR
  else
    c <- load as_config config ;;
    match config_ c with
    | None => ret TILEDB_ERR
    | Some o => call_ (Configurator_set_write_method o write_method) ;; ret TILEDB_OK
    end.

(** ** Context *)

Definition save_error (ctx : ptr) (st : Status) : M bool :=
  if ok st then ret false
  else
    c <- load as_ctx ctx ;;
    store ctx (BCtx {| storage_manager_ := storage_manager_ c;
                       last_error_ := Some st |}) ;;
    ret true.

Definition sanity_check_ctx (ctx : ptr) : M Status :=
  if ctx is None then ret (Status_Error "Invalid TileDB context")
  else
    c <- load as_ctx ctx ;;
    if storage_manager_ c is None
    then ret (Status_Error "Invalid TileDB context")
    else ret Status_Ok.

(** The storage manager of a context that passed the sanity check. *)
Definition the_storage_manager (ctx : ptr) : M obj :=
  c <- load as_ctx ctx ;;
  if storage_manager_ c is Some sm then ret sm else undefined.

Definition tiledb_ctx_init (ctx : ptr) (tiledb_config : ptr) : M Z :=
  m <- malloc (BCtx {| storage_manager_ := None; last_error_ := None |}) ;;
  store ctx (BPtr m) ;;
  if m is None then ret TILEDB_OOM
  else
    sm <- call StorageManager_new ;;
    store m (BCtx {| storage_manager_ := Some sm; last_error_ := None |}) ;;
    config <- (if tiledb_config is None then ret None
               else c <- load as_config tiledb_config ;; ret (config_ c)) ;;
    st <- call (sm_init sm config) ;;
    failed <- save_error m st ;;
    if failed then ret TILEDB_ERR else ret TILEDB_OK.

Definition tiledb_ctx_finalize (ctx : ptr) : M Z :=
  if ctx is None then ret TILEDB_OK
  else
    c <- load as_ctx ctx ;;
    st <- (if storage_manager_ c is Some sm
           then st <- call (sm_finalize sm) ;;
                call_ (StorageManager_delete sm) ;;
                ret st
           else ret Status_Ok) ;;
    free ctx ;;
    ret (if ok st then TILEDB_OK else TILEDB_ERR).

Definition tiledb_error_last (ctx : ptr) : M ptr :=
  if ctx is None then ret NULL
  else
    c <- load as_ctx ctx ;;
    match last_error_ c with
    | None => ret NULL
    | Some st =>
        err <- malloc (BError {| status_ := None |}) ;;
        store err (BError {| status_ := Some st |}) ;;
        ret err
    end.

(** [return err->status_->to_string().c_str();]  The std::string that
    to_string() returns is a temporary: it is destroyed when the return
    statement is done, and its characters with it. *)
Definition c_str_of_temporary (s : string) : const_char_ptr := Dangling.

Definition tiledb_error_message (err : ptr) : M const_char_ptr :=
  if err is None then ret (Literal "")
  else
    e <- load as_error err ;;
    match status_ e with
    | None => undefined
    | Some st =>
        if ok st then ret (Literal "")
        else ret (c_str_of_temporary (Status_to_string st))
    end.

Definition tiledb_error_free (err : ptr) : M Z :=
  (if err is None then ret tt else load as_error err ;; free err) ;;
  ret TILEDB_OK.

(** ** Group *)

Definition tiledb_group_create (ctx : ptr) (group : cstr) : M Z :=
  sc <- sanity_check_ctx ctx ;;
  if negb (ok sc) then ret TILEDB_ERR
  else
    sm <- the_storage_manager ctx ;;
    st <- call (sm_group_create sm group) ;;
    failed <- save_error ctx st ;;
    if failed then ret TILEDB_ERR else ret TILEDB_OK.

(** ** Basic array *)

Definition tiledb_basic_array_create (ctx : ptr) (name : cstr) : M Z :=
  sc <- sanity_check_ctx ctx ;;
  if negb (ok sc) then ret TILEDB_ERR
  else
    sm <- the_storage_manager ctx ;;
    st <- call (sm_basic_array_create sm name) ;;
    failed <- save_error ctx st ;;
    if failed then ret TILEDB_ERR else ret TILEDB_OK.


(** ** Array *)

Definition sanity_check_array (tiledb_array : ptr) : M Status :=
  if tiledb_array is None then ret (Status_Error "Invalid TileDB array")
  else
    a <- load as_array tiledb_array ;;
    if array_ a is None then ret (Status_Error "Invalid TileDB array")
    else if ctx_ a is None then ret (Status_Error "Invalid TileDB array")
    else ret Status_Ok.

Definition sanity_check_array_schema (sch : ptr) : M Status :=
  if sch is None then ret (Status_Error "Invalid TileDB array schema")
  else ret Status_Ok.

(** The engine object behind a handle that passed its sanity check. *)
Definition the_object (o : option obj) : M obj :=
  if o is Some x then ret x else undefined.

Definition tiledb_array_create (ctx : ptr) (array_schema : ptr) : M Z :=
  sc <- sanity_check_ctx ctx ;;
  if negb (ok sc) then ret TILEDB_ERR
  else
    array_schema_c <- load as_array_schema array_schema ;;
    sm <- the_storage_manager ctx ;;
    st <- call_heap (sm_array_create sm array_schema_c) ;;
    failed <- save_error ctx st ;;
    if failed then ret TILEDB_ERR else ret TILEDB_OK.

Definition tiledb_array_init
    (ctx : ptr) (tiledb_array : ptr) (array : cstr) (mode : Z)
    (subarray : option bytes) (attributes : option (list string))
    (attribute_num : Z) : M Z :=
  sc <- sanity_check_ctx ctx ;;
  if negb (ok sc) then ret TILEDB_ERR
  else
    m <- malloc (BArray {| array_ := None; ctx_ := NULL |}) ;;
    store tiledb_array (BPtr m) ;;
    (* the test is on tiledb_array, not on *tiledb_array *)
    if tiledb_array is None then ret TILEDB_OOM
    else
      a <- load as_array m ;;
      store m (BArray {| array_ := array_ a; ctx_ := ctx |}) ;;
      sm <- the_storage_manager ctx ;;
      r <- call (sm_array_init sm array mode subarray attributes attribute_num) ;;
      store m (BArray {| array_ := r.2; ctx_ := ctx |}) ;;
      failed <- save_error ctx r.1 ;;
      if failed then free m ;; ret TILEDB_ERR
      else ret TILEDB_OK.

Definition tiledb_array_reset_subarray
    (tiledb_array : ptr) (subarray : option bytes) : M Z :=
  sc <- sanity_check_array tiledb_array ;;
  if negb (ok sc) then ret TILEDB_ERR
  else
    a <- load as_array tiledb_array ;;
    arr <- the_object (array_ a) ;;
    st <- call (Array_reset_subarray arr subarray) ;;
    failed <- save_error (ctx_ a) st ;;
    if failed then ret TILEDB_ERR else ret TILEDB_OK.

Definition tiledb_array_reset_attributes
    (tiledb_array : ptr) (attributes : option (list string))
    (attribute_num : Z) : M Z :=
  sc <- sanity_check_array tiledb_array ;;
  if negb (ok sc) then ret TILEDB_ERR
  else
    a <- load as_array tiledb_array ;;
    arr <- the_object (array_ a) ;;
    st <- call (Array_reset_attributes arr attributes attribute_num) ;;
    failed <- save_error (ctx_ a) st ;;
    if failed then ret TILEDB_ERR else ret TILEDB_OK.

Definition tiledb_array_get_schema
    (tiledb_array : ptr) (tiledb_array_schema : ptr) : M Z :=
  sc <- sanity_check_array tiledb_array ;;
  if negb (ok sc) then ret TILEDB_ERR
  else
    a <- load as_array tiledb_array ;;
    arr <- the_object (array_ a) ;;
    sch <- query (Array_array_schema arr) ;;
    sch <- the_object sch ;;
    array_schema_c <- export (ArraySchema_export sch) ;;
    store tiledb_array_schema (BArraySchema array_schema_c) ;;
    ret TILEDB_OK.

Definition tiledb_array_load_schema
    (ctx : ptr) (array : cstr) (tiledb_array_schema : ptr) : M Z :=
  sc <- sanity_check_ctx ctx ;;
  if negb (ok sc) then ret TILEDB_ERR
  else
    array_schema <- call ArraySchema_new ;;
    st <- call (ArraySchema_load array_schema array) ;;
    failed <- save_error ctx st ;;
    if failed then call_ (ArraySchema_delete array_schema) ;; ret TILEDB_ERR
    else
      array_schema_c <- export (ArraySchema_export array_schema) ;;
      store tiledb_array_schema (BArraySchema array_schema_c) ;;
      call_ (ArraySchema_delete array_schema) ;;
      ret TILEDB_OK.

Definition tiledb_array_write
    (tiledb_array : ptr) (buffers : list bytes) (buffer_sizes : list Z) : M Z :=
  sc <- sanity_check_array tiledb_array ;;
  if negb (ok sc) then ret TILEDB_ERR
  else
    a <- load as_array tiledb_array ;;
    sc <- sanity_check_array tiledb_array ;;
    failed <- save_error (ctx_ a) sc ;;
    if failed then ret TILEDB_ERR
    else
      arr <- the_object (array_ a) ;;
      st <- call (Array_write arr buffers buffer_sizes) ;;
      failed <- save_error (ctx_ a) st ;;
      if failed then ret TILEDB_ERR else ret TILEDB_OK.

(** The buffers and their sizes are written by the engine; they are returned
    with the code. *)
Definition tiledb_array_read
    (tiledb_array : ptr) (buffers : list bytes) (buffer_sizes : list Z)
    : M (Z * (list bytes * list Z)) :=
  sc <- sanity_check_array tiledb_array ;;
  if negb (ok sc) then ret (TILEDB_ERR, (buffers, buffer_sizes))
  else
    a <- load as_array tiledb_array ;;
    sc <- sanity_check_array tiledb_array ;;
    failed <- save_error (ctx_ a) sc ;;
    if failed then ret (TILEDB_ERR, (buffers, buffer_sizes))
    else
      arr <- the_object (array_ a) ;;
      r <- call (Array_read arr buffers buffer_sizes) ;;
      failed <- save_error (ctx_ a) r.1 ;;
      if failed then ret (TILEDB_ERR, r.2) else ret (TILEDB_OK, r.2).

Definition tiledb_array_overflow (tiledb_array : ptr) (attribute_id : Z) : M Z :=
  sc <- sanity_check_array tiledb_array ;;
  if negb (ok sc) then ret TILEDB_ERR
  else
    a <- load as_array tiledb_array ;;
    sc <- sanity_check_array tiledb_array ;;
    failed <- save_error (ctx_ a) sc ;;
    if failed then ret TILEDB_ERR
    else
      arr <- the_object (array_ a) ;;
      b <- query (Array_overflow arr attribute_id) ;;
      ret (Z.b2z b).

Definition tiledb_array_consolidate (ctx : ptr) (array : cstr) : M Z :=
  sc <- sanity_check_ctx ctx ;;
  if negb (ok sc) then ret TILEDB_ERR
  else
    sm <- the_storage_manager ctx ;;
    st <- call (sm_array_consolidate sm array) ;;
    failed <- save_error ctx st ;;
    if failed then ret TILEDB_ERR else ret TILEDB_OK.

Definition tiledb_array_finalize (tiledb_array : ptr) : M Z :=
  sc <- sanity_check_array tiledb_array ;;
  if negb (ok sc) then ret TILEDB_ERR
  else
    a <- load as_array tiledb_array ;;
    sc <- sanity_check_array tiledb_array ;;
    failed <- save_error (ctx_ a) sc ;;
    if failed then ret TILEDB_ERR
    else
      sm <- the_storage_manager (ctx_ a) ;;
      st <- call (sm_array_finalize sm (array_ a)) ;;
      failed <- save_error (ctx_ a) st ;;
      if failed then free tiledb_array ;; ret TILEDB_ERR
      else free tiledb_array ;; ret TILEDB_OK.

Definition tiledb_array_sync (tiledb_array : ptr) : M Z :=
  sc <- sanity_check_array tiledb_array ;;
  if negb (ok sc) then ret TILEDB_ERR
  else
    a <- load as_array tiledb_array ;;
    sc <- sanity_check_array tiledb_array ;;
    failed <- save_error (ctx_ a) sc ;;
    if failed then ret TILEDB_ERR
    else
      sm <- the_storage_manager (ctx_ a) ;;
      st <- call (sm_array_sync sm (array_ a)) ;;
      failed <- save_error (ctx_ a) st ;;
      if failed then ret TILEDB_ERR else ret TILEDB_OK.

Definition tiledb_array_sync_attribute
    (tiledb_array : ptr) (attribute : cstr) : M Z :=
  sc <- sanity_check_array tiledb_array ;;
  if negb (ok sc) then ret TILEDB_ERR
  else
    a <- load as_array tiledb_array ;;
    sc <- sanity_check_array tiledb_array ;;
    failed <- save_error (ctx_ a) sc ;;
    if failed then ret TILEDB_ERR
    else
      sm <- the_storage_manager (ctx_ a) ;;
      st <- call (sm_array_sync_attribute sm (array_ a) attribute) ;;
      failed <- save_error (ctx_ a) st ;;
      if failed then ret TILEDB_ERR else ret TILEDB_OK.

(** ** Array iterator *)

Definition sanity_check_array_it (tiledb_array_it : ptr) : M Status :=
  if tiledb_array_it is None
  then ret (Status_Error "Invalid TileDB array iterator")
  else
    a <- load as_array_it tiledb_array_it ;;
    if array_it_ a is None
    then ret (Status_Error "Invalid TileDB array iterator")
    else if array_it_ctx_ a is None
    then ret (Status_Error "Invalid TileDB array iterator")
    else ret Status_Ok.

Definition tiledb_array_iterator_init
    (ctx : ptr) (tiledb_array_it : ptr) (array : cstr) (mode : Z)
    (subarray : option bytes) (attributes : option (list string))
    (attribute_num : Z) (buffers : list bytes) (buffer_sizes : list Z) : M Z :=
  sc <- sanity_check_ctx ctx ;;
  if negb (ok sc) then ret TILEDB_ERR
  else
    m <- malloc (BArrayIt {| array_it_ := None; array_it_ctx_ := NULL |}) ;;
    store tiledb_array_it (BPtr m) ;;
    if m is None then ret TILEDB_OOM
    else
      a <- load as_array_it m ;;
      store m (BArrayIt {| array_it_ := array_it_ a; array_it_ctx_ := ctx |}) ;;
      sm <- the_storage_manager ctx ;;
      r <- call (sm_array_iterator_init sm array mode subarray attributes
                   attribute_num buffers buffer_sizes) ;;
      store m (BArrayIt {| array_it_ := r.2; array_it_ctx_ := ctx |}) ;;
      failed <- save_error ctx r.1 ;;
      if failed then free m ;; ret TILEDB_ERR
      else ret TILEDB_OK.

Definition tiledb_array_iterator_get_value
    (tiledb_array_it : ptr) (attribute_id : Z) (value : bytes) (value_size : Z)
    : M (Z * (bytes * Z)) :=
  sc <- sanity_check_array_it tiledb_array_it ;;
  if negb (ok sc) then ret (TILEDB_ERR, (value, value_size))
  else
    a <- load as_array_it tiledb_array_it ;;
    sc <- sanity_check_array_it tiledb_array_it ;;
    failed <- save_error (array_it_ctx_ a) sc ;;
    if failed then ret (TILEDB_ERR, (value, value_size))
    else
      it <- the_object (array_it_ a) ;;
      r <- call (ArrayIterator_get_value it attribute_id) ;;
      failed <- save_error (array_it_ctx_ a) r.1 ;;
      if failed then ret (TILEDB_ERR, r.2) else ret (TILEDB_OK, r.2).

Definition tiledb_array_iterator_next (tiledb_array_it : ptr) : M Z :=
  sc <- sanity_check_array_it tiledb_array_it ;;
  if negb (ok sc) then ret TILEDB_ERR
  else
    a <- load as_array_it tiledb_array_it ;;
    sc <- sanity_check_array_it tiledb_array_it ;;
    failed <- save_error (array_it_ctx_ a) sc ;;
    if failed then ret TILEDB_ERR
    else
      it <- the_object (array_it_ a) ;;
      st <- call (ArrayIterator_next it) ;;
      failed <- save_error (array_it_ctx_ a) st ;;
      if failed then ret TILEDB_ERR else ret TILEDB_OK.

Definition tiledb_array_iterator_end (tiledb_array_it : ptr) : M Z :=
  sc <- sanity_check_array_it tiledb_array_it ;;
  if negb (ok sc) then ret TILEDB_ERR
  else
    a <- load as_array_it tiledb_array_it ;;
    sc <- sanity_check_array_it tiledb_array_it ;;
    failed <- save_error (array_it_ctx_ a) sc ;;
    if failed then ret TILEDB_ERR
    else
      it <- the_object (array_it_ a) ;;
      b <- query (ArrayIterator_end it) ;;
      ret (Z.b2z b).

Definition tiledb_array_iterator_finalize (tiledb_array_it : ptr) : M Z :=
  sc <- sanity_check_array_it tiledb_array_it ;;
  if negb (ok sc) then ret TILEDB_ERR
  else
    a <- load as_array_it tiledb_array_it ;;
    sc <- sanity_check_array_it tiledb_array_it ;;
    failed <- save_error (array_it_ctx_ a) sc ;;
    if failed then ret TILEDB_ERR
    else
      sm <- the_storage_manager (array_it_ctx_ a) ;;
      st <- call (sm_array_iterator_finalize sm (array_it_ a)) ;;
      failed <- save_error (array_it_ctx_ a) st ;;
      if failed then free tiledb_array_it ;; ret TILEDB_ERR
      else free tiledb_array_it ;; ret TILEDB_OK.


(** ** Metadata *)

Definition sanity_check_metadata (tiledb_metadata : ptr) : M Status :=
  if tiledb_metadata is None then ret (Status_Error "Invalid TileDB metadata")
  else
    m <- load as_metadata tiledb_metadata ;;
    if metadata_ m is None then ret (Status_Error "Invalid TileDB metadata")
    else if metadata_ctx_ m is None then ret (Status_Error "Invalid TileDB metadata")
    else ret Status_Ok.

Definition sanity_check_metadata_schema (sch : ptr) : M Status :=
  if sch is None then ret (Status_Error "Invalid metadata schema")
  else ret Status_Ok.

Definition tiledb_metadata_create (ctx : ptr) (metadata_schema : ptr) : M Z :=
  sc <- sanity_check_ctx ctx ;;
  if negb (ok sc) then ret TILEDB_ERR
  else
    sc <- sanity_check_metadata_schema metadata_schema ;;
    failed <- save_error ctx sc ;;
    if failed then ret TILEDB_ERR
    else
      metadata_schema_c <- load as_metadata_schema metadata_schema ;;
      sm <- the_storage_manager ctx ;;
      st <- call_heap (sm_metadata_create sm metadata_schema_c) ;;
      failed <- save_error ctx st ;;
      if failed then ret TILEDB_ERR else ret TILEDB_OK.

Definition tiledb_metadata_init
    (ctx : ptr) (tiledb_metadata : ptr) (metadata : cstr) (mode : Z)
    (attributes : option (list string)) (attribute_num : Z) : M Z :=
  sc <- sanity_check_ctx ctx ;;
  if negb (ok sc) then ret TILEDB_ERR
  else
    m <- malloc (BMetadata {| metadata_ := None; metadata_ctx_ := NULL |}) ;;
    store tiledb_metadata (BPtr m) ;;
    if m is None then ret TILEDB_OOM
    else
      a <- load as_metadata m ;;
      store m (BMetadata {| metadata_ := metadata_ a; metadata_ctx_ := ctx |}) ;;
      sm <- the_storage_manager ctx ;;
      r <- call (sm_metadata_init sm metadata mode attributes attribute_num) ;;
      store m (BMetadata {| metadata_ := r.2; metadata_ctx_ := ctx |}) ;;
      failed <- save_error ctx r.1 ;;
      if failed then free m ;; ret TILEDB_ERR
      else ret TILEDB_OK.

Definition tiledb_metadata_reset_attributes
    (tiledb_metadata : ptr) (attributes : option (list string))
    (attribute_num : Z) : M Z :=
  sc <- sanity_check_metadata tiledb_metadata ;;
  if negb (ok sc) then ret TILEDB_ERR
  else
    m <- load as_metadata tiledb_metadata ;;
    md <- the_object (metadata_ m) ;;
    st <- call (Metadata_reset_attributes md attributes attribute_num) ;;
    failed <- save_error (metadata_ctx_ m) st ;;
    if failed then ret TILEDB_ERR else ret TILEDB_OK.

Definition tiledb_metadata_get_schema
    (tiledb_metadata : ptr) (tiledb_metadata_schema : ptr) : M Z :=
  sc <- sanity_check_metadata tiledb_metadata ;;
  if negb (ok sc) then ret TILEDB_ERR
  else
    m <- load as_metadata tiledb_metadata ;;
    sc <- sanity_check_metadata tiledb_metadata ;;
    failed <- save_error (metadata_ctx_ m) sc ;;
    if failed then ret TILEDB_ERR
    else
      md <- the_object (metadata_ m) ;;
      sch <- query (Metadata_array_schema md) ;;
      sch <- the_object sch ;;
      metadata_schema_c <- export (ArraySchema_export_metadata sch) ;;
      store tiledb_metadata_schema (BMetadataSchema metadata_schema_c) ;;
      ret TILEDB_OK.

Definition tiledb_metadata_load_schema
    (ctx : ptr) (metadata : cstr) (tiledb_metadata_schema : ptr) : M Z :=
  sc <- sanity_check_ctx ctx ;;
  if negb (ok sc) then ret TILEDB_ERR
  else
    sm <- the_storage_manager ctx ;;
    r <- call (sm_metadata_load_schema sm metadata) ;;
    failed <- save_error ctx r.1 ;;
    if failed then ret TILEDB_ERR
    else
      array_schema <- the_object r.2 ;;
      metadata_schema_c <- export (ArraySchema_export_metadata array_schema) ;;
      store tiledb_metadata_schema (BMetadataSchema metadata_schema_c) ;;
      call_ (ArraySchema_delete array_schema) ;;
      ret TILEDB_OK.

Definition tiledb_metadata_write
    (tiledb_metadata : ptr) (keys : cstr) (keys_size : Z)
    (buffers : list bytes) (buffer_sizes : list Z) : M Z :=
  sc <- sanity_check_metadata tiledb_metadata ;;
  if negb (ok sc) then ret TILEDB_ERR
  else
    m <- load as_metadata tiledb_metadata ;;
    md <- the_object (metadata_ m) ;;
    st <- call (Metadata_write md keys keys_size buffers buffer_sizes) ;;
    failed <- save_error (metadata_ctx_ m) st ;;
    if failed then ret TILEDB_ERR else ret TILEDB_OK.

Definition tiledb_metadata_read
    (tiledb_metadata : ptr) (key : cstr)
    (buffers : list bytes) (buffer_sizes : list Z)
    : M (Z * (list bytes * list Z)) :=
  sc <- sanity_check_metadata tiledb_metadata ;;
  if negb (ok sc) then ret (TILEDB_ERR, (buffers, buffer_sizes))
  else
    m <- load as_metadata tiledb_metadata ;;
    md <- the_object (metadata_ m) ;;
    r <- call (Metadata_read md key buffers buffer_sizes) ;;
    failed <- save_error (metadata_ctx_ m) r.1 ;;
    if failed then ret (TILEDB_ERR, r.2) else ret (TILEDB_OK, r.2).

Definition tiledb_metadata_overflow
    (tiledb_metadata : ptr) (attribute_id : Z) : M Z :=
  sc <- sanity_check_metadata tiledb_metadata ;;
  if negb (ok sc) then ret TILEDB_ERR
  else
    m <- load as_metadata tiledb_metadata ;;
    md <- the_object (metadata_ m) ;;
    b <- query (Metadata_overflow md attribute_id) ;;
    ret (Z.b2z b).

Definition tiledb_metadata_consolidate (ctx : ptr) (metadata : cstr) : M Z :=
  sc <- sanity_check_ctx ctx ;;
  if negb (ok sc) then ret TILEDB_ERR
  else
    sm <- the_storage_manager ctx ;;
    st <- call (sm_metadata_consolidate sm metadata) ;;
    failed <- save_error ctx st ;;
    if failed then ret TILEDB_ERR else ret TILEDB_OK.

(** The handle is freed on the failure path only. *)
Definition tiledb_metadata_finalize (tiledb_metadata : ptr) : M Z :=
  sc <- sanity_check_metadata tiledb_metadata ;;
  if negb (ok sc) then ret TILEDB_ERR
  else
    m <- load as_metadata tiledb_metadata ;;
    sm <- the_storage_manager (metadata_ctx_ m) ;;
    st <- call (sm_metadata_finalize sm (metadata_ m)) ;;
    failed <- save_error (metadata_ctx_ m) st ;;
    if failed then free tiledb_metadata ;; ret TILEDB_ERR
    else ret TILEDB_OK.

(** ** Metadata iterator *)

Definition sanity_check_metadata_it (tiledb_metadata_it : ptr) : M Status :=
  if tiledb_metadata_it is None
  then ret (Status_Error "Invalid TileDB metadata iterator")
  else
    m <- load as_metadata_it tiledb_metadata_it ;;
    if metadata_it_ m is None
    then ret (Status_Error "Invalid TileDB metadata iterator")
    else if metadata_it_ctx_ m is None
    then ret (Status_Error "Invalid TileDB metadata iterator")
    else ret Status_Ok.

Definition tiledb_metadata_iterator_init
    (ctx : ptr) (tiledb_metadata_it : ptr) (metadata : cstr)
    (attributes : option (list string)) (attribute_num : Z)
    (buffers : list bytes) (buffer_sizes : list Z) : M Z :=
  sc <- sanity_check_ctx ctx ;;
  if negb (ok sc) then ret TILEDB_ERR
  else
    m <- malloc (BMetadataIt {| metadata_it_ := None; metadata_it_ctx_ := NULL |}) ;;
    store tiledb_metadata_it (BPtr m) ;;
    if m is None then ret TILEDB_ERR
    else
      a <- load as_metadata_it m ;;
      store m (BMetadataIt {| metadata_it_ := metadata_it_ a;
                              metadata_it_ctx_ := ctx |}) ;;
      sm <- the_storage_manager ctx ;;
      r <- call (sm_metadata_iterator_init sm metadata attributes
                   attribute_num buffers buffer_sizes) ;;
      store m (BMetadataIt {| metadata_it_ := r.2; metadata_it_ctx_ := ctx |}) ;;
      failed <- save_error ctx r.1 ;;
      if failed then free m ;; ret TILEDB_ERR
      else ret TILEDB_OK.

Definition tiledb_metadata_iterator_get_value
    (tiledb_metadata_it : ptr) (attribute_id : Z) (value : bytes)
    (value_size : Z) : M (Z * (bytes * Z)) :=
  sc <- sanity_check_metadata_it tiledb_metadata_it ;;
  if negb (ok sc) then ret (TILEDB_ERR, (value, value_size))
  else
    m <- load as_metadata_it tiledb_metadata_it ;;
    sc <- sanity_check_metadata_it tiledb_metadata_it ;;
    failed <- save_error (metadata_it_ctx_ m) sc ;;
    if failed then ret (TILEDB_ERR, (value, value_size))
    else
      it <- the_object (metadata_it_ m) ;;
      r <- call (MetadataIterator_get_value it attribute_id) ;;
      failed <- save_error (metadata_it_ctx_ m) r.1 ;;
      if failed then ret (TILEDB_ERR, r.2) else ret (TILEDB_OK, r.2).

Definition tiledb_metadata_iterator_next (tiledb_metadata_it : ptr) : M Z :=
  sc <- sanity_check_metadata_it tiledb_metadata_it ;;
  if negb (ok sc) then ret TILEDB_ERR
  else
    m <- load as_metadata_it tiledb_metadata_it ;;
    it <- the_object (metadata_it_ m) ;;
    st <- call (MetadataIterator_next it) ;;
    failed <- save_error (metadata_it_ctx_ m) st ;;
    if failed then ret TILEDB_ERR else ret TILEDB_OK.

Definition tiledb_metadata_iterator_end (tiledb_metadata_it : ptr) : M Z :=
  sc <- sanity_check_metadata_it tiledb_metadata_it ;;
  if negb (ok sc) then ret TILEDB_ERR
  else
    m <- load as_metadata_it tiledb_metadata_it ;;
    it <- the_object (metadata_it_ m) ;;
    b <- query (MetadataIterator_end it) ;;
    ret (Z.b2z b).

Definition tiledb_metadata_iterator_finalize (tiledb_metadata_it : ptr) : M Z :=
  sc <- sanity_check_metadata_it tiledb_metadata_it ;;
  if negb (ok sc) then ret TILEDB_ERR
  else
    m <- load as_metadata_it tiledb_metadata_it ;;
    sm <- the_storage_manager (metadata_it_ctx_ m) ;;
    st <- call (sm_metadata_iterator_finalize sm (metadata_it_ m)) ;;
    failed <- save_error (metadata_it_ctx_ m) st ;;
    if failed then free tiledb_metadata_it ;; ret TILEDB_ERR
    else free tiledb_metadata_it ;; ret TILEDB_OK.

(** ** Directory management *)

Definition tiledb_dir_type (ctx : ptr) (dir : cstr) : M Z :=
  if ctx is None then ret TILEDB_ERR
  else
    sm <- the_storage_manager ctx ;;
    k <- query (sm_dir_type sm dir) ;;
    ret (object_code k).

Definition tiledb_clear (ctx : ptr) (dir : cstr) : M Z :=
  sc <- sanity_check_ctx ctx ;;
  if negb (ok sc) then ret TILEDB_ERR
  else if dir is None then
    save_error ctx (Status_Error "Invalid directory argument is NULL") ;;
    ret TILEDB_ERR
  else
    sm <- the_storage_manager ctx ;;
    st <- call (sm_clear sm dir) ;;
    failed <- save_error ctx st ;;
    if failed then ret TILEDB_ERR else ret TILEDB_OK.

Definition tiledb_delete (ctx : ptr) (dir : cstr) : M Z :=
  sc <- sanity_check_ctx ctx ;;
  if negb (ok sc) then ret TILEDB_ERR
  else
    sm <- the_storage_manager ctx ;;
    st <- call (sm_delete_entire sm dir) ;;
    failed <- save_error ctx st ;;
    if failed then ret TILEDB_ERR else ret TILEDB_OK.

Definition tiledb_move (ctx : ptr) (old_dir new_dir : cstr) : M Z :=
  sc <- sanity_check_ctx ctx ;;
  if negb (ok sc) then ret TILEDB_ERR
  else
    sm <- the_storage_manager ctx ;;
    st <- call (sm_move sm old_dir new_dir) ;;
    failed <- save_error ctx st ;;
    if failed then ret TILEDB_ERR else ret TILEDB_OK.

(** [dir_num] is an int*: it is dereferenced for the engine. *)
Definition tiledb_ls
    (ctx : ptr) (parent_dir : cstr) (dirs : list string) (dir_types : list Z)
    (dir_num : option Z) : M (Z * (list string * list Z * option Z)) :=
  sc <- sanity_check_ctx ctx ;;
  if negb (ok sc) then ret (TILEDB_ERR, (dirs, dir_types, dir_num))
  else
    sm <- the_storage_manager ctx ;;
    n <- (if dir_num is Some n then ret n else undefined) ;;
    r <- call (sm_ls sm parent_dir dirs dir_types n) ;;
    failed <- save_error ctx r.1 ;;
    ret (if failed then TILEDB_ERR else TILEDB_OK,
         (r.2.1.1, r.2.1.2, Some r.2.2)).

Definition tiledb_ls_c (ctx : ptr) (parent_dir : cstr) (dir_num : option Z)
    : M (Z * option Z) :=
  sc <- sanity_check_ctx ctx ;;
  if negb (ok sc) then ret (TILEDB_ERR, dir_num)
  else
    sm <- the_storage_manager ctx ;;
    n <- (if dir_num is Some n then ret n else undefined) ;;
    r <- call (sm_ls_c sm parent_dir n) ;;
    failed <- save_error ctx r.1 ;;
    ret (if failed then TILEDB_ERR else TILEDB_OK, Some r.2).

(** ** Asynchronous I/O *)

(** A pointer converted to size_t. *)
Definition ptr_to_size_t (p : ptr) : Z :=
  match p with
  | None => 0
  | Some a => Z.of_nat (S a)
  end.

(** &(request->status_) *)
Definition status_field (p : ptr) : option status_ptr := StatusField <$> p.

Definition blank_aio : AIO_Request :=
  {| aio_id_ := 0; aio_buffers_ := NULL; aio_buffer_sizes_ := NULL;
     aio_mode_ := 0; aio_status_ := None; aio_subarray_ := NULL;
     aio_completion_handle_ := NULL; aio_completion_data_ := NULL |}.

(** The copy of the request; tiledb_array_aio_read and tiledb_array_aio_write
    build it with the same statements.  The result of malloc is not tested. *)
Definition copy_aio_request (tiledb_aio_request : ptr) (arr : obj) : M ptr :=
  aio_request <- malloc (BAIO blank_aio) ;;
  rq <- load as_request tiledb_aio_request ;;
  mode <- query (Array_mode arr) ;;
  store aio_request
    (BAIO {| aio_id_ := ptr_to_size_t tiledb_aio_request;
             aio_buffers_ := rq_buffers_ rq;
             aio_buffer_sizes_ := rq_buffer_sizes_ rq;
             aio_mode_ := mode;
             aio_status_ := status_field tiledb_aio_request;
             aio_subarray_ := rq_subarray_ rq;
             aio_completion_handle_ := rq_completion_handle_ rq;
             aio_completion_data_ := rq_completion_data_ rq |}) ;;
  ret aio_request.

Definition tiledb_array_aio_read
    (tiledb_array : ptr) (tiledb_aio_request : ptr) : M Z :=
  sc <- sanity_check_array tiledb_array ;;
  if negb (ok sc) then ret TILEDB_ERR
  else
    a <- load as_array tiledb_array ;;
    arr <- the_object (array_ a) ;;
    aio_request <- copy_aio_request tiledb_aio_request arr ;;
    st <- call_heap (Array_aio_read arr aio_request) ;;
    failed <- save_error (ctx_ a) st ;;
    if failed then ret TILEDB_ERR else ret TILEDB_OK.

Definition tiledb_array_aio_write
    (tiledb_array : ptr) (tiledb_aio_request : ptr) : M Z :=
  sc <- sanity_check_array tiledb_array ;;
  if negb (ok sc) then ret TILEDB_ERR
  else
    a <- load as_array tiledb_array ;;
    arr <- the_object (array_ a) ;;
    aio_request <- copy_aio_request tiledb_aio_request arr ;;
    st <- call_heap (Array_aio_write arr aio_request) ;;
    failed <- save_error (ctx_ a) st ;;
    if failed then ret TILEDB_ERR else ret TILEDB_OK.


(** ** Schemas built by the caller *)

(** Assignments to one field of a schema struct. *)
Definition set_array_name_ (v : ptr) (s : tiledb_array_schema_t) : tiledb_array_schema_t :=
  {| array_name_ := v;
     attributes_ := attributes_ s;
     attribute_num_ := attribute_num_ s;
     capacity_ := capacity_ s;
     cell_order_ := cell_order_ s;
     cell_val_num_ := cell_val_num_ s;
     compressor_ := compressor_ s;
     dense_ := dense_ s;
     dimensions_ := dimensions_ s;
     dim_num_ := dim_num_ s;
     domain_ := domain_ s;
     tile_extents_ := tile_extents_ s;
     tile_order_ := tile_order_ s;
     types_ := types_ s |}.

Definition set_attributes_ (v : ptr) (s : tiledb_array_schema_t) : tiledb_array_schema_t :=
  {| array_name_ := array_name_ s;
     attributes_ := v;
     attribute_num_ := attribute_num_ s;
     capacity_ := capacity_ s;
     cell_order_ := cell_order_ s;
     cell_val_num_ := cell_val_num_ s;
     compressor_ := compressor_ s;
     dense_ := dense_ s;
     dimensions_ := dimensions_ s;
     dim_num_ := dim_num_ s;
     domain_ := domain_ s;
     tile_extents_ := tile_extents_ s;
     tile_order_ := tile_order_ s;
     types_ := types_ s |}.

Definition set_attribute_num_ (v : Z) (s : tiledb_array_schema_t) : tiledb_array_schema_t :=
  {| array_name_ := array_name_ s;
     attributes_ := attributes_ s;
     attribute_num_ := v;
     capacity_ := capacity_ s;
     cell_order_ := cell_order_ s;
     cell_val_num_ := cell_val_num_ s;
     compressor_ := compressor_ s;
     dense_ := dense_ s;
     dimensions_ := dimensions_ s;
     dim_num_ := dim_num_ s;
     domain_ := domain_ s;
     tile_extents_ := tile_extents_ s;
     tile_order_ := tile_order_ s;
     types_ := types_ s |}.

Definition set_capacity_ (v : Z) (s : tiledb_array_schema_t) : tiledb_array_schema_t :=
  {| array_name_ := array_name_ s;
     attributes_ := attributes_ s;
     attribute_num_ := attribute_num_ s;
     capacity_ := v;
     cell_order_ := cell_order_ s;
     cell_val_num_ := cell_val_num_ s;
     compressor_ := compressor_ s;
     dense_ := dense_ s;
     dimensions_ := dimensions_ s;
     dim_num_ := dim_num_ s;
     domain_ := domain_ s;
     tile_extents_ := tile_extents_ s;
     tile_order_ := tile_order_ s;
     types_ := types_ s |}.

Definition set_cell_order_ (v : Z) (s : tiledb_array_schema_t) : tiledb_array_schema_t :=
  {| array_name_ := array_name_ s;
     attributes_ := attributes_ s;
     attribute_num_ := attribute_num_ s;
     capacity_ := capacity_ s;
     cell_order_ := v;
     cell_val_num_ := cell_val_num_ s;
     compressor_ := compressor_ s;
     dense_ := dense_ s;
     dimensions_ := dimensions_ s;
     dim_num_ := dim_num_ s;
     domain_ := domain_ s;
     tile_extents_ := tile_extents_ s;
     tile_order_ := tile_order_ s;
     types_ := types_ s |}.

Definition set_cell_val_num_ (v : ptr) (s : tiledb_array_schema_t) : tiledb_array_schema_t :=
  {| array_name_ := array_name_ s;
     attributes_ := attributes_ s;
     attribute_num_ := attribute_num_ s;
     capacity_ := capacity_ s;
     cell_order_ := cell_order_ s;
     cell_val_num_ := v;
     compressor_ := compressor_ s;
     dense_ := dense_ s;
     dimensions_ := dimensions_ s;
     dim_num_ := dim_num_ s;
     domain_ := domain_ s;
     tile_extents_ := tile_extents_ s;
     tile_order_ := tile_order_ s;
     types_ := types_ s |}.

Definition set_compressor_ (v : ptr) (s : tiledb_array_schema_t) : tiledb_array_schema_t :=
  {| array_name_ := array_name_ s;
     attributes_ := attributes_ s;
     attribute_num_ := attribute_num_ s;
     capacity_ := capacity_ s;
     cell_order_ := cell_order_ s;
     cell_val_num_ := cell_val_num_ s;
     compressor_ := v;
     dense_ := dense_ s;
     dimensions_ := dimensions_ s;
     dim_num_ := dim_num_ s;
     domain_ := domain_ s;
     tile_extents_ := tile_extents_ s;
     tile_order_ := tile_order_ s;
     types_ := types_ s |}.

Definition set_dense_ (v : Z) (s : tiledb_array_schema_t) : tiledb_array_schema_t :=
  {| array_name_ := array_name_ s;
     attributes_ := attributes_ s;
     attribute_num_ := attribute_num_ s;
     capacity_ := capacity_ s;
     cell_order_ := cell_order_ s;
     cell_val_num_ := cell_val_num_ s;
     compressor_ := compressor_ s;
     dense_ := v;
     dimensions_ := dimensions_ s;
     dim_num_ := dim_num_ s;
     domain_ := domain_ s;
     tile_extents_ := tile_extents_ s;
     tile_order_ := tile_order_ s;
     types_ := types_ s |}.

Definition set_dimensions_ (v : ptr) (s : tiledb_array_schema_t) : tiledb_array_schema_t :=
  {| array_name_ := array_name_ s;
     attributes_ := attributes_ s;
     attribute_num_ := attribute_num_ s;
     capacity_ := capacity_ s;
     cell_order_ := cell_order_ s;
     cell_val_num_ := cell_val_num_ s;
     compressor_ := compressor_ s;
     dense_ := dense_ s;
     dimensions_ := v;
     dim_num_ := dim_num_ s;
     domain_ := domain_ s;
     tile_extents_ := tile_extents_ s;
     tile_order_ := tile_order_ s;
     types_ := types_ s |}.

Definition set_dim_num_ (v : Z) (s : tiledb_array_schema_t) : tiledb_array_schema_t :=
  {| array_name_ := array_name_ s;
     attributes_ := attributes_ s;
     attribute_num_ := attribute_num_ s;
     capacity_ := capacity_ s;
     cell_order_ := cell_order_ s;
     cell_val_num_ := cell_val_num_ s;
     compressor_ := compressor_ s;
     dense_ := dense_ s;
     dimensions_ := dimensions_ s;
     dim_num_ := v;
     domain_ := domain_ s;
     tile_extents_ := tile_extents_ s;
     tile_order_ := tile_order_ s;
     types_ := types_ s |}.

Definition set_domain_ (v : ptr) (s : tiledb_array_schema_t) : tiledb_array_schema_t :=
  {| array_name_ := array_name_ s;
     attributes_ := attributes_ s;
     attribute_num_ := attribute_num_ s;
     capacity_ := capacity_ s;
     cell_order_ := cell_order_ s;
     cell_val_num_ := cell_val_num_ s;
     compressor_ := compressor_ s;
     dense_ := dense_ s;
     dimensions_ := dimensions_ s;
     dim_num_ := dim_num_ s;
     domain_ := v;
     tile_extents_ := tile_extents_ s;
     tile_order_ := tile_order_ s;
     types_ := types_ s |}.

Definition set_tile_extents_ (v : ptr) (s : tiledb_array_schema_t) : tiledb_array_schema_t :=
  {| array_name_ := array_name_ s;
     attributes_ := attributes_ s;
     attribute_num_ := attribute_num_ s;
     capacity_ := capacity_ s;
     cell_order_ := cell_order_ s;
     cell_val_num_ := cell_val_num_ s;
     compressor_ := compressor_ s;
     dense_ := dense_ s;
     dimensions_ := dimensions_ s;
     dim_num_ := dim_num_ s;
     domain_ := domain_ s;
     tile_extents_ := v;
     tile_order_ := tile_order_ s;
     types_ := types_ s |}.

Definition set_tile_order_ (v : Z) (s : tiledb_array_schema_t) : tiledb_array_schema_t :=
  {| array_name_ := array_name_ s;
     attributes_ := attributes_ s;
     attribute_num_ := attribute_num_ s;
     capacity_ := capacity_ s;
     cell_order_ := cell_order_ s;
     cell_val_num_ := cell_val_num_ s;
     compressor_ := compressor_ s;
     dense_ := dense_ s;
     dimensions_ := dimensions_ s;
     dim_num_ := dim_num_ s;
     domain_ := domain_ s;
     tile_extents_ := tile_extents_ s;
     tile_order_ := v;
     types_ := types_ s |}.

Definition set_types_ (v : ptr) (s : tiledb_array_schema_t) : tiledb_array_schema_t :=
  {| array_name_ := array_name_ s;
     attributes_ := attributes_ s;
     attribute_num_ := attribute_num_ s;
     capacity_ := capacity_ s;
     cell_order_ := cell_order_ s;
     cell_val_num_ := cell_val_num_ s;
     compressor_ := compressor_ s;
     dense_ := dense_ s;
     dimensions_ := dimensions_ s;
     dim_num_ := dim_num_ s;
     domain_ := domain_ s;
     tile_extents_ := tile_extents_ s;
     tile_order_ := tile_order_ s;
     types_ := v |}.

Definition set_metadata_name_ (v : ptr) (s : tiledb_metadata_schema_t) : tiledb_metadata_schema_t :=
  {| metadata_name_ := v;
     m_attributes_ := m_attributes_ s;
     m_attribute_num_ := m_attribute_num_ s;
     m_capacity_ := m_capacity_ s;
     m_cell_val_num_ := m_cell_val_num_ s;
     m_compressor_ := m_compressor_ s;
     m_types_ := m_types_ s |}.

Definition set_m_attributes_ (v : ptr) (s : tiledb_metadata_schema_t) : tiledb_metadata_schema_t :=
  {| metadata_name_ := metadata_name_ s;
     m_attributes_ := v;
     m_attribute_num_ := m_attribute_num_ s;
     m_capacity_ := m_capacity_ s;
     m_cell_val_num_ := m_cell_val_num_ s;
     m_compressor_ := m_compressor_ s;
     m_types_ := m_types_ s |}.

Definition set_m_attribute_num_ (v : Z) (s : tiledb_metadata_schema_t) : tiledb_metadata_schema_t :=
  {| metadata_name_ := metadata_name_ s;
     m_attributes_ := m_attributes_ s;
     m_attribute_num_ := v;
     m_capacity_ := m_capacity_ s;
     m_cell_val_num_ := m_cell_val_num_ s;
     m_compressor_ := m_compressor_ s;
     m_types_ := m_types_ s |}.

Definition set_m_capacity_ (v : Z) (s : tiledb_metadata_schema_t) : tiledb_metadata_schema_t :=
  {| metadata_name_ := metadata_name_ s;
     m_attributes_ := m_attributes_ s;
     m_attribute_num_ := m_attribute_num_ s;
     m_capacity_ := v;
     m_cell_val_num_ := m_cell_val_num_ s;
     m_compressor_ := m_compressor_ s;
     m_types_ := m_types_ s |}.

Definition set_m_cell_val_num_ (v : ptr) (s : tiledb_metadata_schema_t) : tiledb_metadata_schema_t :=
  {| metadata_name_ := metadata_name_ s;
     m_attributes_ := m_attributes_ s;
     m_attribute_num_ := m_attribute_num_ s;
     m_capacity_ := m_capacity_ s;
     m_cell_val_num_ := v;
     m_compressor_ := m_compressor_ s;
     m_types_ := m_types_ s |}.

Definition set_m_compressor_ (v : ptr) (s : tiledb_metadata_schema_t) : tiledb_metadata_schema_t :=
  {| metadata_name_ := metadata_name_ s;
     m_attributes_ := m_attributes_ s;
     m_attribute_num_ := m_attribute_num_ s;
     m_capacity_ := m_capacity_ s;
     m_cell_val_num_ := m_cell_val_num_ s;
     m_compressor_ := v;
     m_types_ := m_types_ s |}.

Definition set_m_types_ (v : ptr) (s : tiledb_metadata_schema_t) : tiledb_metadata_schema_t :=
  {| metadata_name_ := metadata_name_ s;
     m_attributes_ := m_attributes_ s;
     m_attribute_num_ := m_attribute_num_ s;
     m_capacity_ := m_capacity_ s;
     m_cell_val_num_ := m_cell_val_num_ s;
     m_compressor_ := m_compressor_ s;
     m_types_ := v |}.

Definition assign (sch : ptr) (f : tiledb_array_schema_t -> tiledb_array_schema_t)
    : M unit :=
  s <- load as_array_schema sch ;;
  store sch (BArraySchema (f s)).

Definition assign_m (sch : ptr)
    (f : tiledb_metadata_schema_t -> tiledb_metadata_schema_t) : M unit :=
  s <- load as_metadata_schema sch ;;
  store sch (BMetadataSchema (f s)).

(** [for (int i = 0; i < n; ++i) body]; the body yields [Some rc] when it
    executes [return rc]. *)
Fixpoint for_each (l : list nat) (body : nat -> M (option Z)) : M (option Z) :=
  match l with
  | [] => ret None
  | i :: l' =>
      r <- body i ;;
      if r is Some rc then ret (Some rc) else for_each l' body
  end.

Definition for_loop (n : Z) (body : nat -> M (option Z)) : M (option Z) :=
  for_each (seq 0 (Z.to_nat n)) body.

(** [a + b] on int; an overflow of a signed addition is undefined. *)
Definition int_add (a b : Z) : M Z :=
  if decide (INT_MIN <= a + b <= INT_MAX) then ret (a + b) else undefined.

(** malloc for [n] elements of an array.  A negative int converts to a
    size_t that no allocation can serve. *)
Definition malloc_array (n : Z) (mk : nat -> block) : M ptr :=
  if n <? 0
  then fun w => Some (NULL, {| w_heap := w_heap w; w_oom := tail (w_oom w);
                               w_engine := w_engine w |})
  else malloc (mk (Z.to_nat n)).

(** [l[i]] in an array of the caller. *)
Definition element {A} (l : list A) (i : nat) : M A :=
  if l !! i is Some x then ret x else undefined.

(** [arr[i] = p] and [arr[i] = v] in an allocated array. *)
Definition store_string_at (arr : ptr) (i : nat) (p : ptr) : M unit :=
  l <- load as_strings arr ;;
  if decide (i < length l)%nat then store arr (BStrings (<[i := p]> l))
  else undefined.

Definition store_int_at (arr : ptr) (i : nat) (v : Z) : M unit :=
  l <- load as_ints arr ;;
  if decide (i < length l)%nat then store arr (BInts (<[i := v]> l))
  else undefined.

(** memcpy(dst, src, n) *)
Definition memcpy (dst : ptr) (src : bytes) (n : Z) : M unit :=
  l <- load as_bytes dst ;;
  if decide (Z.to_nat n <= length l /\ Z.to_nat n <= length src)%nat
  then store dst (BBytes (take (Z.to_nat n) src ++ drop (Z.to_nat n) l))
  else undefined.

(** strlen(s) and strcpy need a string. *)
Definition the_string (s : cstr) : M string :=
  if s is Some x then ret x else undefined.

Definition tiledb_array_set_schema
    (ctx : ptr) (tiledb_array_schema : ptr) (array_name : cstr)
    (attributes : list string) (attribute_num : Z) (capacity : Z)
    (cell_order : Z) (cell_val_num : option (list Z))
    (compression : option (list Z)) (dense : Z) (dimensions : list string)
    (dim_num : Z) (domain : bytes) (domain_len : Z)
    (tile_extents : option bytes) (tile_extents_len : Z) (tile_order : Z)
    (types : list Z) : M Z :=
  let sch := tiledb_array_schema in
  sc <- sanity_check_ctx ctx ;;
  if negb (ok sc) then ret TILEDB_ERR
  else
  sc <- sanity_check_array_schema sch ;;
  failed <- save_error ctx sc ;;
  if failed then ret TILEDB_ERR
  else
  name <- the_string array_name ;;
  p <- malloc (BChars "") ;;
  assign sch (set_array_name_ p) ;;
  if p is None then ret TILEDB_OOM
  else
  store p (BChars name) ;;
  (* Set attributes and number of attributes *)
  assign sch (set_attribute_num_ attribute_num) ;;
  p <- malloc_array attribute_num (fun n => BStrings (replicate n NULL)) ;;
  assign sch (set_attributes_ p) ;;
  if p is None then ret TILEDB_OOM
  else
  r <- for_loop attribute_num (fun i =>
         a <- element attributes i ;;
         q <- malloc (BChars "") ;;
         store_string_at p i q ;;
         if q is None then ret (Some TILEDB_OOM)
         else store q (BChars a) ;; ret None) ;;
  if r is Some rc then ret rc
  else
  (* Set dimensions *)
  assign sch (set_dim_num_ dim_num) ;;
  p <- malloc_array dim_num (fun n => BStrings (replicate n NULL)) ;;
  assign sch (set_dimensions_ p) ;;
  if p is None then ret TILEDB_OOM
  else
  r <- for_loop dim_num (fun i =>
         d <- element dimensions i ;;
         q <- malloc (BChars "") ;;
         store_string_at p i q ;;
         if q is None then ret (Some TILEDB_OOM)
         else store q (BChars d) ;; ret None) ;;
  if r is Some rc then ret rc
  else
  (* Set dense *)
  assign sch (set_dense_ dense) ;;
  (* Set domain; the result of malloc is not tested *)
  p <- malloc_array domain_len (fun n => BBytes (replicate n 0)) ;;
  assign sch (set_domain_ p) ;;
  memcpy p domain domain_len ;;
  (* Set tile extents *)
  r <- match tile_extents with
       | None => assign sch (set_tile_extents_ NULL) ;; ret None
       | Some te =>
           p <- malloc_array tile_extents_len (fun n => BBytes (replicate n 0)) ;;
           assign sch (set_tile_extents_ p) ;;
           if p is None then ret (Some TILEDB_OOM)
           else memcpy p te tile_extents_len ;; ret None
       end ;;
  if r is Some rc then ret rc
  else
  (* Set types; [attribute_num + 1] is computed for the size and for the
     bound of the loop *)
  n <- int_add attribute_num 1 ;;
  p <- malloc_array n (fun n => BInts (replicate n 0)) ;;
  assign sch (set_types_ p) ;;
  if p is None then ret TILEDB_OOM
  else
  n <- int_add attribute_num 1 ;;
  for_loop n (fun i =>
    t <- element types i ;; store_int_at p i t ;; ret None) ;;
  (* Set cell val num *)
  r <- match cell_val_num with
       | None => assign sch (set_cell_val_num_ NULL) ;; ret None
       | Some cvn =>
           p <- malloc_array attribute_num (fun n => BInts (replicate n 0)) ;;
           assign sch (set_cell_val_num_ p) ;;
           if p is None then ret (Some TILEDB_OOM)
           else
             for_loop attribute_num (fun i =>
               v <- element cvn i ;; store_int_at p i v ;; ret None)
       end ;;
  if r is Some rc then ret rc
  else
  (* Set cell and tile order *)
  assign sch (set_cell_order_ cell_order) ;;
  assign sch (set_tile_order_ tile_order) ;;
  (* Set capacity *)
  assign sch (set_capacity_ capacity) ;;
  (* Set compression *)
  r <- match compression with
       | None => assign sch (set_compressor_ NULL) ;; ret None
       | Some cmp =>
           n <- int_add attribute_num 1 ;;
           p <- malloc_array n (fun n => BInts (replicate n 0)) ;;
           assign sch (set_compressor_ p) ;;
           if p is None then ret (Some TILEDB_OOM)
           else
             n <- int_add attribute_num 1 ;;
             for_loop n (fun i =>
               c <- element cmp i ;; store_int_at p i c ;; ret None)
       end ;;
  if r is Some rc then ret rc
  else ret TILEDB_OK.

(** [if (p != nullptr) free(p)] *)
Definition free_if_not_null (p : ptr) : M unit :=
  if p is None then ret tt else free p.

(** The strings of a char*[] and the array itself. *)
Definition free_strings (arr : ptr) (n : Z) : M unit :=
  if arr is None then ret tt
  else
    for_loop n (fun i =>
      l <- load as_strings arr ;;
      q <- element l i ;;
      free_if_not_null q ;;
      ret None) ;;
    free arr.

Definition tiledb_array_free_schema (tiledb_array_schema : ptr) : M Z :=
  if tiledb_array_schema is None then ret TILEDB_OK
  else
    s <- load as_array_schema tiledb_array_schema ;;
    free_if_not_null (array_name_ s) ;;
    free_strings (attributes_ s) (attribute_num_ s) ;;
    free_strings (dimensions_ s) (dim_num_ s) ;;
    free_if_not_null (domain_ s) ;;
    free_if_not_null (tile_extents_ s) ;;
    free_if_not_null (types_ s) ;;
    free_if_not_null (compressor_ s) ;;
    free_if_not_null (cell_val_num_ s) ;;
    ret TILEDB_OK.

Definition tiledb_metadata_set_schema
    (ctx : ptr) (tiledb_metadata_schema : ptr) (metadata_name : cstr)
    (attributes : list string) (attribute_num : Z) (capacity : Z)
    (cell_val_num : option (list Z)) (compression : option (list Z))
    (types : list Z) : M Z :=
  let sch := tiledb_metadata_schema in
  sc <- sanity_check_ctx ctx ;;
  if negb (ok sc) then ret TILEDB_ERR
  else
  sc <- sanity_check_metadata_schema sch ;;
  failed <- save_error ctx sc ;;
  if failed then ret TILEDB_ERR
  else
  name <- the_string metadata_name ;;
  p <- malloc (BChars "") ;;
  assign_m sch (set_metadata_name_ p) ;;
  if p is None then ret TILEDB_OOM
  else
  store p (BChars name) ;;
  (* Set attributes and number of attributes *)
  assign_m sch (set_m_attribute_num_ attribute_num) ;;
  p <- malloc_array attribute_num (fun n => BStrings (replicate n NULL)) ;;
  assign_m sch (set_m_attributes_ p) ;;
  if p is None then ret TILEDB_OOM
  else
  r <- for_loop attribute_num (fun i =>
         a <- element attributes i ;;
         q <- malloc (BChars "") ;;
         store_string_at p i q ;;
         if q is None then ret (Some TILEDB_OOM)
         else store q (BChars a) ;; ret None) ;;
  if r is Some rc then ret rc
  else
  (* Set types; [attribute_num + 1] is computed for the size and for the
     bound of the loop *)
  n <- int_add attribute_num 1 ;;
  p <- malloc_array n (fun n => BInts (replicate n 0)) ;;
  assign_m sch (set_m_types_ p) ;;
  if p is None then ret TILEDB_OOM
  else
  n <- int_add attribute_num 1 ;;
  for_loop n (fun i =>
    t <- element types i ;; store_int_at p i t ;; ret None) ;;
  (* Set cell val num *)
  r <- match cell_val_num with
       | None => assign_m sch (set_m_cell_val_num_ NULL) ;; ret None
       | Some cvn =>
           p <- malloc_array attribute_num (fun n => BInts (replicate n 0)) ;;
           assign_m sch (set_m_cell_val_num_ p) ;;
           if p is None then ret (Some TILEDB_OOM)
           else
             for_loop attribute_num (fun i =>
               v <- element cvn i ;; store_int_at p i v ;; ret None)
       end ;;
  if r is Some rc then ret rc
  else
  (* Set capacity *)
  assign_m sch (set_m_capacity_ capacity) ;;
  (* Set compression *)
  r <- match compression with
       | None => assign_m sch (set_m_compressor_ NULL) ;; ret None
       | Some cmp =>
           n <- int_add attribute_num 1 ;;
           p <- malloc_array n (fun n => BInts (replicate n 0)) ;;
           assign_m sch (set_m_compressor_ p) ;;
           if p is None then ret (Some TILEDB_OOM)
           else
             n <- int_add attribute_num 1 ;;
             for_loop n (fun i =>
               c <- element cmp i ;; store_int_at p i c ;; ret None)
       end ;;
  if r is Some rc then ret rc
  else ret TILEDB_OK.

Definition tiledb_metadata_free_schema (tiledb_metadata_schema : ptr) : M Z :=
  if tiledb_metadata_schema is None then ret TILEDB_OK
  else
    s <- load as_metadata_schema tiledb_metadata_schema ;;
    free_if_not_null (metadata_name_ s) ;;
    free_strings (m_attributes_ s) (m_attribute_num_ s) ;;
    free_if_not_null (m_types_ s) ;;
    free_if_not_null (m_compressor_ s) ;;
    free_if_not_null (m_cell_val_num_ s) ;;
    ret TILEDB_OK.

End C_API.

Arguments world : clear implicits.
Arguments M : clear implicits.

(** ** The read path of an array

    Modelled from the spec: class Array is not among the sources.  The spec
    (4.5, Backpressure) says: the iterator emits into caller-provided
    buffers; when any per-attribute buffer would be exceeded by the next
    cell, the iterator sets the per-attribute overflow flag, stops, and
    returns; the caller calls read again and the iterator resumes from its
    internal cursor.  Overflow is a normal outcome of read and not a
    failure (7). *)
Module ReadPath.

(** A cell of the result: one value per attribute. *)
Abbreviation cell := (list bytes).

Record array := {
  reading : bool;          (* opened in READ mode *)
  mode : Z;
  cursor : list cell;      (* the cells that no read has emitted yet, in cell order *)
  overflow : list bool     (* per attribute *)
}.

(** The open arrays, by object. *)
Abbreviation state := (gmap obj array).

(** The value of attribute [i] in a cell. *)
Definition value (c : cell) (i : nat) : bytes := default [] (c !! i).

(** The attributes whose buffer would be exceeded by the next cell. *)
Definition exceeded (caps : list Z) (bufs : list bytes) (c : cell) : list bool :=
  imap (fun i cap =>
          cap <? Z.of_nat (length (default [] (bufs !! i)) + length (value c i)))
       caps.

Definition append_cell (bufs : list bytes) (c : cell) : list bytes :=
  imap (fun i b => b ++ value c i) bufs.

(** Emit cells while the next one fits in every buffer. *)
Fixpoint emit (caps : list Z) (bufs : list bytes) (cells : list cell)
    : list bytes * list cell :=
  match cells with
  | [] => (bufs, [])
  | c :: rest =>
      if existsb id (exceeded caps bufs c) then (bufs, cells)
      else emit caps (append_cell bufs c) rest
  end.

Definition flags (caps : list Z) (bufs : list bytes) (rest : list cell) : list bool :=
  match rest with
  | [] => replicate (length caps) false
  | c :: _ => exceeded caps bufs c
  end.

(** Array::read: [buffer_sizes] holds the capacities on entry and the bytes
    written on return. *)
Definition read (a : array) (buffer_sizes : list Z)
    : (Status * (list bytes * list Z)) * array :=
  if reading a then
    let r := emit buffer_sizes (replicate (length buffer_sizes) []) (cursor a) in
    ((Status_Ok, (r.1, (fun b : bytes => Z.of_nat (length b)) <$> r.1)),
     {| reading := true; mode := mode a; cursor := r.2;
        overflow := flags buffer_sizes r.1 r.2 |})
  else
    ((Status_Error "Cannot read from array; Invalid mode", ([], buffer_sizes)), a).

Definition Array_read (o : obj) (buffers : list bytes) (buffer_sizes : list Z)
    (e : state) : (Status * (list bytes * list Z)) * state :=
  match e !! o with
  | Some a => let r := read a buffer_sizes in (r.1, <[o := r.2]> e)
  | None => ((Status_Error "Invalid array", (buffers, buffer_sizes)), e)
  end.

Definition Array_overflow (o : obj) (attribute_id : Z) (e : state) : bool :=
  match e !! o with
  | Some a =>
      if attribute_id <? 0 then false
      else default false (overflow a !! Z.to_nat attribute_id)
  | None => false
  end.

Definition Array_mode (o : obj) (e : state) : Z :=
  match e !! o with
  | Some a => mode a
  | None => 0
  end.

(** The number of cells that a read with these capacities emits, and the
    content of buffer [i] after cells. *)
Definition emitted (caps : list Z) (cells : list cell) : nat :=
  (length cells - length (emit caps (replicate (length caps) []) cells).2)%nat.

Definition packed (cells : list cell) (i : nat) : bytes :=
  concat ((fun c => value c i) <$> cells).

Definition buffers_of (caps : list Z) (cells : list cell) : list bytes :=
  imap (fun i _ => packed cells i) caps.

End ReadPath.

(** The engine whose arrays read as the spec describes.  Its other methods
    leave the state as it is; a method that returns a status returns the one
    that [verdict] gives for its name. *)
Definition read_engine (verdict : string -> Status) : Engine := {|
  State := ReadPath.state;
  Status_to_string st :=
    match st with
    | Status_Ok => "Ok"
    | Status_Error msg => String.app "Error: " msg
    end%string;
  object_code k :=
    match k with
    | TILEDB_WORKSPACE => 0
    | TILEDB_GROUP => 1
    | TILEDB_ARRAY => 2
    | TILEDB_METADATA => 3
    | TILEDB_NONE => 4
    end;
  Configurator_new e := (Some 0%nat, e);
  Configurator_delete _ e := e;
  Configurator_set_read_method _ _ e := e;
  Configurator_set_write_method _ _ e := e;
  StorageManager_new e := (0%nat, e);
  StorageManager_delete _ e := e;
  sm_init _ _ e := (verdict "init", e);
  sm_finalize _ e := (verdict "finalize", e);
  sm_group_create _ _ e := (verdict "group_create", e);
  sm_basic_array_create _ _ e := (verdict "basic_array_create", e);
  sm_array_create _ _ _ e := (verdict "array_create", e);
  sm_array_init _ _ _ _ _ _ e := ((verdict "array_init", Some 0%nat), e);
  sm_array_consolidate _ _ e := (verdict "array_consolidate", e);
  sm_array_finalize _ _ e := (verdict "array_finalize", e);
  sm_array_sync _ _ e := (verdict "array_sync", e);
  sm_array_sync_attribute _ _ _ e := (verdict "array_sync_attribute", e);
  sm_array_iterator_init _ _ _ _ _ _ _ _ e := ((verdict "array_iterator_init", Some 0%nat), e);
  sm_array_iterator_finalize _ _ e := (verdict "array_iterator_finalize", e);
  sm_metadata_create _ _ _ e := (verdict "metadata_create", e);
  sm_metadata_init _ _ _ _ _ e := ((verdict "metadata_init", Some 0%nat), e);
  sm_metadata_load_schema _ _ e := ((verdict "metadata_load_schema", Some 0%nat), e);
  sm_metadata_consolidate _ _ e := (verdict "metadata_consolidate", e);
  sm_metadata_finalize _ _ e := (verdict "metadata_finalize", e);
  sm_metadata_iterator_init _ _ _ _ _ _ e := ((verdict "metadata_iterator_init", Some 0%nat), e);
  sm_metadata_iterator_finalize _ _ e := (verdict "metadata_iterator_finalize", e);
  sm_dir_type _ _ _ := TILEDB_NONE;
  sm_clear _ _ e := (verdict "clear", e);
  sm_delete_entire _ _ e := (verdict "delete_entire", e);
  sm_move _ _ _ e := (verdict "move", e);
  sm_ls _ _ dirs dir_types dir_num e := ((verdict "ls", (dirs, dir_types, dir_num)), e);
  sm_ls_c _ _ dir_num e := ((verdict "ls_c", dir_num), e);
  Array_reset_subarray _ _ e := (verdict "reset_subarray", e);
  Array_reset_attributes _ _ _ e := (verdict "reset_attributes", e);
  Array_array_schema _ _ := Some 0%nat;
  Array_write _ _ _ e := (verdict "write", e);
  Array_read := ReadPath.Array_read;
  Array_overflow := ReadPath.Array_overflow;
  Array_mode := ReadPath.Array_mode;
  Array_aio_read _ _ _ e := (verdict "aio_read", e);
  Array_aio_write _ _ _ e := (verdict "aio_write", e);
  ArrayIterator_get_value _ _ e := ((verdict "get_value", ([], 0)), e);
  ArrayIterator_next _ e := (verdict "next", e);
  ArrayIterator_end _ _ := true;
  Metadata_reset_attributes _ _ _ e := (verdict "reset_attributes", e);
  Metadata_array_schema _ _ := Some 0%nat;
  Metadata_write _ _ _ _ _ e := (verdict "write", e);
  Metadata_read _ _ buffers buffer_sizes e := ((verdict "read", (buffers, buffer_sizes)), e);
  Metadata_overflow _ _ _ := false;
  MetadataIterator_get_value _ _ e := ((verdict "get_value", ([], 0)), e);
  MetadataIterator_next _ e := (verdict "next", e);
  MetadataIterator_end _ _ := true;
  ArraySchema_new e := (0%nat, e);
  ArraySchema_delete _ e := e;
  ArraySchema_load _ _ e := (verdict "load", e);
  ArraySchema_export _ _ _ :=
    ({| array_name_ := NULL; attributes_ := NULL; attribute_num_ := 0;
        capacity_ := 0; cell_order_ := 0; cell_val_num_ := NULL;
        compressor_ := NULL; dense_ := 0; dimensions_ := NULL; dim_num_ := 0;
        domain_ := NULL; tile_extents_ := NULL; tile_order_ := 0;
        types_ := NULL |}, []);
  ArraySchema_export_metadata _ _ _ :=
    ({| metadata_name_ := NULL; m_attributes_ := NULL; m_attribute_num_ := 0;
        m_capacity_ := 0; m_cell_val_num_ := NULL; m_compressor_ := NULL;
        m_types_ := NULL |}, [])
|}.

(** ** What the claims speak of *)

Section Notions.

Context {engine : Engine}.
Implicit Types (w : world engine) (a t out p : addr).

(** The last error that a context stores: [None] when no context is behind
    the pointer, [Some None] when the context stores no error. *)
Definition stored_error w (ctx : ptr) : option (option Status) :=
  last_error_ <$> deref as_ctx (w_heap w) ctx.

(** An initialised context at [a], with its storage manager. *)
Definition live_ctx w a (sm : obj) : Prop :=
  exists c, block_at (w_heap w) a = Some (BCtx c) /\ storage_manager_ c = Some sm.

Definition ctx_at w a : Prop :=
  exists c, block_at (w_heap w) a = Some (BCtx c).

(** Handles that pass their sanity check. *)
Definition array_at w t (arr : obj) (cx : addr) : Prop :=
  block_at (w_heap w) t = Some (BArray {| array_ := Some arr; ctx_ := Some cx |}).

Definition array_it_at w t (it : obj) (cx : addr) : Prop :=
  block_at (w_heap w) t =
    Some (BArrayIt {| array_it_ := Some it; array_it_ctx_ := Some cx |}).

Definition metadata_at w t (md : obj) (cx : addr) : Prop :=
  block_at (w_heap w) t =
    Some (BMetadata {| metadata_ := Some md; metadata_ctx_ := Some cx |}).

Definition metadata_it_at w t (it : obj) (cx : addr) : Prop :=
  block_at (w_heap w) t =
    Some (BMetadataIt {| metadata_it_ := Some it; metadata_it_ctx_ := Some cx |}).

(** A pointer variable of the caller, the target of a T** argument. *)
Definition ptr_at w out : Prop :=
  exists q, block_at (w_heap w) out = Some (BPtr q).

(** The coming call of malloc does not return the null pointer. *)
Definition malloc_succeeds w : Prop := head (w_oom w) <> Some true.

(** The return code of a function that also returns out-parameters. *)
Definition rc {A} (m : M engine (Z * A)) : M engine Z :=
  fun w => match m w with
           | Some (r, w') => Some (r.1, w')
           | None => None
           end.

(** The copy of the request at [r] that the AIO functions hand over. *)
Definition aio_copy (r : addr) (rq : TileDB_AIO_Request) (mode : Z) : AIO_Request :=
  {| aio_id_ := ptr_to_size_t (Some r);
     aio_buffers_ := rq_buffers_ rq;
     aio_buffer_sizes_ := rq_buffer_sizes_ rq;
     aio_mode_ := mode;
     aio_status_ := Some (StatusField r);
     aio_subarray_ := rq_subarray_ rq;
     aio_completion_handle_ := rq_completion_handle_ rq;
     aio_completion_data_ := rq_completion_data_ rq |}.

(** [dispatches w f cx st]: in the world [w] the call [f] of the C API goes
    through the context at [cx] to an operation of the engine, and that
    operation returns the status [st].  One rule per function of tiledb.cc
    that passes the status of an engine operation to save_error. *)
Inductive dispatches w : M engine Z -> addr -> Status -> Prop :=
| d_group_create a sm group :
    live_ctx w a sm ->
    dispatches w (tiledb_group_create (Some a) group) a
      (sm_group_create sm group (w_engine w)).1
| d_basic_array_create a sm name :
    live_ctx w a sm ->
    dispatches w (tiledb_basic_array_create (Some a) name) a
      (sm_basic_array_create sm name (w_engine w)).1
| d_array_create a sm p s :
    live_ctx w a sm ->
    block_at (w_heap w) p = Some (BArraySchema s) ->
    dispatches w (tiledb_array_create (Some a) (Some p)) a
      (sm_array_create sm s (w_heap w) (w_engine w)).1
| d_array_init a sm out array mode subarray attributes attribute_num :
    live_ctx w a sm -> ptr_at w out -> malloc_succeeds w ->
    dispatches w
      (tiledb_array_init (Some a) (Some out) array mode subarray attributes
         attribute_num) a
      (sm_array_init sm array mode subarray attributes attribute_num
         (w_engine w)).1.1
| d_array_reset_subarray t arr cx subarray :
    array_at w t arr cx -> ctx_at w cx ->
    dispatches w (tiledb_array_reset_subarray (Some t) subarray) cx
      (Array_reset_subarray arr subarray (w_engine w)).1
| d_array_reset_attributes t arr cx attributes attribute_num :
    array_at w t arr cx -> ctx_at w cx ->
    dispatches w (tiledb_array_reset_attributes (Some t) attributes attribute_num) cx
      (Array_reset_attributes arr attributes attribute_num (w_engine w)).1
| d_array_load_schema a sm array p s :
    live_ctx w a sm ->
    block_at (w_heap w) p = Some (BArraySchema s) ->
    dispatches w (tiledb_array_load_schema (Some a) array (Some p)) a
      (ArraySchema_load (ArraySchema_new (w_engine w)).1 array
         (ArraySchema_new (w_engine w)).2).1
| d_array_write t arr cx buffers buffer_sizes :
    array_at w t arr cx -> ctx_at w cx ->
    dispatches w (tiledb_array_write (Some t) buffers buffer_sizes) cx
      (Array_write arr buffers buffer_sizes (w_engine w)).1
| d_array_read t arr cx buffers buffer_sizes :
    array_at w t arr cx -> ctx_at w cx ->
    dispatches w (rc (tiledb_array_read (Some t) buffers buffer_sizes)) cx
      (Array_read arr buffers buffer_sizes (w_engine w)).1.1
| d_array_consolidate a sm array :
    live_ctx w a sm ->
    dispatches w (tiledb_array_consolidate (Some a) array) a
      (sm_array_consolidate sm array (w_engine w)).1
| d_array_finalize t arr cx sm :
    array_at w t arr cx -> live_ctx w cx sm ->
    dispatches w (tiledb_array_finalize (Some t)) cx
      (sm_array_finalize sm (Some arr) (w_engine w)).1
| d_array_sync t arr cx sm :
    array_at w t arr cx -> live_ctx w cx sm ->
    dispatches w (tiledb_array_sync (Some t)) cx
      (sm_array_sync sm (Some arr) (w_engine w)).1
| d_array_sync_attribute t arr cx sm attribute :
    array_at w t arr cx -> live_ctx w cx sm ->
    dispatches w (tiledb_array_sync_attribute (Some t) attribute) cx
      (sm_array_sync_attribute sm (Some arr) attribute (w_engine w)).1
| d_array_iterator_init a sm out array mode subarray attributes attribute_num
    buffers buffer_sizes :
    live_ctx w a sm -> ptr_at w out -> malloc_succeeds w ->
    dispatches w
      (tiledb_array_iterator_init (Some a) (Some out) array mode subarray
         attributes attribute_num buffers buffer_sizes) a
      (sm_array_iterator_init sm array mode subarray attributes attribute_num
         buffers buffer_sizes (w_engine w)).1.1
| d_array_iterator_get_value t it cx attribute_id value value_size :
    array_it_at w t it cx -> ctx_at w cx ->
    dispatches w
      (rc (tiledb_array_iterator_get_value (Some t) attribute_id value value_size))
      cx (ArrayIterator_get_value it attribute_id (w_engine w)).1.1
| d_array_iterator_next t it cx :
    array_it_at w t it cx -> ctx_at w cx ->
    dispatches w (tiledb_array_iterator_next (Some t)) cx
      (ArrayIterator_next it (w_engine w)).1
| d_array_iterator_finalize t it cx sm :
    array_it_at w t it cx -> live_ctx w cx sm ->
    dispatches w (tiledb_array_iterator_finalize (Some t)) cx
      (sm_array_iterator_finalize sm (Some it) (w_engine w)).1
| d_metadata_create a sm p s :
    live_ctx w a sm ->
    block_at (w_heap w) p = Some (BMetadataSchema s) ->
    dispatches w (tiledb_metadata_create (Some a) (Some p)) a
      (sm_metadata_create sm s (w_heap w) (w_engine w)).1
| d_metadata_init a sm out metadata mode attributes attribute_num :
    live_ctx w a sm -> ptr_at w out -> malloc_succeeds w ->
    dispatches w
      (tiledb_metadata_init (Some a) (Some out) metadata mode attributes
         attribute_num) a
      (sm_metadata_init sm metadata mode attributes attribute_num (w_engine w)).1.1
| d_metadata_reset_attributes t md cx attributes attribute_num :
    metadata_at w t md cx -> ctx_at w cx ->
    dispatches w
      (tiledb_metadata_reset_attributes (Some t) attributes attribute_num) cx
      (Metadata_reset_attributes md attributes attribute_num (w_engine w)).1
| d_metadata_load_schema a sm metadata p s :
    live_ctx w a sm ->
    block_at (w_heap w) p = Some (BMetadataSchema s) ->
    (* a loaded schema is an object *)
    (ok (sm_metadata_load_schema sm metadata (w_engine w)).1.1 = true ->
     is_Some (sm_metadata_load_schema sm metadata (w_engine w)).1.2) ->
    dispatches w (tiledb_metadata_load_schema (Some a) metadata (Some p)) a
      (sm_metadata_load_schema sm metadata (w_engine w)).1.1
| d_metadata_write t md cx keys keys_size buffers buffer_sizes :
    metadata_at w t md cx -> ctx_at w cx ->
    dispatches w
      (tiledb_metadata_write (Some t) keys keys_size buffers buffer_sizes) cx
      (Metadata_write md keys keys_size buffers buffer_sizes (w_engine w)).1
| d_metadata_read t md cx key buffers buffer_sizes :
    metadata_at w t md cx -> ctx_at w cx ->
    dispatches w (rc (tiledb_metadata_read (Some t) key buffers buffer_sizes)) cx
      (Metadata_read md key buffers buffer_sizes (w_engine w)).1.1
| d_metadata_consolidate a sm metadata :
    live_ctx w a sm ->
    dispatches w (tiledb_metadata_consolidate (Some a) metadata) a
      (sm_metadata_consolidate sm metadata (w_engine w)).1
| d_metadata_finalize t md cx sm :
    metadata_at w t md cx -> live_ctx w cx sm ->
    dispatches w (tiledb_metadata_finalize (Some t)) cx
      (sm_metadata_finalize sm (Some md) (w_engine w)).1
| d_metadata_iterator_init a sm out metadata attributes attribute_num buffers
    buffer_sizes :
    live_ctx w a sm -> ptr_at w out -> malloc_succeeds w ->
    dispatches w
      (tiledb_metadata_iterator_init (Some a) (Some out) metadata attributes
         attribute_num buffers buffer_sizes) a
      (sm_metadata_iterator_init sm metadata attributes attribute_num buffers
         buffer_sizes (w_engine w)).1.1
| d_metadata_iterator_get_value t it cx attribute_id value value_size :
    metadata_it_at w t it cx -> ctx_at w cx ->
    dispatches w
      (rc (tiledb_metadata_iterator_get_value (Some t) attribute_id value
             value_size)) cx
      (MetadataIterator_get_value it attribute_id (w_engine w)).1.1
| d_metadata_iterator_next t it cx :
    metadata_it_at w t it cx -> ctx_at w cx ->
    dispatches w (tiledb_metadata_iterator_next (Some t)) cx
      (MetadataIterator_next it (w_engine w)).1
| d_metadata_iterator_finalize t it cx sm :
    metadata_it_at w t it cx -> live_ctx w cx sm ->
    dispatches w (tiledb_metadata_iterator_finalize (Some t)) cx
      (sm_metadata_iterator_finalize sm (Some it) (w_engine w)).1
| d_clear a sm dir :
    live_ctx w a sm ->
    dispatches w (tiledb_clear (Some a) (Some dir)) a
      (sm_clear sm (Some dir) (w_engine w)).1
| d_delete a sm dir :
    live_ctx w a sm ->
    dispatches w (tiledb_delete (Some a) dir) a
      (sm_delete_entire sm dir (w_engine w)).1
| d_move a sm old_dir new_dir :
    live_ctx w a sm ->
    dispatches w (tiledb_move (Some a) old_dir new_dir) a
      (sm_move sm old_dir new_dir (w_engine w)).1
| d_ls a sm parent_dir dirs dir_types dir_num :
    live_ctx w a sm ->
    dispatches w (rc (tiledb_ls (Some a) parent_dir dirs dir_types (Some dir_num))) a
      (sm_ls sm parent_dir dirs dir_types dir_num (w_engine w)).1.1
| d_ls_c a sm parent_dir dir_num :
    live_ctx w a sm ->
    dispatches w (rc (tiledb_ls_c (Some a) parent_dir (Some dir_num))) a
      (sm_ls_c sm parent_dir dir_num (w_engine w)).1.1
| d_array_aio_read t arr cx r rq :
    array_at w t arr cx -> ctx_at w cx ->
    block_at (w_heap w) r = Some (BRequest rq) -> malloc_succeeds w ->
    dispatches w (tiledb_array_aio_read (Some t) (Some r)) cx
      (Array_aio_read arr (Some (length (w_heap w)))
         (w_heap w ++ [Some (BAIO (aio_copy r rq (Array_mode arr (w_engine w))))])
         (w_engine w)).1
| d_array_aio_write t arr cx r rq :
    array_at w t arr cx -> ctx_at w cx ->
    block_at (w_heap w) r = Some (BRequest rq) -> malloc_succeeds w ->
    dispatches w (tiledb_array_aio_write (Some t) (Some r)) cx
      (Array_aio_write arr (Some (length (w_heap w)))
         (w_heap w ++ [Some (BAIO (aio_copy r rq (Array_mode arr (w_engine w))))])
         (w_engine w)).1.

(** What the claim says of a call that dispatches to an operation returning
    [st]: the call returns; on a failure status it returns TILEDB_ERR and the
    context stores exactly [st]; on a success status the stored error is the
    one from before. *)
Definition reported w (f : M engine Z) (cx : addr) (st : Status) : Prop :=
  match f w with
  | Some (code, w') =>
      if ok st then stored_error w' (Some cx) = stored_error w (Some cx)
      else code = TILEDB_ERR /\ stored_error w' (Some cx) = Some (Some st)
  | None => False
  end.

(** The configuration argument of tiledb_ctx_init: null, or a config
    struct, whose configurator is handed to the storage manager. *)
Definition config_arg w (tiledb_config : ptr) (config : option obj) : Prop :=
  (tiledb_config = NULL /\ config = None) \/
  exists c k, tiledb_config = Some c /\ block_at (w_heap w) c = Some (BConfig k) /\
              config = config_ k.

(** The world after a malloc that failed and the store of the null pointer
    into the pointer variable of the caller. *)
Definition after_failed_malloc w (out : addr) (rest : list bool) : world engine :=
  {| w_heap := <[out := Some (BPtr NULL)]> (w_heap w);
     w_oom := rest;
     w_engine := w_engine w |}.

(** The status of StorageManager::finalize in tiledb_ctx_finalize; without
    a storage manager it is the status that the function starts with. *)
Definition finalize_status w (c : tiledb_ctx_t) : Status :=
  match storage_manager_ c with
  | Some sm => (sm_finalize sm (w_engine w)).1
  | None => Status_Ok
  end.

(** An array handle that fails the sanity check of the array functions. *)
Definition invalid_array w (tiledb_array : ptr) : Prop :=
  tiledb_array = NULL \/
  exists t x, tiledb_array = Some t /\ block_at (w_heap w) t = Some (BArray x) /\
              (array_ x = None \/ ctx_ x = NULL).

(** The heap during tiledb_array_set_schema: the heap [h0] from before the
    call with the struct at [sch] assigned, followed by the new blocks. *)
Definition shape (h0 : heap) (sch : addr) (s : tiledb_array_schema_t)
    (new : heap) : heap :=
  <[sch := Some (BArraySchema s)]> h0 ++ new.

(** The strings behind a char*[]. *)
Definition strings_at (h : heap) (p : ptr) : option (list string) :=
  l ← deref as_strings h p; mapM (deref as_chars h) l.

(** A pointer to a block that did not exist in the world [w]. *)
Definition fresh_in w (p : ptr) : Prop :=
  exists a, p = Some a /\ (length (w_heap w) <= a)%nat.

End Notions.

(** ** What the further properties speak of *)

Section FurtherNotions.

Context {engine : Engine}.
Implicit Types (w : world engine) (a t out p : addr).

(** A context that fails the sanity check of the functions that take one. *)
Definition invalid_ctx w (ctx : ptr) : Prop :=
  ctx = NULL \/
  exists a c, ctx = Some a /\ block_at (w_heap w) a = Some (BCtx c) /\
              storage_manager_ c = None.

(** Handles that fail the sanity check of their functions. *)
Definition invalid_array_it w (tiledb_array_it : ptr) : Prop :=
  tiledb_array_it = NULL \/
  exists t x, tiledb_array_it = Some t /\ block_at (w_heap w) t = Some (BArrayIt x) /\
              (array_it_ x = None \/ array_it_ctx_ x = NULL).

Definition invalid_metadata w (tiledb_metadata : ptr) : Prop :=
  tiledb_metadata = NULL \/
  exists t x, tiledb_metadata = Some t /\ block_at (w_heap w) t = Some (BMetadata x) /\
              (metadata_ x = None \/ metadata_ctx_ x = NULL).

Definition invalid_metadata_it w (tiledb_metadata_it : ptr) : Prop :=
  tiledb_metadata_it = NULL \/
  exists t x, tiledb_metadata_it = Some t /\
              block_at (w_heap w) t = Some (BMetadataIt x) /\
              (metadata_it_ x = None \/ metadata_it_ctx_ x = NULL).

End FurtherNotions.

(** No coming call of malloc fails. *)
Definition never_oom (oom : list bool) : Prop := Forall (fun b => b = false) oom.

(** An array that is copied only when the argument is not null: its block,
    the pointer that the struct gets, and the number of blocks it takes. *)
Definition optional_block {A} (mk : A -> block) (o : option A) : heap :=
  match o with
  | Some x => [Some (mk x)]
  | None => []
  end.

Definition optional_ptr {A} (o : option A) (a : addr) : ptr :=
  match o with
  | Some _ => Some a
  | None => NULL
  end.

Definition optional_size {A} (o : option A) : nat :=
  match o with
  | Some _ => 1
  | None => 0
  end.

(** The blocks that the copy of an array of strings takes: the char*[] at
    [base], and behind it one char[] per string. *)
Definition string_array_blocks (base : addr) (strs : list string) : heap :=
  Some (BStrings (Some <$> seq (S base) (length strs)))
    :: ((fun s => Some (BChars s)) <$> strs).

(** The blocks that tiledb_array_set_schema allocates, in the order of the
    allocations and with the contents that they have on return, when the
    first one gets the address [L]. *)
Definition array_schema_blocks (L : addr) (name : string) (attrs dims : list string)
    (dom : bytes) (te : option bytes) (types : list Z)
    (cvn cmp : option (list Z)) : heap :=
  Some (BChars name) ::
  string_array_blocks (L + 1) attrs ++
  string_array_blocks (L + 2 + length attrs) dims ++
  Some (BBytes dom) ::
  optional_block BBytes te ++
  Some (BInts types) ::
  optional_block BInts cvn ++
  optional_block BInts cmp.

(** The struct on return from tiledb_array_set_schema: the addresses of the
    blocks above, and the scalar arguments. *)
Definition array_schema_copy (L : addr) (attrs dims : list string)
    (te : option bytes) (cvn cmp : option (list Z))
    (attribute_num capacity cell_order dense dim_num tile_order : Z)
    : tiledb_array_schema_t :=
  let n := length attrs in
  let d := length dims in
  {| array_name_ := Some L;
     attributes_ := Some (L + 1)%nat;
     attribute_num_ := attribute_num;
     capacity_ := capacity;
     cell_order_ := cell_order;
     cell_val_num_ := optional_ptr cvn (L + 5 + n + d + optional_size te)%nat;
     compressor_ :=
       optional_ptr cmp (L + 5 + n + d + optional_size te + optional_size cvn)%nat;
     dense_ := dense;
     dimensions_ := Some (L + 2 + n)%nat;
     dim_num_ := dim_num;
     domain_ := Some (L + 3 + n + d)%nat;
     tile_extents_ := optional_ptr te (L + 4 + n + d)%nat;
     tile_order_ := tile_order;
     types_ := Some (L + 4 + n + d + optional_size te)%nat |}.

(** The arguments of tiledb_array_set_schema fit: the counts are not
    negative, [attribute_num + 1] is an int, and every array holds at least
    the entries that the call reads. *)
Definition schema_args_fit (attributes : list string) (attribute_num : Z)
    (cell_val_num compression : option (list Z)) (dimensions : list string)
    (dim_num : Z) (domain : bytes) (domain_len : Z) (tile_extents : option bytes)
    (tile_extents_len : Z) (types : list Z) : Prop :=
  0 <= attribute_num /\ (Z.to_nat attribute_num <= length attributes)%nat /\
  0 <= dim_num /\ (Z.to_nat dim_num <= length dimensions)%nat /\
  0 <= domain_len /\ (Z.to_nat domain_len <= length domain)%nat /\
  (forall te, tile_extents = Some te ->
     0 <= tile_extents_len /\ (Z.to_nat tile_extents_len <= length te)%nat) /\
  (Z.to_nat (attribute_num + 1) <= length types)%nat /\
  (forall c, cell_val_num = Some c -> (Z.to_nat attribute_num <= length c)%nat) /\
  (forall c, compression = Some c -> (Z.to_nat (attribute_num + 1) <= length c)%nat) /\
  attribute_num + 1 <= INT_MAX /\ dim_num <= INT_MAX.

(** The same for tiledb_metadata_set_schema. *)
Definition metadata_schema_blocks (L : addr) (name : string) (attrs : list string)
    (types : list Z) (cvn cmp : option (list Z)) : heap :=
  Some (BChars name) ::
  string_array_blocks (L + 1) attrs ++
  Some (BInts types) ::
  optional_block BInts cvn ++
  optional_block BInts cmp.

Definition metadata_schema_copy (L : addr) (attrs : list string)
    (cvn cmp : option (list Z)) (attribute_num capacity : Z)
    : tiledb_metadata_schema_t :=
  let n := length attrs in
  {| metadata_name_ := Some L;
     m_attributes_ := Some (L + 1)%nat;
     m_attribute_num_ := attribute_num;
     m_capacity_ := capacity;
     m_cell_val_num_ := optional_ptr cvn (L + 3 + n)%nat;
     m_compressor_ := optional_ptr cmp (L + 3 + n + optional_size cvn)%nat;
     m_types_ := Some (L + 2 + n)%nat |}.

Definition metadata_args_fit (attributes : list string) (attribute_num : Z)
    (cell_val_num compression : option (list Z)) (types : list Z) : Prop :=
  0 <= attribute_num /\ (Z.to_nat attribute_num <= length attributes)%nat /\
  (Z.to_nat (attribute_num + 1) <= length types)%nat /\
  (forall c, cell_val_num = Some c -> (Z.to_nat attribute_num <= length c)%nat) /\
  (forall c, compression = Some c -> (Z.to_nat (attribute_num + 1) <= length c)%nat) /\
  attribute_num + 1 <= INT_MAX.

(** The open array behind an engine object. *)
Definition open_array verdict (w : world (read_engine verdict)) (arr : obj)
    (a : ReadPath.array) : Prop :=
  (w_engine w : gmap obj ReadPath.array) !! arr = Some a.

(** ** Sample worlds *)

(** The verdicts of an engine whose finalize and group_create fail. *)
Definition sample_verdict (method : string) : Status :=
  if bool_decide (method = "finalize") then Status_Error "finalize failed"
  else if bool_decide (method = "group_create") then Status_Error "group exists"
  else Status_Ok.

Definition sample_request : TileDB_AIO_Request :=
  {| rq_buffers_ := Some 40%nat; rq_buffer_sizes_ := Some 41%nat;
     rq_subarray_ := NULL; rq_completion_handle_ := Some 42%nat;
     rq_completion_data_ := Some 43%nat; rq_status_ := 0 |}.

Definition blank_schema : tiledb_array_schema_t :=
  {| array_name_ := NULL; attributes_ := NULL; attribute_num_ := 0;
     capacity_ := 0; cell_order_ := 0; cell_val_num_ := NULL;
     compressor_ := NULL; dense_ := 0; dimensions_ := NULL; dim_num_ := 0;
     domain_ := NULL; tile_extents_ := NULL; tile_order_ := 0; types_ := NULL |}.

(** A context at 0, an array handle at 1, a pointer variable at 2, an AIO
    request at 3, a schema struct at 4, a handle without array at 5. *)
Definition sample_heap : heap :=
  [ Some (BCtx {| storage_manager_ := Some 0%nat; last_error_ := None |});
    Some (BArray {| array_ := Some 7%nat; ctx_ := Some 0%nat |});
    Some (BPtr NULL);
    Some (BRequest sample_request);
    Some (BArraySchema blank_schema);
    Some (BArray {| array_ := None; ctx_ := Some 0%nat |}) ].

(** The array 7, open for reading, with three cells of one attribute left. *)
Definition sample_array : ReadPath.array :=
  {| ReadPath.reading := true; ReadPath.mode := 0;
     ReadPath.cursor := [[[10; 0; 0; 0]]; [[99; 0; 0; 0]]; [[12; 0; 0; 0]]];
     ReadPath.overflow := [false] |}.

Definition sample_world (oom : list bool) : world (read_engine sample_verdict) :=
  @Build_world (read_engine sample_verdict) sample_heap oom
    ({[ 7%nat := sample_array ]} : gmap obj ReadPath.array).

(** ** Sample worlds for the further properties *)

(** Engines whose operations all succeed, and all fail. *)
Definition passing (method : string) : Status := Status_Ok.
Definition failing (method : string) : Status := Status_Error method.

Definition blank_metadata_schema : tiledb_metadata_schema_t :=
  {| metadata_name_ := NULL; m_attributes_ := NULL; m_attribute_num_ := 0;
     m_capacity_ := 0; m_cell_val_num_ := NULL; m_compressor_ := NULL;
     m_types_ := NULL |}.

(** A context that stores an error at 0, a context without storage manager
    at 1, a pointer variable at 2, the four kinds of handle at 3 to 6,
    handles that fail their sanity check at 7 to 9, a config struct without
    configurator at 10, an error object at 11, an array schema struct at 12,
    a metadata schema struct at 13. *)
Definition handles_heap : heap :=
  [ Some (BCtx {| storage_manager_ := Some 0%nat;
                  last_error_ := Some (Status_Error "earlier") |});
    Some (BCtx {| storage_manager_ := None; last_error_ := None |});
    Some (BPtr NULL);
    Some (BArray {| array_ := Some 1%nat; ctx_ := Some 0%nat |});
    Some (BArrayIt {| array_it_ := Some 2%nat; array_it_ctx_ := Some 0%nat |});
    Some (BMetadata {| metadata_ := Some 3%nat; metadata_ctx_ := Some 0%nat |});
    Some (BMetadataIt {| metadata_it_ := Some 4%nat;
                         metadata_it_ctx_ := Some 0%nat |});
    Some (BArrayIt {| array_it_ := None; array_it_ctx_ := Some 0%nat |});
    Some (BMetadata {| metadata_ := Some 3%nat; metadata_ctx_ := NULL |});
    Some (BMetadataIt {| metadata_it_ := None; metadata_it_ctx_ := NULL |});
    Some (BConfig {| config_ := None |});
    Some (BError {| status_ := Some (Status_Error "earlier") |});
    Some (BArraySchema blank_schema);
    Some (BMetadataSchema blank_metadata_schema) ].

Definition handles_world (verdict : string -> Status) (oom : list bool)
    : world (read_engine verdict) :=
  @Build_world (read_engine verdict) handles_heap oom
    (∅ : gmap obj ReadPath.array).


(** * Proofs *)

(** ** The heap *)

Section HeapFacts.

Context {engine : Engine}.
Implicit Types (w : world engine) (h : heap) (a t : addr).

Lemma block_at_lt h a b : block_at h a = Some b -> (a < length h)%nat.
Proof.
  unfold block_at. destruct (h !! a) eqn:E; [|done].
  intros _. by eapply lookup_lt_Some.
Qed.

Lemma block_at_insert_eq h a b :
  (a < length h)%nat -> block_at (<[a := Some b]> h) a = Some b.
Proof. intros H. unfold block_at. by rewrite list_lookup_insert_eq. Qed.

Lemma block_at_insert_ne h a a' x :
  a <> a' -> block_at (<[a := x]> h) a' = block_at h a'.
Proof. intros H. unfold block_at. by rewrite list_lookup_insert_ne. Qed.

Lemma block_at_app_l h l a :
  (a < length h)%nat -> block_at (h ++ l) a = block_at h a.
Proof. intros H. unfold block_at. by rewrite lookup_app_l. Qed.

Lemma block_at_app_new h b l : block_at (h ++ Some b :: l) (length h) = Some b.
Proof. unfold block_at. by rewrite list_lookup_middle. Qed.

Lemma insert_new {A} (l : list A) (x y : A) :
  <[length l := x]> (l ++ [y]) = l ++ [x].
Proof. induction l as [|z l IH]; cbn; [done|]. f_equal. exact IH. Qed.

Lemma malloc_ok w b :
  malloc_succeeds w ->
  malloc b w = Some (Some (length (w_heap w)),
                     {| w_heap := w_heap w ++ [Some b]; w_oom := tail (w_oom w);
                        w_engine := w_engine w |}).
Proof.
  unfold malloc_succeeds, malloc. destruct (w_oom w) as [|[] ?]; cbn; congruence.
Qed.

Lemma malloc_fails w b rest :
  w_oom w = true :: rest ->
  malloc b w = Some (NULL, {| w_heap := w_heap w; w_oom := rest;
                              w_engine := w_engine w |}).
Proof. intros H. unfold malloc. by rewrite H. Qed.

End HeapFacts.

(** Symbolic execution of the C functions on a world whose blocks are known
    from the hypotheses. *)
Ltac solve_lt :=
  rewrite ?length_insert, ?length_app; cbn [length];
  first [ eapply block_at_lt; eassumption
        | match goal with
          | H : block_at _ _ = Some _ |- _ => apply block_at_lt in H; lia
          end
        | lia ].

Ltac solve_ne :=
  let E := fresh in
  intros E; subst;
  first [ congruence
        | match goal with
          | H : block_at ?h (length ?h) = Some _ |- _ => apply block_at_lt in H; lia
          end ].

Ltac heap_step :=
  match goal with
  | H : block_at ?h ?a = Some _ |- context [block_at ?h ?a] => rewrite H
  | H : storage_manager_ ?c = _ |- context [storage_manager_ ?c] => rewrite H
  | |- context [block_at (<[?a := Some ?b]> ?h) ?a] =>
      rewrite (@block_at_insert_eq h a b) by solve_lt
  | |- context [block_at (<[?a := ?x]> ?h) ?a'] =>
      rewrite (@block_at_insert_ne h a a' x) by solve_ne
  | |- context [block_at (?h ++ Some ?b :: ?l) (length ?h)] =>
      rewrite (@block_at_app_new h b l)
  | |- context [block_at (?h ++ ?l) ?a] =>
      rewrite (@block_at_app_l h l a) by solve_lt
  | H : malloc_succeeds ?w |- context [malloc ?b ?w] =>
      rewrite (@malloc_ok _ w b H)
  | H : w_oom ?w = true :: ?rest |- context [malloc ?b ?w] =>
      rewrite (@malloc_fails _ w b rest H)
  | |- context [<[length ?l := ?x]> (?l ++ [?y])] => rewrite (@insert_new _ l x y)
  end.

Ltac engine_step :=
  match goal with
  | |- context [let '(_, _) := ?op in _] => destruct op eqn:?
  | |- context [match ?op with (_, _) => _ end] => destruct op eqn:?
  end.

Ltac exec := repeat (cbn || heap_step || engine_step).

Ltac open_facts :=
  repeat match goal with
  | H : live_ctx _ _ _ |- _ => destruct H as (? & ? & ?)
  | H : ctx_at _ _ |- _ => destruct H as (? & ?)
  | H : ptr_at _ _ |- _ => destruct H as (? & ?)
  end;
  unfold array_at, array_it_at, metadata_at, metadata_it_at in *.

Ltac unfold_api :=
  unfold tiledb_config_free, tiledb_ctx_init, tiledb_ctx_finalize,
    tiledb_error_last, tiledb_error_message, tiledb_error_free,
    tiledb_group_create, tiledb_basic_array_create, tiledb_array_create,
    tiledb_array_init, tiledb_array_reset_subarray, tiledb_array_reset_attributes,
    tiledb_array_get_schema, tiledb_array_load_schema, tiledb_array_free_schema,
    tiledb_array_write, tiledb_array_read, tiledb_array_overflow,
    tiledb_array_consolidate, tiledb_array_finalize, tiledb_array_sync,
    tiledb_array_sync_attribute, tiledb_array_iterator_init,
    tiledb_array_iterator_get_value, tiledb_array_iterator_next,
    tiledb_array_iterator_finalize, tiledb_metadata_create, tiledb_metadata_init,
    tiledb_metadata_reset_attributes, tiledb_metadata_load_schema,
    tiledb_metadata_free_schema,
    tiledb_metadata_write, tiledb_metadata_read, tiledb_metadata_consolidate,
    tiledb_metadata_finalize, tiledb_metadata_iterator_init,
    tiledb_metadata_iterator_get_value, tiledb_metadata_iterator_next,
    tiledb_metadata_iterator_finalize, tiledb_dir_type, tiledb_clear,
    tiledb_delete, tiledb_move,
    tiledb_ls, tiledb_ls_c, tiledb_array_aio_read, tiledb_array_aio_write,
    copy_aio_request, aio_copy, status_field, rc,
    sanity_check_ctx, sanity_check_array, sanity_check_array_it,
    sanity_check_metadata, sanity_check_metadata_it,
    sanity_check_array_schema, sanity_check_metadata_schema,
    the_storage_manager, the_object, save_error,
    bind, load, store, free, call, call_, call_heap, query, export, ret, undefined,
    deref, stored_error in *.

Ltac split_ok :=
  match goal with
  | |- context [ok ?s] => destruct (ok s) eqn:?
  end.

Section Claims.

Context {engine : Engine}.
Implicit Types (w : world engine) (h : heap) (a t : addr).

(** ** The last error of a context *)

Lemma dispatches_reported w f cx st :
  dispatches w f cx st -> reported w f cx st.
Proof.
  intros H. unfold reported.
  destruct H; open_facts; unfold_api; exec.
  all: try (split_ok; exec; try done).
  all: try (match goal with
            | H : ?P -> is_Some ?o, H' : ok _ = true |- _ =>
                let E := fresh in
                destruct H as [? E]; [exact H'|]; cbn in E; rewrite E
            end; exec; try done).
Qed.

Lemma ctx_init_reported w out tiledb_config config :
  ptr_at w out -> malloc_succeeds w -> config_arg w tiledb_config config ->
  let sm := StorageManager_new (w_engine w) in
  let st := (sm_init sm.1 config sm.2).1 in
  exists w',
    tiledb_ctx_init (Some out) tiledb_config w =
      Some (if ok st then TILEDB_OK else TILEDB_ERR, w') /\
    stored_error w' (Some (length (w_heap w))) =
      Some (if ok st then None else Some st).
Proof.
  intros Hout Hm Hc. open_facts.
  destruct Hc as [[-> ->]|(c & k & -> & Hk & ->)]; unfold_api; exec;
    split_ok; exec; (eexists; split; [reflexivity|]); by exec.
Qed.

Lemma error_last_null w ctx :
  ctx = NULL \/ stored_error w ctx = Some None ->
  tiledb_error_last ctx w = Some (NULL, w).
Proof.
  intros [->|H]; [done|]. destruct ctx as [a|]; [|done].
  unfold stored_error in H. cbn in H. unfold_api.
  destruct (block_at (w_heap w) a) as [[]|]; try done. cbn in *.
  by destruct (last_error_ _).
Qed.

Lemma error_last_copy w ctx st :
  stored_error w ctx = Some (Some st) -> malloc_succeeds w ->
  exists e w',
    tiledb_error_last ctx w = Some (Some e, w') /\
    deref as_error (w_heap w') (Some e) = Some {| status_ := Some st |}.
Proof.
  intros H Hm. destruct ctx as [a|]; [|done].
  unfold stored_error in H. cbn in H. unfold_api.
  destruct (block_at (w_heap w) a) as [[]|]; try done. cbn in *.
  destruct (last_error_ _) as [st'|]; [|done]. injection H as ->. exec.
  eexists _, _. split; [reflexivity|]. by exec.
Qed.

Lemma error_message_spec w :
  tiledb_error_message NULL w = Some (Literal "", w) /\
  forall e st,
    block_at (w_heap w) e = Some (BError {| status_ := Some st |}) ->
    tiledb_error_message (Some e) w =
      Some (if ok st then Literal "" else Dangling, w).
Proof.
  split; [done|]. intros e st H. unfold_api; exec. by destruct (ok st).
Qed.

Lemma ctx_finalize_frees w a c :
  block_at (w_heap w) a = Some (BCtx c) ->
  let st := finalize_status w c in
  exists w',
    tiledb_ctx_finalize (Some a) w =
      Some (if ok st then TILEDB_OK else TILEDB_ERR, w') /\
    stored_error w' (Some a) = None.
Proof.
  intros Hc. unfold finalize_status. unfold_api; exec.
  destruct (storage_manager_ c) as [sm|]; exec;
    (eexists; split; [reflexivity|]); exec;
    unfold block_at; rewrite list_lookup_insert_eq by solve_lt; done.
Qed.

(** C1, amended.  Every call of the C API that passes the status of an
    operation of the engine to save_error returns; when the operation returns
    a failure status the call returns TILEDB_ERR and the last error of the
    context is exactly that status, when it returns a success status the last
    error is the one stored before; tiledb_ctx_init does the same with the
    context that it creates.  tiledb_error_last returns null when the context
    is null or stores no error; when the context stores an error and the
    allocation of the error object succeeds, it returns an error object that
    holds a copy of the stored status.  tiledb_error_message returns the
    empty string for a null error object and for an ok status.
    tiledb_ctx_finalize returns TILEDB_ERR when finalize fails, and frees the
    context, which stores nothing afterwards. *)
Theorem C1_last_error_of_context w :
  (forall f cx st, dispatches w f cx st -> reported w f cx st) /\
  (forall out tiledb_config config,
     ptr_at w out -> malloc_succeeds w -> config_arg w tiledb_config config ->
     let sm := StorageManager_new (w_engine w) in
     let st := (sm_init sm.1 config sm.2).1 in
     exists w',
       tiledb_ctx_init (Some out) tiledb_config w =
         Some (if ok st then TILEDB_OK else TILEDB_ERR, w') /\
       stored_error w' (Some (length (w_heap w))) =
         Some (if ok st then None else Some st)) /\
  (forall ctx,
     ctx = NULL \/ stored_error w ctx = Some None ->
     tiledb_error_last ctx w = Some (NULL, w)) /\
  (forall ctx st,
     stored_error w ctx = Some (Some st) -> malloc_succeeds w ->
     exists e w',
       tiledb_error_last ctx w = Some (Some e, w') /\
       deref as_error (w_heap w') (Some e) = Some {| status_ := Some st |}) /\
  tiledb_error_message NULL w = Some (Literal "", w) /\
  (forall e st,
     block_at (w_heap w) e = Some (BError {| status_ := Some st |}) ->
     ok st = true ->
     tiledb_error_message (Some e) w = Some (Literal "", w)) /\
  (forall a c,
     block_at (w_heap w) a = Some (BCtx c) ->
     let st := finalize_status w c in
     exists w',
       tiledb_ctx_finalize (Some a) w =
         Some (if ok st then TILEDB_OK else TILEDB_ERR, w') /\
       stored_error w' (Some a) = None).
Proof.
  split; [apply dispatches_reported|].
  split; [apply ctx_init_reported|].
  split; [apply error_last_null|].
  split; [apply error_last_copy|].
  split; [apply error_message_spec|].
  split.
  { intros e st He Hok.
    rewrite (proj2 (error_message_spec w) e st He). by rewrite Hok. }
  apply ctx_finalize_frees.
Qed.

(** ** Null and invalid handles *)

(** C8.  Each array function that takes a handle returns TILEDB_ERR when the
    handle is null, or its array pointer is null, or its context pointer is
    null; the world, with the state of the engine in it, is the one from
    before, for every engine. *)
Theorem C8_invalid_array_handle w tiledb_array :
  invalid_array w tiledb_array ->
  (forall buffers buffer_sizes,
     tiledb_array_write tiledb_array buffers buffer_sizes w = Some (TILEDB_ERR, w)) /\
  (forall buffers buffer_sizes,
     tiledb_array_read tiledb_array buffers buffer_sizes w =
       Some ((TILEDB_ERR, (buffers, buffer_sizes)), w)) /\
  (forall attribute_id,
     tiledb_array_overflow tiledb_array attribute_id w = Some (TILEDB_ERR, w)) /\
  tiledb_array_sync tiledb_array w = Some (TILEDB_ERR, w) /\
  (forall attribute,
     tiledb_array_sync_attribute tiledb_array attribute w = Some (TILEDB_ERR, w)) /\
  tiledb_array_finalize tiledb_array w = Some (TILEDB_ERR, w) /\
  (forall subarray,
     tiledb_array_reset_subarray tiledb_array subarray w = Some (TILEDB_ERR, w)) /\
  (forall attributes attribute_num,
     tiledb_array_reset_attributes tiledb_array attributes attribute_num w =
       Some (TILEDB_ERR, w)) /\
  (forall tiledb_array_schema,
     tiledb_array_get_schema tiledb_array tiledb_array_schema w =
       Some (TILEDB_ERR, w)).
Proof.
  intros [->|(t & x & -> & Hx & Hnull)].
  - repeat split.
  - destruct x as [arr cx]; cbn in Hnull.
    assert (sanity_check_array (Some t) w =
              Some (Status_Error "Invalid TileDB array", w)) as Hs.
    { unfold_api; exec. destruct Hnull as [->| ->]; [done|]. by destruct arr. }
    repeat split; intros;
      unfold tiledb_array_write, tiledb_array_read, tiledb_array_overflow,
        tiledb_array_sync, tiledb_array_sync_attribute, tiledb_array_finalize,
        tiledb_array_reset_subarray, tiledb_array_reset_attributes,
        tiledb_array_get_schema, bind; by rewrite Hs.
Qed.

(** C9.  Each function that frees accepts the null pointer: it returns
    TILEDB_OK and leaves the world as it is. *)
Theorem C9_free_null w :
  tiledb_config_free NULL w = Some (TILEDB_OK, w) /\
  tiledb_ctx_finalize NULL w = Some (TILEDB_OK, w) /\
  tiledb_error_free NULL w = Some (TILEDB_OK, w) /\
  tiledb_array_free_schema NULL w = Some (TILEDB_OK, w) /\
  tiledb_metadata_free_schema NULL w = Some (TILEDB_OK, w).
Proof. repeat split. Qed.

(** ** Kinds of directory *)


(** ** Allocation failure in the functions that create a handle *)

(** C4.  When malloc of the handle struct fails, tiledb_ctx_init,
    tiledb_metadata_init and tiledb_array_iterator_init return TILEDB_OOM,
    which differs from TILEDB_ERR.  tiledb_metadata_iterator_init returns
    TILEDB_ERR, and tiledb_array_init tests the address of the pointer
    variable instead of the pointer and goes on to write through the null
    pointer. *)
Theorem C4_allocation_failure w a sm out rest :
  live_ctx w a sm -> ptr_at w out -> w_oom w = true :: rest ->
  TILEDB_OOM <> TILEDB_ERR /\
  (forall tiledb_config,
     tiledb_ctx_init (Some out) tiledb_config w =
       Some (TILEDB_OOM, after_failed_malloc w out rest)) /\
  (forall metadata mode attributes attribute_num,
     tiledb_metadata_init (Some a) (Some out) metadata mode attributes
       attribute_num w = Some (TILEDB_OOM, after_failed_malloc w out rest)) /\
  (forall array mode subarray attributes attribute_num buffers buffer_sizes,
     tiledb_array_iterator_init (Some a) (Some out) array mode subarray attributes
       attribute_num buffers buffer_sizes w =
       Some (TILEDB_OOM, after_failed_malloc w out rest)) /\
  (forall metadata attributes attribute_num buffers buffer_sizes,
     tiledb_metadata_iterator_init (Some a) (Some out) metadata attributes
       attribute_num buffers buffer_sizes w =
       Some (TILEDB_ERR, after_failed_malloc w out rest)) /\
  (forall array mode subarray attributes attribute_num,
     tiledb_array_init (Some a) (Some out) array mode subarray attributes
       attribute_num w = None).
Proof.
  intros Ha Hout Hoom. open_facts.
  split; [done|].
  repeat split; intros; unfold_api; exec; reflexivity.
Qed.

(** ** Asynchronous I/O *)

Lemma ptr_to_size_t_inj (p q : ptr) : ptr_to_size_t p = ptr_to_size_t q -> p = q.
Proof.
  destruct p as [a|], q as [b|]; cbn; try lia; [|done].
  intros H. f_equal. lia.
Qed.

(** C5.  For a valid array handle and a request struct of the caller,
    tiledb_array_aio_read and tiledb_array_aio_write hand to the engine a
    new struct that carries the buffers, buffer sizes, subarray, completion
    handle and completion data of the request of the caller, a status
    pointer to the status field of that request, the mode of the array, and
    as id the address of the request, which no other request has.  The
    result of malloc is not tested; it is taken to succeed. *)
Theorem C5_aio_request_copy w t arr cx r rq :
  array_at w t arr cx -> ctx_at w cx ->
  block_at (w_heap w) r = Some (BRequest rq) -> malloc_succeeds w ->
  exists (p : addr) (copy : AIO_Request) (h' : heap),
    block_at h' p = Some (BAIO copy) /\
    block_at h' r = Some (BRequest rq) /\
    aio_buffers_ copy = rq_buffers_ rq /\
    aio_buffer_sizes_ copy = rq_buffer_sizes_ rq /\
    aio_subarray_ copy = rq_subarray_ rq /\
    aio_completion_handle_ copy = rq_completion_handle_ rq /\
    aio_completion_data_ copy = rq_completion_data_ rq /\
    aio_status_ copy = Some (StatusField r) /\
    aio_mode_ copy = Array_mode arr (w_engine w) /\
    aio_id_ copy = ptr_to_size_t (Some r) /\
    (forall q, ptr_to_size_t q = aio_id_ copy -> q = Some r) /\
    (let res := Array_aio_read arr (Some p) h' (w_engine w) in
     exists w',
       tiledb_array_aio_read (Some t) (Some r) w =
         Some (if ok res.1 then TILEDB_OK else TILEDB_ERR, w') /\
       w_engine w' = res.2 /\
       block_at (w_heap w') p = Some (BAIO copy)) /\
    (let res := Array_aio_write arr (Some p) h' (w_engine w) in
     exists w',
       tiledb_array_aio_write (Some t) (Some r) w =
         Some (if ok res.1 then TILEDB_OK else TILEDB_ERR, w') /\
       w_engine w' = res.2 /\
       block_at (w_heap w') p = Some (BAIO copy)).
Proof.
  intros Ht Hcx Hr Hm. open_facts.
  exists (length (w_heap w)), (aio_copy r rq (Array_mode arr (w_engine w))),
    (w_heap w ++ [Some (BAIO (aio_copy r rq (Array_mode arr (w_engine w))))]).
  split; [by exec|]. split; [by exec|].
  do 8 (split; [reflexivity|]).
  split; [intros q Hq; by apply ptr_to_size_t_inj|].
  split; unfold_api; exec; split_ok; exec; (eexists; split; [reflexivity|]);
    by exec.
Qed.

(** ** The directory functions and the null directory *)

(** C6.  tiledb_clear refuses a null directory itself: it returns
    TILEDB_ERR, records its own error in the context and does not call the
    storage manager.  tiledb_delete, tiledb_move and tiledb_ls have no such
    test: the null directory goes to the storage manager, and the return
    code, the state of the engine and the recorded error are what the
    storage manager makes of it. *)
Theorem C6_null_directory w a sm :
  live_ctx w a sm ->
  (exists w',
     tiledb_clear (Some a) None w = Some (TILEDB_ERR, w') /\
     w_engine w' = w_engine w /\
     stored_error w' (Some a) =
       Some (Some (Status_Error "Invalid directory argument is NULL"))) /\
  (let res := sm_delete_entire sm None (w_engine w) in
   exists w',
     tiledb_delete (Some a) None w =
       Some (if ok res.1 then TILEDB_OK else TILEDB_ERR, w') /\
     w_engine w' = res.2 /\
     stored_error w' (Some a) =
       if ok res.1 then stored_error w (Some a) else Some (Some res.1)) /\
  (forall new_dir,
   let res := sm_move sm None new_dir (w_engine w) in
   exists w',
     tiledb_move (Some a) None new_dir w =
       Some (if ok res.1 then TILEDB_OK else TILEDB_ERR, w') /\
     w_engine w' = res.2 /\
     stored_error w' (Some a) =
       if ok res.1 then stored_error w (Some a) else Some (Some res.1)) /\
  (forall dirs dir_types dir_num,
   let res := sm_ls sm None dirs dir_types dir_num (w_engine w) in
   exists w' out,
     tiledb_ls (Some a) None dirs dir_types (Some dir_num) w =
       Some ((if ok res.1.1 then TILEDB_OK else TILEDB_ERR, out), w') /\
     w_engine w' = res.2 /\
     stored_error w' (Some a) =
       if ok res.1.1 then stored_error w (Some a) else Some (Some res.1.1)).
Proof.
  intros Ha. open_facts.
  repeat split; intros; unfold_api; exec; try split_ok; exec;
    (eexists; try eexists; split; [reflexivity|]); by exec.
Qed.

End Claims.

(** ** tiledb_array_set_schema *)

Section SchemaFacts.

Context {engine : Engine}.
Implicit Types (w : world engine) (h : heap) (a t : addr).

Lemma bind_Some {A B} (m : M engine A) (k : A -> M engine B) w r :
  bind m k w = Some r -> exists x w1, m w = Some (x, w1) /\ k x w1 = Some r.
Proof.
  unfold bind. destruct (m w) as [[x w1]|]; [|discriminate]. eauto.
Qed.

Lemma malloc_inv w b p w' :
  malloc b w = Some (p, w') ->
  (p = NULL /\ w_heap w' = w_heap w) \/
  (p = Some (length (w_heap w)) /\ w_heap w' = w_heap w ++ [Some b]).
Proof.
  unfold malloc. destruct (w_oom w) as [|[] ?]; intros [= <- <-]; cbn; auto.
Qed.

Lemma malloc_array_inv w n mk p w' :
  malloc_array n mk w = Some (p, w') ->
  (p = NULL /\ w_heap w' = w_heap w) \/
  (p = Some (length (w_heap w)) /\ w_heap w' = w_heap w ++ [Some (mk (Z.to_nat n))]).
Proof.
  unfold malloc_array. destruct (n <? 0).
  - intros [= <- <-]. auto.
  - apply malloc_inv.
Qed.

Lemma store_inv w p b x w' :
  store p b w = Some (x, w') ->
  exists a, p = Some a /\ is_Some (block_at (w_heap w) a) /\
            w_heap w' = <[a := Some b]> (w_heap w).
Proof.
  unfold store. destruct p as [a|]; [|discriminate].
  destruct (block_at (w_heap w) a) eqn:E; [|discriminate].
  intros [= <- <-]. eauto.
Qed.

Lemma load_inv {A} (proj : block -> option A) w p x w' :
  load proj p w = Some (x, w') -> deref proj (w_heap w) p = Some x /\ w' = w.
Proof.
  unfold load. destruct (deref proj (w_heap w) p); [|discriminate].
  by intros [= <- <-].
Qed.

Lemma ret_inv {A} (x y : A) w w' : ret x w = Some (y, w') -> x = y /\ w' = w.
Proof. by intros [= <- <-]. Qed.

Lemma int_add_inv (a b : Z) w n w' :
  int_add a b w = Some (n, w') ->
  n = a + b /\ w' = w /\ INT_MIN <= a + b <= INT_MAX.
Proof.
  unfold int_add. destruct (decide _); [|discriminate]. by intros [= <- <-].
Qed.

Lemma element_inv {A} (l : list A) i x w w' :
  element l i w = Some (x, w') -> l !! i = Some x /\ w' = w.
Proof.
  unfold element. destruct (l !! i); [|discriminate]. by intros [= <- <-].
Qed.

Lemma block_at_Some h a b : block_at h a = Some b -> h !! a = Some (Some b).
Proof.
  unfold block_at. destruct (h !! a) as [[?|]|]; congruence.
Qed.

(** The copy loops over an array of ints. *)
Lemma ints_loop_gen (src : list Z) a l :
  forall w r w' cur,
    for_each l (fun i => bind (element src i) (fun v =>
                  bind (store_int_at (Some a) i v) (fun _ => ret None))) w
      = Some (r, w') ->
    block_at (w_heap w) a = Some (BInts cur) ->
    r = None /\
    exists cur',
      w_heap w' = <[a := Some (BInts cur')]> (w_heap w) /\
      length cur' = length cur /\
      (forall i, cur' !! i = if decide (i ∈ l) then src !! i else cur !! i) /\
      (forall i, i ∈ l -> is_Some (src !! i)).
Proof.
  induction l as [|i l IH]; intros w r w' cur H Hcur; cbn in H.
  - apply ret_inv in H as [<- ->]. split; [done|]. exists cur.
    split; [by rewrite list_insert_id by by apply block_at_Some|].
    split; [done|]. split; [|by intros i ?%elem_of_nil].
    intros i. case_decide as Hi; [by apply elem_of_nil in Hi|done].
  - apply bind_Some in H as (r1 & w1 & Hb & H).
    apply bind_Some in Hb as (v & w2 & He & Hb). apply element_inv in He as [Hv ->].
    apply bind_Some in Hb as (? & w3 & Hs & Hb). apply ret_inv in Hb as [<- ->].
    unfold store_int_at in Hs.
    apply bind_Some in Hs as (cur0 & w4 & Hl & Hs). apply load_inv in Hl as [Hl ->].
    cbn in Hl. rewrite Hcur in Hl. injection Hl as <-.
    case_decide as Hlt; [|discriminate].
    apply store_inv in Hs as (a' & [= <-] & _ & Hh).
    assert (a < length (w_heap w))%nat as Ha.
    { apply block_at_Some, lookup_lt_Some in Hcur. done. }
    destruct (IH w3 r w' (<[i := v]> cur) H) as (-> & cur' & Hh' & Hlen & Hall & Hsrc).
    { rewrite Hh. unfold block_at. by rewrite list_lookup_insert_eq. }
    split; [done|]. exists cur'.
    split; [by rewrite Hh', Hh, list_insert_insert_eq|].
    split; [by rewrite Hlen, length_insert|].
    split.
    + intros j. rewrite Hall. destruct (decide (j = i)) as [->|Hne].
      * rewrite list_lookup_insert_eq by done.
        rewrite (decide_True (P := i ∈ i :: l)) by (apply elem_of_cons; by left).
        by destruct (decide (i ∈ l)).
      * rewrite list_lookup_insert_ne by done.
        destruct (decide (j ∈ l)) as [Hj|Hj].
        -- by rewrite decide_True by (apply elem_of_cons; by right).
        -- rewrite decide_False; [done|]. by intros [?|?]%elem_of_cons.
    + intros j [->|Hj]%elem_of_cons; [by eexists|by apply Hsrc].
Qed.

Lemma ints_loop_inv (src : list Z) a n w r w' :
  for_loop n (fun i => bind (element src i) (fun v =>
                bind (store_int_at (Some a) i v) (fun _ => ret None))) w
    = Some (r, w') ->
  block_at (w_heap w) a = Some (BInts (replicate (Z.to_nat n) 0)) ->
  r = None /\ (Z.to_nat n <= length src)%nat /\
  w_heap w' = <[a := Some (BInts (take (Z.to_nat n) src))]> (w_heap w).
Proof.
  unfold for_loop. intros H Hcur.
  destruct (ints_loop_gen _ _ _ _ _ _ _ H Hcur) as (-> & cur' & Hh & Hlen & Hall & Hsrc).
  rewrite length_replicate in Hlen.
  assert (Z.to_nat n <= length src)%nat as Hn.
  { destruct (Z.to_nat n) as [|m] eqn:E; [lia|].
    destruct (Hsrc m) as [x Hx]; [apply elem_of_seq; lia|].
    apply lookup_lt_Some in Hx. lia. }
  split; [done|]. split; [done|]. rewrite Hh. do 3 f_equal.
  apply list_eq. intros i. rewrite Hall.
  destruct (decide (i < Z.to_nat n)%nat).
  - rewrite decide_True by (apply elem_of_seq; lia). by rewrite lookup_take_lt.
  - rewrite decide_False by (rewrite elem_of_seq; lia).
    rewrite lookup_take_ge by lia. apply lookup_replicate_None. lia.
Qed.


(** The copy loops over an array of strings. *)
Lemma strings_loop_gen (src : list string) a l :
  NoDup l ->
  forall w r w' cur,
    for_each l (fun i => bind (element src i) (fun s =>
                  bind (malloc (BChars "")) (fun q =>
                  bind (store_string_at (Some a) i q) (fun _ =>
                  if q is None then ret (Some TILEDB_OOM)
                  else bind (store q (BChars s)) (fun _ => ret None))))) w
      = Some (r, w') ->
    block_at (w_heap w) a = Some (BStrings cur) ->
    r = Some TILEDB_OOM \/
    r = None /\
    exists cur' strs,
      w_heap w' = <[a := Some (BStrings cur')]> (w_heap w)
                    ++ ((fun s => Some (BChars s)) <$> strs) /\
      length cur' = length cur /\
      Forall2 (fun i s => src !! i = Some s) l strs /\
      (forall j i, l !! j = Some i ->
         cur' !! i = Some (Some (length (w_heap w) + j)%nat)) /\
      (forall i, i ∉ l -> cur' !! i = cur !! i).
Proof.
  induction l as [|i l IH]; intros Hnd w r w' cur H Hcur; cbn in H.
  - apply ret_inv in H as [<- ->]. right. split; [done|]. exists cur, [].
    cbn. rewrite app_nil_r.
    split; [by rewrite list_insert_id by by apply block_at_Some|].
    split; [done|]. split; [constructor|]. split; [|done].
    intros j i; discriminate.
  - apply NoDup_cons in Hnd as [Hi Hnd].
    pose proof (block_at_lt _ _ _ Hcur) as Ha.
    apply bind_Some in H as (r1 & w1 & Hb & H).
    apply bind_Some in Hb as (s & w2 & He & Hb). apply element_inv in He as [Hs ->].
    apply bind_Some in Hb as (q & w3 & Hm & Hb).
    apply bind_Some in Hb as (? & w4 & Hst & Hb).
    unfold store_string_at in Hst.
    apply bind_Some in Hst as (cur0 & w5 & Hl & Hst). apply load_inv in Hl as [Hl ->].
    case_decide as Hlt; [|discriminate].
    apply store_inv in Hst as (a' & [= <-] & _ & Hh4).
    apply malloc_inv in Hm as [[-> Hh3]|[-> Hh3]].
    { apply ret_inv in Hb as [<- ->]. apply ret_inv in H as [<- ->]. by left. }
    apply bind_Some in Hb as (? & w6 & Hst & Hb). apply ret_inv in Hb as [<- ->].
    apply store_inv in Hst as (q' & [= <-] & _ & Hh6).
    cbn in Hl. rewrite Hh3, block_at_app_l, Hcur in Hl by done. injection Hl as <-.
    assert (w_heap w6 = <[a := Some (BStrings (<[i := Some (length (w_heap w))]> cur))]>
                          (w_heap w) ++ [Some (BChars s)]) as Hw6.
    { rewrite Hh6, Hh4, Hh3. rewrite insert_app_l by done.
      rewrite <- (length_insert (w_heap w) a
                    (Some (BStrings (<[i := Some (length (w_heap w))]> cur)))) at 1.
      by rewrite insert_new. }
    destruct (IH Hnd w6 r w' (<[i := Some (length (w_heap w))]> cur) H)
      as [->|(-> & cur' & strs & Hh' & Hlen & Hf & Hidx & Hrest)]; [|by left|].
    { rewrite Hw6, block_at_app_l by (by rewrite length_insert).
      by rewrite block_at_insert_eq. }
    right. split; [done|]. exists cur', (s :: strs).
    split.
    { rewrite Hh', Hw6. rewrite insert_app_l by (by rewrite length_insert).
      rewrite list_insert_insert_eq. by rewrite <- app_assoc. }
    split; [by rewrite Hlen, length_insert|].
    split; [by constructor|].
    split.
    + intros [|j] i0 Hj; cbn in Hj.
      * injection Hj as <-. rewrite (Hrest i Hi), list_lookup_insert_eq by done.
        by rewrite Nat.add_0_r.
      * rewrite (Hidx j i0 Hj), Hw6, length_app, length_insert. cbn.
        do 2 f_equal. lia.
    + intros i0 Hi0. rewrite Hrest by (intros ?; apply Hi0, elem_of_cons; by right).
      apply list_lookup_insert_ne. intros ->. apply Hi0, elem_of_cons. by left.
Qed.

Lemma strings_loop_inv (src : list string) a n w r w' :
  for_loop n (fun i => bind (element src i) (fun s =>
                bind (malloc (BChars "")) (fun q =>
                bind (store_string_at (Some a) i q) (fun _ =>
                if q is None then ret (Some TILEDB_OOM)
                else bind (store q (BChars s)) (fun _ => ret None))))) w
    = Some (r, w') ->
  block_at (w_heap w) a = Some (BStrings (replicate (Z.to_nat n) NULL)) ->
  r = Some TILEDB_OOM \/
  r = None /\ (Z.to_nat n <= length src)%nat /\
  w_heap w' =
    <[a := Some (BStrings (Some <$> seq (length (w_heap w)) (Z.to_nat n)))]> (w_heap w)
      ++ ((fun s => Some (BChars s)) <$> take (Z.to_nat n) src).
Proof.
  unfold for_loop. intros H Hcur. set (m := Z.to_nat n) in *.
  destruct (strings_loop_gen _ _ _ (NoDup_seq 0 m) _ _ _ _ H Hcur)
    as [->|(-> & cur' & strs & Hh & Hlen & Hf & Hidx & Hrest)]; [by left|].
  right. split; [done|]. rewrite length_replicate in Hlen.
  assert (length strs = m) as Hls.
  { apply Forall2_length in Hf. by rewrite length_seq in Hf. }
  assert (forall i, (i < m)%nat -> src !! i = strs !! i) as Hsrc.
  { intros i Hi. destruct (lookup_lt_is_Some_2 strs i) as [s Hs]; [lia|].
    rewrite Hs. eapply (Forall2_lookup_lr _ _ _ i i s Hf); [|done].
    by rewrite lookup_seq_lt. }
  assert (m <= length src)%nat as Hm.
  { destruct m as [|k] eqn:E; [lia|].
    destruct (lookup_lt_is_Some_2 strs k) as [s Hs]; [lia|].
    rewrite <- Hsrc in Hs by lia. apply lookup_lt_Some in Hs. lia. }
  split; [done|]. rewrite Hh. f_equal.
  - do 3 f_equal. apply list_eq. intros i. rewrite list_lookup_fmap.
    destruct (decide (i < m)%nat).
    + rewrite (Hidx i i) by by rewrite lookup_seq_lt. by rewrite lookup_seq_lt.
    + rewrite Hrest by (rewrite elem_of_seq; lia).
      rewrite lookup_seq_ge by lia. apply lookup_replicate_None. lia.
  - f_equal. apply list_eq. intros i. destruct (decide (i < m)%nat).
    + by rewrite lookup_take_lt, Hsrc.
    + rewrite lookup_take_ge by lia. apply lookup_ge_None. lia.
Qed.


Lemma length_shape h0 sch s N : length (shape h0 sch s N) = (length h0 + length N)%nat.
Proof. unfold shape. by rewrite length_app, length_insert. Qed.

Lemma shape_nil h0 sch s :
  block_at h0 sch = Some (BArraySchema s) -> shape h0 sch s [] = h0.
Proof.
  intros H. unfold shape. rewrite app_nil_r. apply list_insert_id.
  by apply block_at_Some.
Qed.

Lemma block_at_shape_sch h0 sch s N :
  (sch < length h0)%nat -> block_at (shape h0 sch s N) sch = Some (BArraySchema s).
Proof.
  intros H. unfold shape. rewrite block_at_app_l by (by rewrite length_insert).
  by apply block_at_insert_eq.
Qed.

Lemma block_at_shape_new h0 sch s N j :
  block_at (shape h0 sch s N) (length h0 + j) = block_at N j.
Proof.
  unfold shape, block_at. rewrite lookup_app_r by (rewrite length_insert; lia).
  rewrite length_insert. by replace (length h0 + j - length h0)%nat with j by lia.
Qed.

Lemma block_at_shape_old h0 sch s N a :
  (a < length h0)%nat -> a <> sch ->
  block_at (shape h0 sch s N) a = block_at h0 a.
Proof.
  intros Ha Hne. unfold shape. rewrite block_at_app_l by (by rewrite length_insert).
  unfold block_at. by rewrite list_lookup_insert_ne.
Qed.

Lemma shape_snoc h0 sch s N x : shape h0 sch s N ++ [x] = shape h0 sch s (N ++ [x]).
Proof. unfold shape. by rewrite app_assoc. Qed.

Lemma shape_app h0 sch s N X : shape h0 sch s N ++ X = shape h0 sch s (N ++ X).
Proof. unfold shape. by rewrite app_assoc. Qed.

Lemma insert_shape_sch h0 sch s s' N :
  (sch < length h0)%nat ->
  <[sch := Some (BArraySchema s')]> (shape h0 sch s N) = shape h0 sch s' N.
Proof.
  intros H. unfold shape. rewrite insert_app_l by (by rewrite length_insert).
  by rewrite list_insert_insert_eq.
Qed.

Lemma insert_shape_last h0 sch s N x y :
  <[(length h0 + length N)%nat := y]> (shape h0 sch s (N ++ [x]))
  = shape h0 sch s (N ++ [y]).
Proof.
  rewrite <- !shape_snoc. rewrite <- (length_shape h0 sch s N). apply insert_new.
Qed.

Lemma malloc_shape w b p w' h0 sch s N :
  w_heap w = shape h0 sch s N -> malloc b w = Some (p, w') ->
  (p = NULL /\ w_heap w' = shape h0 sch s N) \/
  (p = Some (length h0 + length N)%nat /\ w_heap w' = shape h0 sch s (N ++ [Some b])).
Proof.
  intros Hh H. apply malloc_inv in H as [[-> H]|[-> H]]; rewrite H, Hh.
  - by left.
  - right. by rewrite length_shape, shape_snoc.
Qed.

Lemma malloc_array_shape w n mk p w' h0 sch s N :
  w_heap w = shape h0 sch s N -> malloc_array n mk w = Some (p, w') ->
  (p = NULL /\ w_heap w' = shape h0 sch s N) \/
  (p = Some (length h0 + length N)%nat /\
   w_heap w' = shape h0 sch s (N ++ [Some (mk (Z.to_nat n))])).
Proof.
  intros Hh H. apply malloc_array_inv in H as [[-> H]|[-> H]]; rewrite H, Hh.
  - by left.
  - right. by rewrite length_shape, shape_snoc.
Qed.

Lemma assign_shape w f x w' h0 sch s N :
  (sch < length h0)%nat ->
  w_heap w = shape h0 sch s N -> assign (Some sch) f w = Some (x, w') ->
  w_heap w' = shape h0 sch (f s) N.
Proof.
  intros Hs Hh H. unfold assign in H.
  apply bind_Some in H as (s1 & w1 & Hl & H). apply load_inv in Hl as [Hl ->].
  cbn in Hl. rewrite Hh, block_at_shape_sch in Hl by done. injection Hl as <-.
  apply store_inv in H as (a & [= <-] & _ & ->). rewrite Hh.
  by apply insert_shape_sch.
Qed.

Lemma store_last_shape w b b' x w' h0 sch s N :
  w_heap w = shape h0 sch s (N ++ [Some b]) ->
  store (Some (length h0 + length N)%nat) b' w = Some (x, w') ->
  w_heap w' = shape h0 sch s (N ++ [Some b']).
Proof.
  intros Hh H. apply store_inv in H as (a & [= <-] & _ & ->). rewrite Hh.
  apply insert_shape_last.
Qed.

Lemma block_at_shape_last h0 sch s N b :
  block_at (shape h0 sch s (N ++ [Some b])) (length h0 + length N) = Some b.
Proof.
  rewrite block_at_shape_new. unfold block_at. by rewrite list_lookup_middle.
Qed.

Lemma memcpy_last_shape w src n x w' h0 sch s N :
  w_heap w = shape h0 sch s (N ++ [Some (BBytes (replicate (Z.to_nat n) 0))]) ->
  memcpy (Some (length h0 + length N)%nat) src n w = Some (x, w') ->
  (Z.to_nat n <= length src)%nat /\
  w_heap w' = shape h0 sch s (N ++ [Some (BBytes (take (Z.to_nat n) src))]).
Proof.
  intros Hh H. unfold memcpy in H.
  apply bind_Some in H as (l & w1 & Hl & H). apply load_inv in Hl as [Hl ->].
  cbn in Hl. rewrite Hh, block_at_shape_last in Hl. injection Hl as <-.
  case_decide as Hn; [|discriminate]. destruct Hn as [_ Hn]. split; [done|].
  rewrite drop_replicate, Nat.sub_diag, app_nil_r in H.
  by eapply store_last_shape.
Qed.

Lemma ints_loop_shape (src : list Z) n w r w' h0 sch s N :
  w_heap w = shape h0 sch s (N ++ [Some (BInts (replicate (Z.to_nat n) 0))]) ->
  for_loop n (fun i => bind (element src i) (fun v =>
                bind (store_int_at (Some (length h0 + length N)%nat) i v)
                     (fun _ => ret None))) w
    = Some (r, w') ->
  r = None /\ (Z.to_nat n <= length src)%nat /\
  w_heap w' = shape h0 sch s (N ++ [Some (BInts (take (Z.to_nat n) src))]).
Proof.
  intros Hh H. apply ints_loop_inv in H as (-> & Hn & ->).
  - split; [done|]. split; [done|]. rewrite Hh. apply insert_shape_last.
  - rewrite Hh. apply block_at_shape_last.
Qed.

Lemma strings_loop_shape (src : list string) n w r w' h0 sch s N :
  w_heap w = shape h0 sch s (N ++ [Some (BStrings (replicate (Z.to_nat n) NULL))]) ->
  for_loop n (fun i => bind (element src i) (fun s =>
                bind (malloc (BChars "")) (fun q =>
                bind (store_string_at (Some (length h0 + length N)%nat) i q) (fun _ =>
                if q is None then ret (Some TILEDB_OOM)
                else bind (store q (BChars s)) (fun _ => ret None))))) w
    = Some (r, w') ->
  r = Some TILEDB_OOM \/
  r = None /\ (Z.to_nat n <= length src)%nat /\
  w_heap w' =
    shape h0 sch s
      ((N ++ [Some (BStrings
                      (Some <$> seq (length h0 + length N + 1) (Z.to_nat n)))])
       ++ ((fun s => Some (BChars s)) <$> take (Z.to_nat n) src)).
Proof.
  intros Hh H. apply strings_loop_inv in H as [->|(-> & Hn & ->)]; [by left| |].
  - right. split; [done|]. split; [done|]. rewrite Hh.
    rewrite insert_shape_last, length_shape, length_app. cbn.
    rewrite shape_app. rewrite Nat.add_assoc. reflexivity.
  - rewrite Hh. apply block_at_shape_last.
Qed.


Lemma block_at_shape_mono h0 sch s s' N N' a b :
  N `prefix_of` N' -> a <> sch ->
  block_at (shape h0 sch s N) a = Some b ->
  block_at (shape h0 sch s' N') a = Some b.
Proof.
  intros [k ->] Hne H. destruct (decide (a < length h0)%nat) as [Ha|Ha].
  - rewrite block_at_shape_old in * by done. done.
  - replace a with (length h0 + (a - length h0))%nat in * by lia.
    rewrite block_at_shape_new in *.
    rewrite block_at_app_l; [done|]. by eapply block_at_lt.
Qed.

Lemma deref_shape_mono {A} (proj : block -> option A) h0 sch s s' N N' p x :
  (forall y, proj (BArraySchema y) = None) -> (sch < length h0)%nat ->
  N `prefix_of` N' ->
  deref proj (shape h0 sch s N) p = Some x ->
  deref proj (shape h0 sch s' N') p = Some x.
Proof.
  intros Hproj Hs Hpre H. destruct p as [a|]; [|done]. cbn in *.
  destruct (block_at (shape h0 sch s N) a) as [b|] eqn:E; [|done].
  assert (a <> sch) as Hne.
  { intros ->. rewrite block_at_shape_sch in E by done. injection E as <-.
    by rewrite Hproj in H. }
  by rewrite (block_at_shape_mono _ _ _ s' _ _ _ _ Hpre Hne E).
Qed.

Lemma strings_at_shape_mono h0 sch s s' N N' p l :
  (sch < length h0)%nat -> N `prefix_of` N' ->
  strings_at (shape h0 sch s N) p = Some l ->
  strings_at (shape h0 sch s' N') p = Some l.
Proof.
  intros Hs Hpre H. unfold strings_at in *.
  destruct (deref as_strings (shape h0 sch s N) p) as [ptrs|] eqn:E; [|done].
  cbn in H. rewrite (deref_shape_mono as_strings _ _ _ s' _ _ _ _
                       (fun _ => eq_refl) Hs Hpre E). cbn.
  apply mapM_Some. apply mapM_Some in H.
  eapply Forall2_impl; [exact H|]. intros q x Hq. cbn beta in Hq.
  by apply (deref_shape_mono as_chars _ _ s s' _ _ _ _ (fun _ => eq_refl) Hs Hpre).
Qed.

Lemma strings_at_shape_new h0 sch s N (strs : list string) :
  strings_at
    (shape h0 sch s
       ((N ++ [Some (BStrings (Some <$> seq (length h0 + length N + 1) (length strs)))])
        ++ ((fun x => Some (BChars x)) <$> strs)))
    (Some (length h0 + length N)%nat) = Some strs.
Proof.
  unfold strings_at. cbn. rewrite block_at_shape_new.
  rewrite block_at_app_l by (rewrite length_app; cbn; lia).
  unfold block_at at 1. rewrite list_lookup_middle by done. cbn.
  apply mapM_Some. apply Forall2_same_length_lookup_2.
  { by rewrite length_fmap, length_seq. }
  intros i q x Hq Hx. rewrite list_lookup_fmap in Hq.
  destruct (seq _ _ !! i) as [b|] eqn:E; [|done]. injection Hq as <-.
  apply lookup_seq in E as [-> Hi]. cbn.
  replace (length h0 + length N + 1 + i)%nat
    with (length h0 + (length (N ++ [Some (BStrings
            (Some <$> seq (length h0 + length N + 1) (length strs)))]) + i))%nat
    by (rewrite length_app; cbn; lia).
  rewrite block_at_shape_new. unfold block_at.
  rewrite lookup_app_r by lia.
  replace (_ + i - _)%nat with i by lia.
  by rewrite list_lookup_fmap, Hx.
Qed.

(** The optional arrays: tile extents, cell_val_num, compressor. *)
Lemma optional_bytes_shape (f : ptr -> tiledb_array_schema_t -> tiledb_array_schema_t)
    (o : option (list Z)) n w r w' h0 sch s N :
  (sch < length h0)%nat -> w_heap w = shape h0 sch s N ->
  match o with
  | None => bind (assign (Some sch) (f NULL)) (fun _ => ret None)
  | Some te =>
      bind (malloc_array n (fun k => BBytes (replicate k 0))) (fun p =>
      bind (assign (Some sch) (f p)) (fun _ =>
      if p is None then ret (Some TILEDB_OOM)
      else bind (memcpy p te n) (fun _ => ret None)))
  end w = Some (r, w') ->
  r = Some TILEDB_OOM \/
  r = None /\
  exists p X,
    w_heap w' = shape h0 sch (f p s) (N ++ X) /\
    match o with
    | None => p = NULL
    | Some te =>
        p = Some (length h0 + length N)%nat /\ (Z.to_nat n <= length te)%nat /\
        forall s', deref as_bytes (shape h0 sch s' (N ++ X)) p
                   = Some (take (Z.to_nat n) te)
    end.
Proof.
  intros Hs Hh H. destruct o as [te|].
  - apply bind_Some in H as (p & w1 & Hm & H).
    apply bind_Some in H as (? & w2 & Ha & H).
    apply (malloc_array_shape _ _ _ _ _ _ _ _ _ Hh) in Hm as [[-> Hh1]|[-> Hh1]].
    { apply ret_inv in H as [<- _]. by left. }
    apply (assign_shape _ _ _ _ _ _ _ _ Hs Hh1) in Ha. cbv beta iota in H.
    apply bind_Some in H as (? & w3 & Hc & H). apply ret_inv in H as [<- ->].
    apply (memcpy_last_shape _ _ _ _ _ _ _ _ _ Ha) in Hc as [Hn Hh3].
    right. split; [done|]. eexists _, _. split; [exact Hh3|].
    split; [done|]. split; [done|]. intros s'. cbn. by rewrite block_at_shape_last.
  - apply bind_Some in H as (? & w1 & Ha & H). apply ret_inv in H as [<- ->].
    apply (assign_shape _ _ _ _ _ _ _ _ Hs Hh) in Ha.
    right. split; [done|]. exists NULL, []. by rewrite app_nil_r.
Qed.

Lemma optional_ints_shape (f : ptr -> tiledb_array_schema_t -> tiledb_array_schema_t)
    (o : option (list Z)) n w r w' h0 sch s N :
  (sch < length h0)%nat -> w_heap w = shape h0 sch s N ->
  match o with
  | None => bind (assign (Some sch) (f NULL)) (fun _ => ret None)
  | Some src =>
      bind (malloc_array n (fun k => BInts (replicate k 0))) (fun p =>
      bind (assign (Some sch) (f p)) (fun _ =>
      if p is None then ret (Some TILEDB_OOM)
      else for_loop n (fun i => bind (element src i) (fun v =>
             bind (store_int_at p i v) (fun _ => ret None)))))
  end w = Some (r, w') ->
  r = Some TILEDB_OOM \/
  r = None /\
  exists p X,
    w_heap w' = shape h0 sch (f p s) (N ++ X) /\
    match o with
    | None => p = NULL
    | Some src =>
        p = Some (length h0 + length N)%nat /\ (Z.to_nat n <= length src)%nat /\
        forall s', deref as_ints (shape h0 sch s' (N ++ X)) p
                   = Some (take (Z.to_nat n) src)
    end.
Proof.
  intros Hs Hh H. destruct o as [src|].
  - apply bind_Some in H as (p & w1 & Hm & H).
    apply bind_Some in H as (? & w2 & Ha & H).
    apply (malloc_array_shape _ _ _ _ _ _ _ _ _ Hh) in Hm as [[-> Hh1]|[-> Hh1]].
    { apply ret_inv in H as [<- _]. by left. }
    apply (assign_shape _ _ _ _ _ _ _ _ Hs Hh1) in Ha. cbv beta iota in H.
    apply (ints_loop_shape _ _ _ _ _ _ _ _ _ Ha) in H as (-> & Hn & Hh3).
    right. split; [done|]. eexists _, _. split; [exact Hh3|].
    split; [done|]. split; [done|]. intros s'. cbn. by rewrite block_at_shape_last.
  - apply bind_Some in H as (? & w1 & Ha & H). apply ret_inv in H as [<- ->].
    apply (assign_shape _ _ _ _ _ _ _ _ Hs Hh) in Ha.
    right. split; [done|]. exists NULL, []. by rewrite app_nil_r.
Qed.


(** The compressors: as many as the types. *)
Lemma compressors_shape (f : ptr -> tiledb_array_schema_t -> tiledb_array_schema_t)
    (o : option (list Z)) (cnt : Z) w r w' h0 sch s N :
  (sch < length h0)%nat -> w_heap w = shape h0 sch s N ->
  match o with
  | None => bind (assign (Some sch) (f NULL)) (fun _ => ret None)
  | Some src =>
      bind (int_add cnt 1) (fun n =>
      bind (malloc_array n (fun k => BInts (replicate k 0))) (fun p =>
      bind (assign (Some sch) (f p)) (fun _ =>
      if p is None then ret (Some TILEDB_OOM)
      else bind (int_add cnt 1) (fun n =>
           for_loop n (fun i => bind (element src i) (fun v =>
             bind (store_int_at p i v) (fun _ => ret None)))))))
  end w = Some (r, w') ->
  r = Some TILEDB_OOM \/
  r = None /\
  exists p X,
    w_heap w' = shape h0 sch (f p s) (N ++ X) /\
    match o with
    | None => p = NULL
    | Some src =>
        p = Some (length h0 + length N)%nat /\
        (Z.to_nat (cnt + 1) <= length src)%nat /\
        forall s', deref as_ints (shape h0 sch s' (N ++ X)) p
                   = Some (take (Z.to_nat (cnt + 1)) src)
    end.
Proof.
  intros Hs Hh H. destruct o as [src|].
  - apply bind_Some in H as (n & w0 & Hn & H).
    apply int_add_inv in Hn as (-> & -> & _).
    apply (optional_ints_shape f (Some src) (cnt + 1) w r w' h0 sch s N Hs Hh).
    cbv beta iota.
    apply bind_Some in H as (p & w1 & Hm & H). unfold bind at 1. rewrite Hm.
    apply bind_Some in H as (x & w2 & Ha & H). unfold bind at 1. rewrite Ha.
    destruct p as [p|]; [|exact H].
    apply bind_Some in H as (n & w3 & Hn & H).
    by apply int_add_inv in Hn as (-> & -> & _).
  - by apply (optional_ints_shape f None cnt w r w' h0 sch s N Hs Hh).
Qed.

Lemma sanity_check_ctx_inv ctx w st w' :
  sanity_check_ctx ctx w = Some (st, w') -> w' = w.
Proof.
  unfold sanity_check_ctx. destruct ctx as [a|]; [|by intros [= _ <-]].
  intros H. apply bind_Some in H as (c & w1 & Hl & H). apply load_inv in Hl as [_ ->].
  destruct (storage_manager_ c); by injection H as _ <-.
Qed.

Lemma the_string_inv (o : option string) w x w' :
  the_string o w = Some (x, w') -> o = Some x /\ w' = w.
Proof. destruct o; [|discriminate]. by intros [= <- <-]. Qed.

Lemma assign_live sch f w x w' :
  assign (Some sch) f w = Some (x, w') ->
  exists s, block_at (w_heap w) sch = Some (BArraySchema s).
Proof.
  unfold assign. intros H. apply bind_Some in H as (s & w1 & Hl & _).
  apply load_inv in Hl as [Hl _]. cbn in Hl.
  destruct (block_at (w_heap w) sch) as [[]|]; try done. injection Hl as ->. eauto.
Qed.

Ltac fields :=
  cbn [array_name_ attributes_ attribute_num_ capacity_ cell_order_ cell_val_num_
       compressor_ dense_ dimensions_ dim_num_ domain_ tile_extents_ tile_order_
       types_ set_array_name_ set_attributes_ set_attribute_num_ set_capacity_
       set_cell_order_ set_cell_val_num_ set_compressor_ set_dense_
       set_dimensions_ set_dim_num_ set_domain_ set_tile_extents_
       set_tile_order_ set_types_].

Ltac oom H := apply ret_inv in H as [? _]; discriminate.

Ltac solve_prefix :=
  first [ reflexivity | apply prefix_app_r; solve_prefix ].

(** C10.  After a call of tiledb_array_set_schema that returns TILEDB_OK the
    struct holds copies of the arguments: the name, the [attribute_num]
    attribute names, the [dim_num] dimension names, the dense flag, the
    [domain_len] bytes of the domain, the cell order, the tile order and the
    capacity are the ones given; types holds [attribute_num + 1] entries of
    the input, and so does compressor when the input is not null;
    cell_val_num holds [attribute_num] entries when the input is not null;
    tile_extents, cell_val_num and compressor are null exactly when the input
    is null.  Every array of the struct is a block that the call allocated,
    and the call changes no other block than the struct. *)
Theorem C10_set_schema_copies w w' ctx sch array_name attributes
    attribute_num capacity cell_order cell_val_num compression dense dimensions
    dim_num domain domain_len tile_extents tile_extents_len tile_order types :
  tiledb_array_set_schema ctx (Some sch) array_name attributes attribute_num
    capacity cell_order cell_val_num compression dense dimensions dim_num domain
    domain_len tile_extents tile_extents_len tile_order types w
    = Some (TILEDB_OK, w') ->
  let h' := w_heap w' in
  let n := Z.to_nat attribute_num in
  exists s,
    block_at h' sch = Some (BArraySchema s) /\
    (* the copies *)
    deref as_chars h' (array_name_ s) = array_name /\
    attribute_num_ s = attribute_num /\
    strings_at h' (attributes_ s) = Some (take n attributes) /\
    (n <= length attributes)%nat /\
    dim_num_ s = dim_num /\
    strings_at h' (dimensions_ s) = Some (take (Z.to_nat dim_num) dimensions) /\
    (Z.to_nat dim_num <= length dimensions)%nat /\
    dense_ s = dense /\
    deref as_bytes h' (domain_ s) = Some (take (Z.to_nat domain_len) domain) /\
    cell_order_ s = cell_order /\ tile_order_ s = tile_order /\
    capacity_ s = capacity /\
    deref as_ints h' (types_ s) = Some (take (Z.to_nat (attribute_num + 1)) types) /\
    (Z.to_nat (attribute_num + 1) <= length types)%nat /\
    match compression with
    | None => compressor_ s = NULL
    | Some c =>
        deref as_ints h' (compressor_ s) = Some (take (Z.to_nat (attribute_num + 1)) c) /\
        (Z.to_nat (attribute_num + 1) <= length c)%nat
    end /\
    match cell_val_num with
    | None => cell_val_num_ s = NULL
    | Some c => deref as_ints h' (cell_val_num_ s) = Some (take n c) /\
                (n <= length c)%nat
    end /\
    match tile_extents with
    | None => tile_extents_ s = NULL
    | Some te =>
        deref as_bytes h' (tile_extents_ s) = Some (take (Z.to_nat tile_extents_len) te) /\
        (Z.to_nat tile_extents_len <= length te)%nat
    end /\
    (* the copies are blocks of their own *)
    fresh_in w (array_name_ s) /\ fresh_in w (attributes_ s) /\
    fresh_in w (dimensions_ s) /\ fresh_in w (domain_ s) /\ fresh_in w (types_ s) /\
    (exists ptrs, deref as_strings h' (attributes_ s) = Some ptrs /\
                  Forall (fresh_in w) ptrs) /\
    (exists ptrs, deref as_strings h' (dimensions_ s) = Some ptrs /\
                  Forall (fresh_in w) ptrs) /\
    (compressor_ s = NULL \/ fresh_in w (compressor_ s)) /\
    (cell_val_num_ s = NULL \/ fresh_in w (cell_val_num_ s)) /\
    (tile_extents_ s = NULL \/ fresh_in w (tile_extents_ s)) /\
    (forall a b, a <> sch -> block_at (w_heap w) a = Some b -> block_at h' a = Some b).
Proof.
  intros H h' n. unfold tiledb_array_set_schema in H. cbv zeta in H.
  apply bind_Some in H as (sc & w1 & Hsc & H).
  apply sanity_check_ctx_inv in Hsc as ->.
  destruct (negb (ok sc)); [oom H|].
  apply bind_Some in H as (sc2 & w1 & Hsc & H). injection Hsc as <- <-.
  apply bind_Some in H as (failed & w1 & Hsc & H). injection Hsc as <- <-.
  cbv beta iota in H.
  apply bind_Some in H as (name & w1 & Hname & H).
  apply the_string_inv in Hname as [-> ->].
  apply bind_Some in H as (p & w1 & Hm & H).
  apply bind_Some in H as (? & w2 & Ha & H).
  set (h0 := w_heap w).
  assert (exists s0, block_at h0 sch = Some (BArraySchema s0)) as [s0 Hs0].
  { destruct (assign_live _ _ _ _ _ Ha) as [s0 Hs0].
    apply malloc_inv in Hm as [[_ Hh]|[_ Hh]]; rewrite Hh in Hs0; [by eauto|].
    destruct (decide (sch < length (w_heap w))%nat).
    - rewrite block_at_app_l in Hs0 by done. eauto.
    - apply block_at_lt in Hs0 as Hlt. rewrite length_app in Hlt. cbn in Hlt.
      assert (sch = length (w_heap w)) as -> by lia.
      rewrite (block_at_app_new (w_heap w) (BChars "") []) in Hs0. discriminate. }
  assert (sch < length h0)%nat as Hsch by (by eapply block_at_lt).
  assert (w_heap w = shape h0 sch s0 []) as Hh by (by rewrite shape_nil).
  (* the name *)
  apply (malloc_shape _ _ _ _ _ _ _ _ Hh) in Hm as [[-> Hh1]|[-> Hh1]].
  { oom H. }
  apply (assign_shape _ _ _ _ _ _ _ _ Hsch Hh1) in Ha. cbv beta iota in H.
  apply bind_Some in H as (? & w3 & Hst & H).
  apply (store_last_shape _ _ _ _ _ _ _ _ _ Ha) in Hst.
  set (N1 := [] ++ [Some (BChars name)]) in *.
  assert (forall s' N', N1 `prefix_of` N' ->
            deref as_chars (shape h0 sch s' N') (Some (length h0 + 0)%nat)
            = Some name) as Fname.
  { intros s' N' HN.
    apply (deref_shape_mono as_chars _ _ s0 s' N1 _ _ _ (fun _ => eq_refl) Hsch HN).
    cbn [deref]. unfold N1. by rewrite (block_at_shape_last h0 sch s0 []). }
  clear Hh Hh1 Ha w1 w2.
  (* the attributes *)
  apply bind_Some in H as (? & w1 & Ha & H).
  apply (assign_shape _ _ _ _ _ _ _ _ Hsch Hst) in Ha.
  apply bind_Some in H as (p & w2 & Hm & H).
  apply (malloc_array_shape _ _ _ _ _ _ _ _ _ Ha) in Hm as [[-> Hh1]|[-> Hh1]].
  { apply bind_Some in H as (? & w4 & _ & H). oom H. }
  apply bind_Some in H as (? & w4 & Ha2 & H).
  apply (assign_shape _ _ _ _ _ _ _ _ Hsch Hh1) in Ha2. cbv beta iota in H.
  apply bind_Some in H as (r & w5 & Hl & H).
  apply (strings_loop_shape _ _ _ _ _ _ _ _ _ Ha2) in Hl as [->|(-> & Hna & Hh5)].
  { oom H. }
  cbv beta iota in H.
  set (N2 := (N1 ++ _) ++ _) in Hh5.
  assert (forall s' N', N2 `prefix_of` N' ->
            strings_at (shape h0 sch s' N') (Some (length h0 + length N1)%nat)
            = Some (take n attributes)) as Fattrs.
  { intros s' N' HN.
    apply (strings_at_shape_mono _ _ s0 s' N2 _ _ _ Hsch HN). unfold N2.
    rewrite <- (strings_at_shape_new h0 sch s0 N1 (take n attributes)).
    by rewrite length_take_le by done. }
  assert (forall s' N', N2 `prefix_of` N' ->
            exists ptrs, deref as_strings (shape h0 sch s' N')
                           (Some (length h0 + length N1)%nat) = Some ptrs /\
                         Forall (fresh_in w) ptrs) as Fattrs'.
  { intros s' N' HN. eexists. split.
    - apply (deref_shape_mono as_strings _ _ s0 s' N2 _ _ _ (fun _ => eq_refl) Hsch HN).
      cbn [deref]. unfold N2. rewrite <- shape_app.
      rewrite block_at_app_l by (rewrite length_shape, length_app; cbn; lia).
      by rewrite block_at_shape_last.
    - apply Forall_fmap, Forall_forall. intros a Ha'%elem_of_seq.
      exists a. split; [done|]. fold h0. lia. }
  clear Hst Ha Hh1 Ha2 w1 w2 w3 w4.
  (* the dimensions *)
  apply bind_Some in H as (? & w1 & Ha & H).
  apply (assign_shape _ _ _ _ _ _ _ _ Hsch Hh5) in Ha.
  apply bind_Some in H as (p & w2 & Hm & H).
  apply (malloc_array_shape _ _ _ _ _ _ _ _ _ Ha) in Hm as [[-> Hh1]|[-> Hh1]].
  { apply bind_Some in H as (? & w4 & _ & H). oom H. }
  apply bind_Some in H as (? & w4 & Ha2 & H).
  apply (assign_shape _ _ _ _ _ _ _ _ Hsch Hh1) in Ha2. cbv beta iota in H.
  apply bind_Some in H as (r & w6 & Hl & H).
  apply (strings_loop_shape _ _ _ _ _ _ _ _ _ Ha2) in Hl as [->|(-> & Hnd & Hh6)].
  { oom H. }
  cbv beta iota in H.
  set (N3 := (N2 ++ _) ++ _) in Hh6.
  assert (forall s' N', N3 `prefix_of` N' ->
            strings_at (shape h0 sch s' N') (Some (length h0 + length N2)%nat)
            = Some (take (Z.to_nat dim_num) dimensions)) as Fdims.
  { intros s' N' HN.
    apply (strings_at_shape_mono _ _ s0 s' N3 _ _ _ Hsch HN). unfold N3.
    rewrite <- (strings_at_shape_new h0 sch s0 N2 (take (Z.to_nat dim_num) dimensions)).
    by rewrite length_take_le by done. }
  assert (forall s' N', N3 `prefix_of` N' ->
            exists ptrs, deref as_strings (shape h0 sch s' N')
                           (Some (length h0 + length N2)%nat) = Some ptrs /\
                         Forall (fresh_in w) ptrs) as Fdims'.
  { intros s' N' HN. eexists. split.
    - apply (deref_shape_mono as_strings _ _ s0 s' N3 _ _ _ (fun _ => eq_refl) Hsch HN).
      cbn [deref]. unfold N3. rewrite <- shape_app.
      rewrite block_at_app_l by (rewrite length_shape, length_app; cbn; lia).
      by rewrite block_at_shape_last.
    - apply Forall_fmap, Forall_forall. intros a Ha'%elem_of_seq.
      exists a. split; [done|]. fold h0. lia. }
  clear Hh5 Ha Hh1 Ha2 w1 w2 w4 w5.
  (* dense and the domain *)
  apply bind_Some in H as (? & w1 & Ha & H).
  apply (assign_shape _ _ _ _ _ _ _ _ Hsch Hh6) in Ha.
  apply bind_Some in H as (p & w2 & Hm & H).
  apply bind_Some in H as (? & w3 & Ha2 & H).
  apply bind_Some in H as (? & w4 & Hc & H).
  apply (malloc_array_shape _ _ _ _ _ _ _ _ _ Ha) in Hm as [[-> Hh1]|[-> Hh1]].
  { unfold memcpy in Hc. apply bind_Some in Hc as (? & ? & Hl & _).
    by apply load_inv in Hl as [? _]. }
  apply (assign_shape _ _ _ _ _ _ _ _ Hsch Hh1) in Ha2.
  apply (memcpy_last_shape _ _ _ _ _ _ _ _ _ Ha2) in Hc as [Hnb Hh4].
  set (N4 := N3 ++ _) in Hh4.
  assert (forall s' N', N4 `prefix_of` N' ->
            deref as_bytes (shape h0 sch s' N') (Some (length h0 + length N3)%nat)
            = Some (take (Z.to_nat domain_len) domain)) as Fdom.
  { intros s' N' HN.
    apply (deref_shape_mono as_bytes _ _ s0 s' N4 _ _ _ (fun _ => eq_refl) Hsch HN).
    cbn [deref]. unfold N4. by rewrite block_at_shape_last. }
  clear Hh6 Ha Hh1 Ha2 w1 w2 w3 w6.
  (* the tile extents *)
  apply bind_Some in H as (r & w1 & Hte & H).
  apply (optional_bytes_shape set_tile_extents_ _ _ _ _ _ _ _ _ _ Hsch Hh4) in Hte
    as [->|(-> & pte & Xte & Hh1 & Fte)]; [oom H|].
  cbv beta iota in H.
  set (N5 := N4 ++ Xte) in *.
  (* the types *)
  apply bind_Some in H as (n1 & w0 & Hn1 & H).
  apply int_add_inv in Hn1 as (-> & -> & _).
  apply bind_Some in H as (p & w2 & Hm & H).
  apply bind_Some in H as (? & w3 & Ha & H).
  apply (malloc_array_shape _ _ _ _ _ _ _ _ _ Hh1) in Hm as [[-> Hh2]|[-> Hh2]].
  { oom H. }
  apply (assign_shape _ _ _ _ _ _ _ _ Hsch Hh2) in Ha. cbv beta iota in H.
  apply bind_Some in H as (n1 & w0 & Hn1 & H).
  apply int_add_inv in Hn1 as (-> & -> & _).
  apply bind_Some in H as (r & w5 & Hl & H).
  apply (ints_loop_shape _ _ _ _ _ _ _ _ _ Ha) in Hl as (-> & Hnt & Hh5).
  set (N6 := N5 ++ _) in Hh5.
  assert (forall s' N', N6 `prefix_of` N' ->
            deref as_ints (shape h0 sch s' N') (Some (length h0 + length N5)%nat)
            = Some (take (Z.to_nat (attribute_num + 1)) types)) as Ftypes.
  { intros s' N' HN.
    apply (deref_shape_mono as_ints _ _ s0 s' N6 _ _ _ (fun _ => eq_refl) Hsch HN).
    cbn [deref]. unfold N6. by rewrite block_at_shape_last. }
  clear Hh4 Hh1 Hh2 Ha w1 w2 w3 w4.
  (* cell_val_num *)
  apply bind_Some in H as (r & w1 & Hcv & H).
  apply (optional_ints_shape set_cell_val_num_ _ _ _ _ _ _ _ _ _ Hsch Hh5) in Hcv
    as [->|(-> & pcv & Xcv & Hh1 & Fcv)]; [oom H|].
  cbv beta iota in H.
  set (N7 := N6 ++ Xcv) in *.
  (* cell order, tile order, capacity *)
  apply bind_Some in H as (? & w2 & Ha & H).
  apply (assign_shape _ _ _ _ _ _ _ _ Hsch Hh1) in Ha.
  apply bind_Some in H as (? & w3 & Ha2 & H).
  apply (assign_shape _ _ _ _ _ _ _ _ Hsch Ha) in Ha2.
  apply bind_Some in H as (? & w4 & Ha3 & H).
  apply (assign_shape _ _ _ _ _ _ _ _ Hsch Ha2) in Ha3.
  (* the compressors *)
  apply bind_Some in H as (r & w6 & Hcm & H).
  apply (compressors_shape set_compressor_ _ _ _ _ _ _ _ _ _ Hsch Ha3) in Hcm
    as [->|(-> & pcm & Xcm & Hh6 & Fcm)]; [oom H|].
  cbv beta iota in H. apply ret_inv in H as [_ <-].
  set (N8 := N7 ++ Xcm) in *.
  clear Hh5 Hh1 Ha Ha2 Ha3 w1 w2 w3 w4 w5.
  (* the result *)
  eexists. unfold h'. rewrite Hh6.
  split; [by apply block_at_shape_sch|]. fields.
  split; [apply Fname; unfold N8, N7, N6, N5, N4, N3, N2; solve_prefix|].
  split; [done|].
  split; [apply Fattrs; unfold N8, N7, N6, N5, N4, N3; solve_prefix|].
  split; [done|]. split; [done|].
  split; [apply Fdims; unfold N8, N7, N6, N5, N4; solve_prefix|].
  split; [done|]. split; [done|].
  split; [apply Fdom; unfold N8, N7, N6, N5; solve_prefix|].
  split; [done|]. split; [done|]. split; [done|].
  split; [apply Ftypes; unfold N8, N7; solve_prefix|].
  split; [done|].
  split.
  { destruct compression as [c|]; [|done]. destruct Fcm as (-> & Hc & Fcm).
    split; [|done]. apply Fcm. }
  split.
  { destruct cell_val_num as [c|]; [|done]. destruct Fcv as (-> & Hc & Fcv).
    split; [|done].
    apply (deref_shape_mono as_ints _ _ s0 _ N7 _ _ _ (fun _ => eq_refl) Hsch);
      [unfold N8; solve_prefix|]. apply Fcv. }
  split.
  { destruct tile_extents as [te|]; [|done]. destruct Fte as (-> & Hc & Fte).
    split; [|done].
    apply (deref_shape_mono as_bytes _ _ s0 _ N5 _ _ _ (fun _ => eq_refl) Hsch);
      [unfold N8, N7, N6; solve_prefix|]. apply Fte. }
  assert (forall k, fresh_in w (Some (length h0 + k)%nat)) as Hfresh.
  { intros k. exists (length h0 + k)%nat. split; [done|]. fold h0. lia. }
  do 5 (split; [apply Hfresh|]).
  split; [apply Fattrs'; unfold N8, N7, N6, N5, N4, N3; solve_prefix|].
  split; [apply Fdims'; unfold N8, N7, N6, N5, N4; solve_prefix|].
  split. { destruct compression; [right; destruct Fcm as (-> & _); apply Hfresh|by left]. }
  split. { destruct cell_val_num; [right; destruct Fcv as (-> & _); apply Hfresh|by left]. }
  split. { destruct tile_extents; [right; destruct Fte as (-> & _); apply Hfresh|by left]. }
  intros a b Hne Hb. apply (block_at_shape_mono h0 sch s0 _ [] _ a b); [|done|].
  - apply prefix_nil.
  - by rewrite shape_nil.
Qed.

End SchemaFacts.

(** ** The read path *)

Section ReadFacts.
Import ReadPath.
Implicit Types (caps : list Z) (bufs : list (list Z)) (cells : list (list (list Z))).

Lemma foldl_append_cell cells bufs :
  foldl append_cell bufs cells = imap (fun i b => b ++ packed cells i) bufs.
Proof.
  revert bufs. induction cells as [|c cells IH]; intros bufs; cbn.
  - apply list_eq. intros i. rewrite list_lookup_imap.
    destruct (bufs !! i); cbn; [|done]. unfold packed. cbn. by rewrite app_nil_r.
  - rewrite IH. apply list_eq. intros i. unfold append_cell.
    rewrite !list_lookup_imap. destruct (bufs !! i); cbn; [|done].
    unfold packed. cbn. by rewrite app_assoc.
Qed.

Lemma emit_spec caps cells bufs :
  exists n : nat,
    (n <= length cells)%nat /\
    (emit caps bufs cells).2 = drop n cells /\
    (emit caps bufs cells).1 = foldl append_cell bufs (take n cells) /\
    (forall c, cells !! n = Some c ->
       existsb id (exceeded caps (emit caps bufs cells).1 c) = true).
Proof.
  revert bufs. induction cells as [|c cells IH]; intros bufs; cbn.
  - exists 0%nat. repeat split; [lia|]. intros c; discriminate.
  - destruct (existsb id (exceeded caps bufs c)) eqn:E.
    + exists 0%nat. cbn. repeat split; [lia|]. by intros c' [= <-].
    + destruct (IH (append_cell bufs c)) as (n & Hn & Hr & Hb & Hc).
      exists (S n). cbn. repeat split; [lia|done..].
Qed.

Lemma emitted_spec caps cells :
  let n := emitted caps cells in
  let r := emit caps (replicate (length caps) []) cells in
  (n <= length cells)%nat /\ r.2 = drop n cells /\
  r.1 = buffers_of caps (take n cells) /\
  (forall c, cells !! n = Some c -> existsb id (exceeded caps r.1 c) = true).
Proof.
  cbn. destruct (emit_spec caps cells (replicate (length caps) []))
    as (n & Hn & Hr & Hb & Hc).
  assert (emitted caps cells = n) as ->.
  { unfold emitted. rewrite Hr, length_drop. lia. }
  repeat split; [done..| |done].
  rewrite Hb, foldl_append_cell. unfold buffers_of.
  apply list_eq. intros i. rewrite !list_lookup_imap.
  destruct (decide (i < length caps)%nat) as [Hi|Hi].
  - rewrite lookup_replicate_2 by done.
    destruct (lookup_lt_is_Some_2 caps i Hi) as [cap ->]. done.
  - rewrite (proj1 (lookup_replicate_None _ _ _)) by lia.
    by rewrite lookup_ge_None_2 by lia.
Qed.

Lemma buffers_of_lookup caps cells i cap :
  caps !! i = Some cap -> buffers_of caps cells !! i = Some (packed cells i).
Proof. intros H. unfold buffers_of. by rewrite list_lookup_imap, H. Qed.

Lemma exceeded_lookup caps bufs c i cap :
  caps !! i = Some cap ->
  exceeded caps bufs c !! i =
    Some (cap <? Z.of_nat (length (default [] (bufs !! i)) + length (value c i))).
Proof. intros H. unfold exceeded. by rewrite list_lookup_imap, H. Qed.

Lemma existsb_exceeded caps bufs c :
  existsb id (exceeded caps bufs c) = true ->
  exists i cap, caps !! i = Some cap /\
    cap < Z.of_nat (length (default [] (bufs !! i)) + length (value c i)).
Proof.
  intros H. apply existsb_exists in H as (b & Hin & Hb). unfold id in Hb. subst b.
  apply list_elem_of_In, list_elem_of_lookup in Hin as [i Hi].
  assert (is_Some (caps !! i)) as [cap Hcap].
  { apply lookup_lt_is_Some. apply lookup_lt_Some in Hi.
    unfold exceeded in Hi. by rewrite length_imap in Hi. }
  exists i, cap. split; [done|].
  rewrite (exceeded_lookup _ bufs c _ _ Hcap) in Hi. injection Hi as Hi.
  by apply Z.ltb_lt.
Qed.

End ReadFacts.

Section ReadClaim.

Import ReadPath.

(** C2.  For a valid handle of an array that is open for reading, a call of
    tiledb_array_read whose buffers cannot hold all the cells that are left
    returns TILEDB_OK, which is not TILEDB_ERR, with the cells that fit, and
    stores no error in the context; the next cell exceeds the buffer of at
    least one attribute, and tiledb_array_overflow returns 1 for exactly the
    attributes whose buffer the next cell exceeds; a further call of
    tiledb_array_read on the handle returns the cells from the first one that
    was not returned. *)
Theorem C2_overflow_resume verdict (w : world (read_engine verdict)) t arr cx a caps bufs :
  array_at w t arr cx -> ctx_at w cx ->
  open_array verdict w arr a -> reading a = true ->
  let cells := cursor a in
  let n := emitted caps cells in
  (n < length cells)%nat ->
  exists w1 sizes next,
    tiledb_array_read (Some t) bufs caps w =
      Some ((TILEDB_OK, (buffers_of caps (take n cells), sizes)), w1) /\
    TILEDB_OK <> TILEDB_ERR /\
    stored_error w1 (Some cx) = stored_error w (Some cx) /\
    cells !! n = Some next /\
    (exists i cap, caps !! i = Some cap /\
       cap < Z.of_nat (length (packed (take n cells) i) + length (value next i))) /\
    (forall i cap, caps !! i = Some cap ->
       tiledb_array_overflow (Some t) (Z.of_nat i) w1 =
         Some (Z.b2z (cap <? Z.of_nat (length (packed (take n cells) i)
                                       + length (value next i))), w1)) /\
    (forall bufs2 caps2,
       let rest := drop n cells in
       let n2 := emitted caps2 rest in
       exists w2 sizes2,
         tiledb_array_read (Some t) bufs2 caps2 w1 =
           Some ((TILEDB_OK, (buffers_of caps2 (take n2 rest), sizes2)), w2)).
Proof.
  intros Ht Hcx Ha Hr cells n Hn. open_facts. unfold open_array in Ha.
  destruct (emitted_spec caps cells) as (_ & Hrest & Hbufs & Hexc).
  fold n in Hrest, Hbufs, Hexc.
  destruct (lookup_lt_is_Some_2 cells n Hn) as [next Hnext].
  pose proof (Hexc next Hnext) as Hex. rewrite Hbufs in Hex.
  set (a1 := {| reading := true; mode := mode a; cursor := drop n cells;
                overflow := exceeded caps (buffers_of caps (take n cells)) next |}).
  set (w1 := with_engine w (<[arr := a1]> (w_engine w : gmap obj array))).
  assert (forall (w' : world (read_engine verdict)) (x : array) bufs' caps',
            w_heap w' = w_heap w ->
            (w_engine w' : gmap obj array) !! arr = Some x -> reading x = true ->
            tiledb_array_read (Some t) bufs' caps' w' =
              Some ((TILEDB_OK, (read x caps').1.2),
                    with_engine w' (<[arr := (read x caps').2]>
                                      (w_engine w' : gmap obj array)))) as Hread.
  { intros w' x' bufs' caps' Hh Hx Hrx.
    rewrite <- Hh in *. unfold_api. repeat (cbn || heap_step).
    unfold ReadPath.Array_read. rewrite Hx. unfold read. rewrite Hrx.
    repeat (cbn || heap_step). reflexivity. }
  assert (read a caps = ((Status_Ok, (buffers_of caps (take n cells),
                                      (fun b : list Z => Z.of_nat (length b)) <$>
                                        buffers_of caps (take n cells))), a1)) as Hra.
  { unfold read. rewrite Hr. fold cells. rewrite Hrest, Hbufs.
    unfold a1. by rewrite (drop_S _ _ _ Hnext). }
  exists w1, ((fun b : list Z => Z.of_nat (length b)) <$>
               buffers_of caps (take n cells)), next.
  split; [by rewrite (Hread w a bufs caps eq_refl Ha Hr), Hra|].
  split; [done|].
  split; [done|].
  split; [done|].
  split.
  { apply existsb_exceeded in Hex as (i & cap & Hcap & Hlt).
    exists i, cap. split; [done|].
    by rewrite (buffers_of_lookup _ (take n cells) _ _ Hcap) in Hlt. }
  split.
  { intros i cap Hcap. unfold_api; repeat (cbn || heap_step).
    unfold ReadPath.Array_overflow. rewrite lookup_insert_eq. cbn.
    destruct (Z.ltb_spec (Z.of_nat i) 0); [lia|]. rewrite Nat2Z.id.
    rewrite (exceeded_lookup _ _ next _ _ Hcap).
    by rewrite (buffers_of_lookup _ (take n cells) _ _ Hcap). }
  intros bufs2 caps2. cbn zeta.
  set (rest := drop n cells). set (n2 := emitted caps2 rest).
  destruct (emitted_spec caps2 rest) as (_ & _ & Hbufs2 & _). fold n2 in Hbufs2.
  eexists _, _.
  rewrite (Hread w1 a1 bufs2 caps2 eq_refl (lookup_insert_eq _ _ _) eq_refl).
  unfold read. cbn [reading cursor a1 fst snd]. fold rest. by rewrite Hbufs2.
Qed.

End ReadClaim.

(** ** Contexts, configurations, errors and handles *)

Section Handles.

Context {engine : Engine}.
Implicit Types (w : world engine) (h : heap) (a t : addr).

(** Addresses outside the heap, and freed blocks. *)
Lemma block_at_ge h a : (length h <= a)%nat -> block_at h a = None.
Proof. intros H. unfold block_at. by rewrite lookup_ge_None_2. Qed.

Lemma block_at_snoc_ne h x a :
  a <> length h -> block_at (h ++ [x]) a = block_at h a.
Proof.
  intros H. destruct (decide (a < length h)%nat).
  - by apply block_at_app_l.
  - rewrite !block_at_ge; [done|lia|rewrite length_app; cbn; lia].
Qed.

Lemma block_at_kill h a : block_at (<[a := None]> h) a = None.
Proof.
  unfold block_at. destruct (decide (a < length h)%nat).
  - by rewrite list_lookup_insert_eq.
  - by rewrite lookup_ge_None_2 by (rewrite length_insert; lia).
Qed.

Lemma block_at_app_dead h l : block_at (h ++ None :: l) (length h) = None.
Proof. unfold block_at. by rewrite list_lookup_middle. Qed.

Ltac dead := rewrite ?block_at_kill, ?block_at_app_dead.

(** The results of the engine operations that a statement names are given
    names before the execution, which then rewrites with their equations. *)
Ltac engine_pre :=
  repeat match goal with
  | |- context [@fst _ _ ?op] =>
      lazymatch op with
      | (_, _) => fail
      | context [@fst _ _ _] => fail
      | context [@snd _ _ _] => fail
      | _ => let E := fresh "E" in destruct op eqn:E; cbn [fst snd] in *
      end
  | |- context [@snd _ _ ?op] =>
      lazymatch op with
      | (_, _) => fail
      | context [@fst _ _ _] => fail
      | context [@snd _ _ _] => fail
      | _ => let E := fresh "E" in destruct op eqn:E; cbn [fst snd] in *
      end
  end.

Ltac eq_step :=
  match goal with
  | H : ?op = (_, _) |- context [?op] => rewrite H
  end.

Ltac xexec := repeat (cbn || heap_step || eq_step || engine_step).

Ltac unfold_config :=
  unfold tiledb_config_create, tiledb_config_free, tiledb_config_set_read_method,
    tiledb_config_set_write_method in *.

(** Blocks that a call leaves alone. *)
Ltac frame :=
  intros;
  repeat first
    [ rewrite block_at_insert_ne by congruence
    | rewrite block_at_snoc_ne by congruence ];
  try done.



Lemma sanity_check_ctx_invalid w ctx :
  invalid_ctx w ctx ->
  sanity_check_ctx ctx w = Some (Status_Error "Invalid TileDB context", w).
Proof.
  intros [->|(a & c & -> & Hc & Hsm)]; [done|].
  unfold_api; by exec.
Qed.

(** X1.  Each function that takes a context and checks it returns TILEDB_ERR
    when the context pointer is null or the context has no storage manager;
    the world (heap, engine, pointer variables of the caller) is the one from
    before: nothing is allocated, no error is recorded, the engine is not
    called. *)
Theorem X1_invalid_context w ctx :
  invalid_ctx w ctx ->
  (forall group, tiledb_group_create ctx group w = Some (TILEDB_ERR, w)) /\
  (forall name, tiledb_basic_array_create ctx name w = Some (TILEDB_ERR, w)) /\
  (forall sch array_name attributes attribute_num capacity cell_order cell_val_num
          compression dense dimensions dim_num domain domain_len tile_extents
          tile_extents_len tile_order types,
     tiledb_array_set_schema ctx sch array_name attributes attribute_num capacity
       cell_order cell_val_num compression dense dimensions dim_num domain
       domain_len tile_extents tile_extents_len tile_order types w
     = Some (TILEDB_ERR, w)) /\
  (forall array_schema, tiledb_array_create ctx array_schema w = Some (TILEDB_ERR, w)) /\
  (forall out array mode subarray attributes attribute_num,
     tiledb_array_init ctx out array mode subarray attributes attribute_num w
     = Some (TILEDB_ERR, w)) /\
  (forall array sch, tiledb_array_load_schema ctx array sch w = Some (TILEDB_ERR, w)) /\
  (forall array, tiledb_array_consolidate ctx array w = Some (TILEDB_ERR, w)) /\
  (forall out array mode subarray attributes attribute_num buffers buffer_sizes,
     tiledb_array_iterator_init ctx out array mode subarray attributes
       attribute_num buffers buffer_sizes w = Some (TILEDB_ERR, w)) /\
  (forall sch metadata_name attributes attribute_num capacity cell_val_num
          compression types,
     tiledb_metadata_set_schema ctx sch metadata_name attributes attribute_num
       capacity cell_val_num compression types w = Some (TILEDB_ERR, w)) /\
  (forall metadata_schema,
     tiledb_metadata_create ctx metadata_schema w = Some (TILEDB_ERR, w)) /\
  (forall out metadata mode attributes attribute_num,
     tiledb_metadata_init ctx out metadata mode attributes attribute_num w
     = Some (TILEDB_ERR, w)) /\
  (forall metadata sch,
     tiledb_metadata_load_schema ctx metadata sch w = Some (TILEDB_ERR, w)) /\
  (forall metadata, tiledb_metadata_consolidate ctx metadata w = Some (TILEDB_ERR, w)) /\
  (forall out metadata attributes attribute_num buffers buffer_sizes,
     tiledb_metadata_iterator_init ctx out metadata attributes attribute_num
       buffers buffer_sizes w = Some (TILEDB_ERR, w)) /\
  (forall dir, tiledb_clear ctx dir w = Some (TILEDB_ERR, w)) /\
  (forall dir, tiledb_delete ctx dir w = Some (TILEDB_ERR, w)) /\
  (forall old_dir new_dir, tiledb_move ctx old_dir new_dir w = Some (TILEDB_ERR, w)) /\
  (forall parent_dir dirs dir_types dir_num,
     tiledb_ls ctx parent_dir dirs dir_types dir_num w
     = Some ((TILEDB_ERR, (dirs, dir_types, dir_num)), w)) /\
  (forall parent_dir dir_num,
     tiledb_ls_c ctx parent_dir dir_num w = Some ((TILEDB_ERR, dir_num), w)).
Proof.
  intros H. apply sanity_check_ctx_invalid in H as Hs.
  repeat split; intros;
    unfold tiledb_group_create, tiledb_basic_array_create, tiledb_array_set_schema,
      tiledb_array_create, tiledb_array_init, tiledb_array_load_schema,
      tiledb_array_consolidate, tiledb_array_iterator_init,
      tiledb_metadata_set_schema, tiledb_metadata_create, tiledb_metadata_init,
      tiledb_metadata_load_schema, tiledb_metadata_consolidate,
      tiledb_metadata_iterator_init, tiledb_clear, tiledb_delete, tiledb_move,
      tiledb_ls, tiledb_ls_c, bind; by rewrite Hs.
Qed.

(** X2.  tiledb_dir_type tests the context pointer only: for the null
    pointer it returns TILEDB_ERR and changes nothing; a context without
    storage manager, which the sanity check of the other functions refuses,
    is dereferenced, which is undefined. *)
Theorem X2_dir_type_unchecked w (dir : cstr) :
  tiledb_dir_type NULL dir w = Some (TILEDB_ERR, w) /\
  forall a c,
    block_at (w_heap w) a = Some (BCtx c) -> storage_manager_ c = None ->
    sanity_check_ctx (Some a) w = Some (Status_Error "Invalid TileDB context", w) /\
    tiledb_dir_type (Some a) dir w = None.
Proof.
  split; [done|]. intros a c Hc Hsm. split.
  - apply sanity_check_ctx_invalid. right. eauto.
  - unfold_api; by exec.
Qed.

Lemma sanity_check_array_it_invalid w p :
  invalid_array_it w p ->
  sanity_check_array_it p w = Some (Status_Error "Invalid TileDB array iterator", w).
Proof.
  intros [->|(t & [it cx] & -> & Hx & Hnull)]; [done|]. cbn in Hnull.
  unfold_api; exec. destruct Hnull as [->| ->]; [done|]. by destruct it.
Qed.

(** X3.  Each array iterator function returns TILEDB_ERR when the iterator
    handle is null, or its iterator pointer is null, or its context pointer
    is null, and leaves the world as it is. *)
Theorem X3_invalid_array_iterator w tiledb_array_it :
  invalid_array_it w tiledb_array_it ->
  (forall attribute_id value value_size,
     tiledb_array_iterator_get_value tiledb_array_it attribute_id value value_size w
     = Some ((TILEDB_ERR, (value, value_size)), w)) /\
  tiledb_array_iterator_next tiledb_array_it w = Some (TILEDB_ERR, w) /\
  tiledb_array_iterator_end tiledb_array_it w = Some (TILEDB_ERR, w) /\
  tiledb_array_iterator_finalize tiledb_array_it w = Some (TILEDB_ERR, w).
Proof.
  intros H. apply sanity_check_array_it_invalid in H as Hs.
  repeat split; intros;
    unfold tiledb_array_iterator_get_value, tiledb_array_iterator_next,
      tiledb_array_iterator_end, tiledb_array_iterator_finalize, bind;
    by rewrite Hs.
Qed.

Lemma sanity_check_metadata_invalid w p :
  invalid_metadata w p ->
  sanity_check_metadata p w = Some (Status_Error "Invalid TileDB metadata", w).
Proof.
  intros [->|(t & [md cx] & -> & Hx & Hnull)]; [done|]. cbn in Hnull.
  unfold_api; exec. destruct Hnull as [->| ->]; [done|]. by destruct md.
Qed.

(** X4.  Each metadata function that takes a handle returns TILEDB_ERR when
    the handle is null, or its metadata pointer is null, or its context
    pointer is null, and leaves the world as it is. *)
Theorem X4_invalid_metadata w tiledb_metadata :
  invalid_metadata w tiledb_metadata ->
  (forall attributes attribute_num,
     tiledb_metadata_reset_attributes tiledb_metadata attributes attribute_num w
     = Some (TILEDB_ERR, w)) /\
  (forall sch, tiledb_metadata_get_schema tiledb_metadata sch w = Some (TILEDB_ERR, w)) /\
  (forall keys keys_size buffers buffer_sizes,
     tiledb_metadata_write tiledb_metadata keys keys_size buffers buffer_sizes w
     = Some (TILEDB_ERR, w)) /\
  (forall key buffers buffer_sizes,
     tiledb_metadata_read tiledb_metadata key buffers buffer_sizes w
     = Some ((TILEDB_ERR, (buffers, buffer_sizes)), w)) /\
  (forall attribute_id,
     tiledb_metadata_overflow tiledb_metadata attribute_id w = Some (TILEDB_ERR, w)) /\
  tiledb_metadata_finalize tiledb_metadata w = Some (TILEDB_ERR, w).
Proof.
  intros H. apply sanity_check_metadata_invalid in H as Hs.
  repeat split; intros;
    unfold tiledb_metadata_reset_attributes, tiledb_metadata_get_schema,
      tiledb_metadata_write, tiledb_metadata_read, tiledb_metadata_overflow,
      tiledb_metadata_finalize, bind;
    by rewrite Hs.
Qed.

Lemma sanity_check_metadata_it_invalid w p :
  invalid_metadata_it w p ->
  sanity_check_metadata_it p w =
    Some (Status_Error "Invalid TileDB metadata iterator", w).
Proof.
  intros [->|(t & [it cx] & -> & Hx & Hnull)]; [done|]. cbn in Hnull.
  unfold_api; exec. destruct Hnull as [->| ->]; [done|]. by destruct it.
Qed.

(** X5.  Each metadata iterator function returns TILEDB_ERR when the
    iterator handle is null, or its iterator pointer is null, or its context
    pointer is null, and leaves the world as it is. *)
Theorem X5_invalid_metadata_iterator w tiledb_metadata_it :
  invalid_metadata_it w tiledb_metadata_it ->
  (forall attribute_id value value_size,
     tiledb_metadata_iterator_get_value tiledb_metadata_it attribute_id value
       value_size w = Some ((TILEDB_ERR, (value, value_size)), w)) /\
  tiledb_metadata_iterator_next tiledb_metadata_it w = Some (TILEDB_ERR, w) /\
  tiledb_metadata_iterator_end tiledb_metadata_it w = Some (TILEDB_ERR, w) /\
  tiledb_metadata_iterator_finalize tiledb_metadata_it w = Some (TILEDB_ERR, w).
Proof.
  intros H. apply sanity_check_metadata_it_invalid in H as Hs.
  repeat split; intros;
    unfold tiledb_metadata_iterator_get_value, tiledb_metadata_iterator_next,
      tiledb_metadata_iterator_end, tiledb_metadata_iterator_finalize, bind;
    by rewrite Hs.
Qed.

(** X6.  When malloc and the configurator constructor succeed,
    tiledb_config_create returns a new struct that holds the configurator;
    the two setters on it return TILEDB_OK and pass the value to that
    configurator without touching the heap; tiledb_config_free on it returns
    TILEDB_OK, deletes the configurator and frees the struct, every other
    block is as before the creation; after that, freeing or using the struct
    again is undefined. *)
Theorem X6_config_life_cycle w o e1 :
  malloc_succeeds w -> Configurator_new (w_engine w) = (Some o, e1) ->
  let c := length (w_heap w) in
  exists w1,
    tiledb_config_create w = Some (Some c, w1) /\
    w_heap w1 = w_heap w ++ [Some (BConfig {| config_ := Some o |})] /\
    w_engine w1 = e1 /\
    (forall v, tiledb_config_set_read_method (Some c) v w1 =
       Some (TILEDB_OK, with_engine w1 (Configurator_set_read_method o v e1))) /\
    (forall v, tiledb_config_set_write_method (Some c) v w1 =
       Some (TILEDB_OK, with_engine w1 (Configurator_set_write_method o v e1))) /\
    exists w2,
      tiledb_config_free (Some c) w1 = Some (TILEDB_OK, w2) /\
      w_engine w2 = Configurator_delete o e1 /\
      block_at (w_heap w2) c = None /\
      (forall a, a <> c -> block_at (w_heap w2) a = block_at (w_heap w) a) /\
      tiledb_config_free (Some c) w2 = None /\
      (forall v, tiledb_config_set_read_method (Some c) v w2 = None) /\
      (forall v, tiledb_config_set_write_method (Some c) v w2 = None).
Proof.
  intros Hm Hn c; subst c. unfold_config. unfold_api.
  repeat (cbn || heap_step). rewrite Hn. exec.
  eexists. split; [reflexivity|]. exec. split; [done|]. split; [done|].
  split; [intros; by exec|]. split; [intros; by exec|].
  eexists. split; [reflexivity|]. exec. split; [done|].
  dead. split; [done|].
  split; [|done]. frame.
Qed.

(** X7.  When malloc fails, tiledb_config_create returns the null pointer
    and allocates nothing.  The setters return TILEDB_ERR for the null
    pointer and for a struct without configurator, and change nothing;
    tiledb_config_free on a struct without configurator frees the struct
    without a call to the engine. *)
Theorem X7_config_refusals w c rest :
  w_oom w = true :: rest ->
  block_at (w_heap w) c = Some (BConfig {| config_ := None |}) ->
  tiledb_config_create w =
    Some (NULL, {| w_heap := w_heap w; w_oom := rest; w_engine := w_engine w |}) /\
  (forall v, tiledb_config_set_read_method NULL v w = Some (TILEDB_ERR, w)) /\
  (forall v, tiledb_config_set_write_method NULL v w = Some (TILEDB_ERR, w)) /\
  (forall v, tiledb_config_set_read_method (Some c) v w = Some (TILEDB_ERR, w)) /\
  (forall v, tiledb_config_set_write_method (Some c) v w = Some (TILEDB_ERR, w)) /\
  tiledb_config_free (Some c) w =
    Some (TILEDB_OK, with_heap w (<[c := None]> (w_heap w))).
Proof.
  intros Hoom Hc. unfold_config. unfold_api.
  repeat split; intros; by exec.
Qed.

(** X8.  When malloc succeeds, tiledb_ctx_init stores a new context in the
    pointer variable of the caller whether or not StorageManager::init
    succeeds; the context holds the new storage manager, and no other block
    changes.  tiledb_ctx_finalize on it finalizes and deletes the storage
    manager and frees the context: afterwards only the pointer variable
    differs from the heap before tiledb_ctx_init, and finalizing or using the
    context again is undefined. *)
Theorem X8_ctx_life_cycle w out tiledb_config config :
  ptr_at w out -> malloc_succeeds w -> config_arg w tiledb_config config ->
  let c := length (w_heap w) in
  let sm := StorageManager_new (w_engine w) in
  let r := sm_init sm.1 config sm.2 in
  let f := sm_finalize sm.1 r.2 in
  exists w1 w2,
    tiledb_ctx_init (Some out) tiledb_config w =
      Some (if ok r.1 then TILEDB_OK else TILEDB_ERR, w1) /\
    block_at (w_heap w1) out = Some (BPtr (Some c)) /\
    live_ctx w1 c sm.1 /\
    w_engine w1 = r.2 /\
    (forall a, a <> out -> a <> c -> block_at (w_heap w1) a = block_at (w_heap w) a) /\
    tiledb_ctx_finalize (Some c) w1 =
      Some (if ok f.1 then TILEDB_OK else TILEDB_ERR, w2) /\
    w_engine w2 = StorageManager_delete sm.1 f.2 /\
    block_at (w_heap w2) c = None /\
    (forall a, a <> out -> a <> c -> block_at (w_heap w2) a = block_at (w_heap w) a) /\
    tiledb_ctx_finalize (Some c) w2 = None /\
    (forall group, tiledb_group_create (Some c) group w2 = None).
Proof.
  intros Hout Hm Hc c; subst c. cbn zeta. open_facts.
  destruct Hc as [[-> ->]|(k & kc & -> & Hk & ->)]; engine_pre; unfold_api; xexec;
    split_ok; xexec; (eexists _, _; split; [reflexivity|]); xexec;
    (split; [done|]); (split; [unfold live_ctx; exec; by eauto|]);
    (split; [done|]); (split; [frame|]);
    (split; [reflexivity|]); xexec; (split; [done|]);
    dead; (split; [done|]); (split; [frame|]); done.
Qed.


(** X9.  An error object obtained from tiledb_error_last is a copy: a later
    call that fails and replaces the last error of the context leaves the
    error object, with the status in it, as it is.  This holds for each of
    the functions that pass the status of an engine operation to
    save_error. *)
Theorem X9_error_snapshot w f cx st e st1 :
  dispatches w f cx st -> ok st = false ->
  block_at (w_heap w) e = Some (BError {| status_ := Some st1 |}) ->
  exists code w',
    f w = Some (code, w') /\
    stored_error w' (Some cx) = Some (Some st) /\
    block_at (w_heap w') e = Some (BError {| status_ := Some st1 |}).
Proof.
  intros H Hst He.
  destruct H; open_facts; engine_pre; unfold_api; cbn in *; xexec.
  all: try (rewrite Hst; xexec).
  all: try (eexists _, _; split; [reflexivity|]; xexec; split; [done|]; by xexec).
Qed.

(** X10.  For a context that stores an error, tiledb_error_last allocates
    one new block with a copy of the status.  tiledb_error_message on it
    returns the empty string literal when the status is ok; for a failure
    status it returns c_str() of the temporary string that to_string()
    built, which is destroyed by then: the pointer dangles and there is
    nothing to read through it.  tiledb_error_free returns TILEDB_OK and
    frees the block, leaving every other block and the engine as before;
    using or freeing the error object again is undefined. *)
Theorem X10_error_object w a c st :
  block_at (w_heap w) a = Some (BCtx c) -> last_error_ c = Some st ->
  malloc_succeeds w ->
  let e := length (w_heap w) in
  exists w1 w2,
    tiledb_error_last (Some a) w = Some (Some e, w1) /\
    w_heap w1 = w_heap w ++ [Some (BError {| status_ := Some st |})] /\
    tiledb_error_message (Some e) w1 =
      Some (if ok st then Literal "" else Dangling, w1) /\
    (ok st = false ->
     exists q, tiledb_error_message (Some e) w1 = Some (q, w1) /\
               read_chars q = None) /\
    tiledb_error_free (Some e) w1 = Some (TILEDB_OK, w2) /\
    block_at (w_heap w2) e = None /\
    (forall x, x <> e -> block_at (w_heap w2) x = block_at (w_heap w) x) /\
    w_engine w2 = w_engine w /\
    tiledb_error_message (Some e) w2 = None /\
    tiledb_error_free (Some e) w2 = None.
Proof.
  intros Hc Hst Hm e; subst e. unfold_api; xexec. rewrite Hst. xexec.
  eexists _, _. split; [reflexivity|]. xexec. split; [done|].
  split; [by destruct (ok st)|].
  split; [intros ->; by eexists|].
  split; [reflexivity|]. xexec. dead.
  split; [done|]. split; [frame|]. done.
Qed.

(** X11.  The result of malloc is not tested in tiledb_error_last,
    tiledb_array_aio_read and tiledb_array_aio_write: when the allocation
    fails they write through the null pointer, which is undefined, instead of
    returning an error. *)
Theorem X11_unchecked_malloc w rest :
  w_oom w = true :: rest ->
  (forall a c st,
     block_at (w_heap w) a = Some (BCtx c) -> last_error_ c = Some st ->
     tiledb_error_last (Some a) w = None) /\
  (forall t arr cx r,
     array_at w t arr cx ->
     tiledb_array_aio_read (Some t) r w = None /\
     tiledb_array_aio_write (Some t) r w = None).
Proof.
  intros Hoom. split.
  - intros a c st Hc Hst. unfold_api; xexec. rewrite Hst. by xexec.
  - intros t arr cx r Ht. open_facts. unfold_api; xexec.
    destruct r as [r|]; [|done]. by destruct (block_at (w_heap w) r) as [[]|].
Qed.

(** X12.  When the engine fails to open the object, tiledb_array_init,
    tiledb_array_iterator_init, tiledb_metadata_init and
    tiledb_metadata_iterator_init return TILEDB_ERR, record the status of the
    engine in the context and free the new handle, but leave its address in
    the pointer variable of the caller: the variable dangles, and finalizing
    through it is undefined. *)
Theorem X12_init_failure w a sm out :
  live_ctx w a sm -> ptr_at w out -> malloc_succeeds w ->
  let m := length (w_heap w) in
  (forall array mode subarray attributes attribute_num,
     let r := sm_array_init sm array mode subarray attributes attribute_num
                (w_engine w) in
     ok r.1.1 = false ->
     exists w',
       tiledb_array_init (Some a) (Some out) array mode subarray attributes
         attribute_num w = Some (TILEDB_ERR, w') /\
       stored_error w' (Some a) = Some (Some r.1.1) /\
       block_at (w_heap w') out = Some (BPtr (Some m)) /\
       block_at (w_heap w') m = None /\
       tiledb_array_finalize (Some m) w' = None) /\
  (forall array mode subarray attributes attribute_num buffers buffer_sizes,
     let r := sm_array_iterator_init sm array mode subarray attributes
                attribute_num buffers buffer_sizes (w_engine w) in
     ok r.1.1 = false ->
     exists w',
       tiledb_array_iterator_init (Some a) (Some out) array mode subarray
         attributes attribute_num buffers buffer_sizes w = Some (TILEDB_ERR, w') /\
       stored_error w' (Some a) = Some (Some r.1.1) /\
       block_at (w_heap w') out = Some (BPtr (Some m)) /\
       block_at (w_heap w') m = None /\
       tiledb_array_iterator_finalize (Some m) w' = None) /\
  (forall metadata mode attributes attribute_num,
     let r := sm_metadata_init sm metadata mode attributes attribute_num
                (w_engine w) in
     ok r.1.1 = false ->
     exists w',
       tiledb_metadata_init (Some a) (Some out) metadata mode attributes
         attribute_num w = Some (TILEDB_ERR, w') /\
       stored_error w' (Some a) = Some (Some r.1.1) /\
       block_at (w_heap w') out = Some (BPtr (Some m)) /\
       block_at (w_heap w') m = None /\
       tiledb_metadata_finalize (Some m) w' = None) /\
  (forall metadata attributes attribute_num buffers buffer_sizes,
     let r := sm_metadata_iterator_init sm metadata attributes attribute_num
                buffers buffer_sizes (w_engine w) in
     ok r.1.1 = false ->
     exists w',
       tiledb_metadata_iterator_init (Some a) (Some out) metadata attributes
         attribute_num buffers buffer_sizes w = Some (TILEDB_ERR, w') /\
       stored_error w' (Some a) = Some (Some r.1.1) /\
       block_at (w_heap w') out = Some (BPtr (Some m)) /\
       block_at (w_heap w') m = None /\
       tiledb_metadata_iterator_finalize (Some m) w' = None).
Proof.
  intros Ha Hout Hm m; subst m. open_facts.
  repeat split; intros; cbn zeta in *; engine_pre; unfold_api; cbn in *; xexec;
    match goal with H : ok _ = false |- _ => rewrite H end; xexec;
    (eexists; split; [reflexivity|]); xexec; (split; [done|]);
    (split; [done|]); dead; (split; [done|]); done.
Qed.

(** X13.  When malloc succeeds and the engine opens the object, the four
    init functions return TILEDB_OK; the pointer variable of the caller holds
    the address of a new handle, which holds the object that the engine
    returned and the context; no other block changes, and the engine is in
    the state that its init operation left. *)
Theorem X13_init_success w a sm out :
  live_ctx w a sm -> ptr_at w out -> malloc_succeeds w ->
  let m := length (w_heap w) in
  (forall array mode subarray attributes attribute_num,
     let r := sm_array_init sm array mode subarray attributes attribute_num
                (w_engine w) in
     ok r.1.1 = true ->
     exists w',
       tiledb_array_init (Some a) (Some out) array mode subarray attributes
         attribute_num w = Some (TILEDB_OK, w') /\
       w_engine w' = r.2 /\
       block_at (w_heap w') out = Some (BPtr (Some m)) /\
       block_at (w_heap w') m = Some (BArray {| array_ := r.1.2; ctx_ := Some a |}) /\
       (forall x, x <> out -> x <> m ->
          block_at (w_heap w') x = block_at (w_heap w) x)) /\
  (forall array mode subarray attributes attribute_num buffers buffer_sizes,
     let r := sm_array_iterator_init sm array mode subarray attributes
                attribute_num buffers buffer_sizes (w_engine w) in
     ok r.1.1 = true ->
     exists w',
       tiledb_array_iterator_init (Some a) (Some out) array mode subarray
         attributes attribute_num buffers buffer_sizes w = Some (TILEDB_OK, w') /\
       w_engine w' = r.2 /\
       block_at (w_heap w') out = Some (BPtr (Some m)) /\
       block_at (w_heap w') m =
         Some (BArrayIt {| array_it_ := r.1.2; array_it_ctx_ := Some a |}) /\
       (forall x, x <> out -> x <> m ->
          block_at (w_heap w') x = block_at (w_heap w) x)) /\
  (forall metadata mode attributes attribute_num,
     let r := sm_metadata_init sm metadata mode attributes attribute_num
                (w_engine w) in
     ok r.1.1 = true ->
     exists w',
       tiledb_metadata_init (Some a) (Some out) metadata mode attributes
         attribute_num w = Some (TILEDB_OK, w') /\
       w_engine w' = r.2 /\
       block_at (w_heap w') out = Some (BPtr (Some m)) /\
       block_at (w_heap w') m =
         Some (BMetadata {| metadata_ := r.1.2; metadata_ctx_ := Some a |}) /\
       (forall x, x <> out -> x <> m ->
          block_at (w_heap w') x = block_at (w_heap w) x)) /\
  (forall metadata attributes attribute_num buffers buffer_sizes,
     let r := sm_metadata_iterator_init sm metadata attributes attribute_num
                buffers buffer_sizes (w_engine w) in
     ok r.1.1 = true ->
     exists w',
       tiledb_metadata_iterator_init (Some a) (Some out) metadata attributes
         attribute_num buffers buffer_sizes w = Some (TILEDB_OK, w') /\
       w_engine w' = r.2 /\
       block_at (w_heap w') out = Some (BPtr (Some m)) /\
       block_at (w_heap w') m =
         Some (BMetadataIt {| metadata_it_ := r.1.2; metadata_it_ctx_ := Some a |}) /\
       (forall x, x <> out -> x <> m ->
          block_at (w_heap w') x = block_at (w_heap w) x)).
Proof.
  intros Ha Hout Hm m; subst m. open_facts.
  repeat split; intros; cbn zeta in *; engine_pre; unfold_api; cbn in *; xexec;
    match goal with H : ok _ = true |- _ => rewrite H end; xexec;
    (eexists; split; [reflexivity|]); xexec; (split; [done|]);
    (split; [done|]); (split; [done|]); frame.
Qed.

(** X14.  tiledb_array_finalize, tiledb_array_iterator_finalize and
    tiledb_metadata_iterator_finalize free the handle whether the engine
    succeeds or fails; the return code is TILEDB_OK or TILEDB_ERR by the
    status of the engine; no block other than the handle and the context
    changes; finalizing or using the handle again is undefined. *)
Theorem X14_finalize_releases w t o cx sm :
  live_ctx w cx sm ->
  (array_at w t o cx ->
   let r := sm_array_finalize sm (Some o) (w_engine w) in
   exists w',
     tiledb_array_finalize (Some t) w =
       Some (if ok r.1 then TILEDB_OK else TILEDB_ERR, w') /\
     w_engine w' = r.2 /\
     block_at (w_heap w') t = None /\
     (forall x, x <> t -> x <> cx -> block_at (w_heap w') x = block_at (w_heap w) x) /\
     tiledb_array_finalize (Some t) w' = None /\
     tiledb_array_sync (Some t) w' = None) /\
  (array_it_at w t o cx ->
   let r := sm_array_iterator_finalize sm (Some o) (w_engine w) in
   exists w',
     tiledb_array_iterator_finalize (Some t) w =
       Some (if ok r.1 then TILEDB_OK else TILEDB_ERR, w') /\
     w_engine w' = r.2 /\
     block_at (w_heap w') t = None /\
     (forall x, x <> t -> x <> cx -> block_at (w_heap w') x = block_at (w_heap w) x) /\
     tiledb_array_iterator_finalize (Some t) w' = None /\
     tiledb_array_iterator_next (Some t) w' = None) /\
  (metadata_it_at w t o cx ->
   let r := sm_metadata_iterator_finalize sm (Some o) (w_engine w) in
   exists w',
     tiledb_metadata_iterator_finalize (Some t) w =
       Some (if ok r.1 then TILEDB_OK else TILEDB_ERR, w') /\
     w_engine w' = r.2 /\
     block_at (w_heap w') t = None /\
     (forall x, x <> t -> x <> cx -> block_at (w_heap w') x = block_at (w_heap w) x) /\
     tiledb_metadata_iterator_finalize (Some t) w' = None /\
     tiledb_metadata_iterator_next (Some t) w' = None).
Proof.
  intros Hcx. open_facts.
  repeat split; intros; cbn zeta in *; engine_pre; unfold_api; cbn in *; xexec;
    split_ok; xexec; (eexists; split; [reflexivity|]); xexec; (split; [done|]);
    dead; (split; [done|]); (split; [frame|]); done.
Qed.

(** X15.  tiledb_metadata_finalize frees the handle only when the engine
    fails: after a successful call the heap is unchanged and the handle is
    still allocated; after a failed call the handle is freed and the status
    is recorded in the context. *)
Theorem X15_metadata_finalize_keeps_handle w t md cx sm :
  metadata_at w t md cx -> live_ctx w cx sm ->
  let r := sm_metadata_finalize sm (Some md) (w_engine w) in
  exists w',
    tiledb_metadata_finalize (Some t) w =
      Some (if ok r.1 then TILEDB_OK else TILEDB_ERR, w') /\
    w_engine w' = r.2 /\
    block_at (w_heap w') t =
      (if ok r.1
       then Some (BMetadata {| metadata_ := Some md; metadata_ctx_ := Some cx |})
       else None) /\
    (ok r.1 = true -> w_heap w' = w_heap w) /\
    (ok r.1 = false -> stored_error w' (Some cx) = Some (Some r.1)).
Proof.
  intros Ht Hcx. open_facts. cbn zeta. engine_pre. unfold_api; cbn in *; xexec.
  split_ok; xexec; (eexists; split; [reflexivity|]); xexec; (split; [done|]).
  - by xexec.
  - dead. split; [done|]. split; [done|]. intros _.
    assert (t <> cx) by (intros ->; congruence). by xexec.
Qed.

(** X16.  On a valid handle tiledb_array_overflow, tiledb_array_iterator_end,
    tiledb_metadata_overflow and tiledb_metadata_iterator_end return 1 when
    the engine answers true and 0 when it answers false, and leave the world,
    with the last error of the context, as it is. *)
Theorem X16_boolean_queries w t o cx :
  (array_at w t o cx ->
   forall attribute_id,
     tiledb_array_overflow (Some t) attribute_id w =
       Some (if Array_overflow o attribute_id (w_engine w) then 1 else 0, w)) /\
  (array_it_at w t o cx ->
   tiledb_array_iterator_end (Some t) w =
     Some (if ArrayIterator_end o (w_engine w) then 1 else 0, w)) /\
  (metadata_at w t o cx ->
   forall attribute_id,
     tiledb_metadata_overflow (Some t) attribute_id w =
       Some (if Metadata_overflow o attribute_id (w_engine w) then 1 else 0, w)) /\
  (metadata_it_at w t o cx ->
   tiledb_metadata_iterator_end (Some t) w =
     Some (if MetadataIterator_end o (w_engine w) then 1 else 0, w)).
Proof.
  repeat split; intros; open_facts;
    unfold tiledb_array_iterator_end, tiledb_metadata_overflow,
      tiledb_metadata_iterator_end;
    unfold_api; xexec; reflexivity.
Qed.

(** X17.  With a valid context, tiledb_array_set_schema,
    tiledb_metadata_set_schema and tiledb_metadata_create refuse a null schema
    pointer: they return TILEDB_ERR and record "Invalid TileDB array schema",
    respectively "Invalid metadata schema", as the last error of the context;
    nothing is allocated, the engine is not called and no block other than
    the context changes. *)
Theorem X17_null_schema_refused w a sm :
  live_ctx w a sm ->
  let refused (msg : string) (r : option (Z * world engine)) :=
    exists w', r = Some (TILEDB_ERR, w') /\
      stored_error w' (Some a) = Some (Some (Status_Error msg)) /\
      w_engine w' = w_engine w /\ w_oom w' = w_oom w /\
      forall x, x <> a -> block_at (w_heap w') x = block_at (w_heap w) x in
  (forall array_name attributes attribute_num capacity cell_order cell_val_num
          compression dense dimensions dim_num domain domain_len tile_extents
          tile_extents_len tile_order types,
     refused "Invalid TileDB array schema"
       (tiledb_array_set_schema (Some a) NULL array_name attributes attribute_num
          capacity cell_order cell_val_num compression dense dimensions dim_num
          domain domain_len tile_extents tile_extents_len tile_order types w)) /\
  (forall metadata_name attributes attribute_num capacity cell_val_num
          compression types,
     refused "Invalid metadata schema"
       (tiledb_metadata_set_schema (Some a) NULL metadata_name attributes
          attribute_num capacity cell_val_num compression types w)) /\
  refused "Invalid metadata schema" (tiledb_metadata_create (Some a) NULL w).
Proof.
  intros Ha. open_facts. cbn zeta.
  split; [|split]; intros.
  - unfold tiledb_array_set_schema. unfold_api; xexec.
    eexists. split; [reflexivity|]. xexec. repeat (split; [done|]). frame.
  - unfold tiledb_metadata_set_schema. unfold_api; xexec.
    eexists. split; [reflexivity|]. xexec. repeat (split; [done|]). frame.
  - unfold_api; xexec.
    eexists. split; [reflexivity|]. xexec. repeat (split; [done|]). frame.
Qed.

(** X18.  Pointer arguments that are dereferenced without a test.  With a
    valid context the following calls are undefined: tiledb_array_create with
    a null schema; tiledb_array_get_schema and tiledb_metadata_get_schema, on
    a valid handle, with a null output struct; tiledb_ls and tiledb_ls_c with
    a null dir_num; tiledb_ctx_init and the four init functions with a null
    pointer for the handle to return. *)
Theorem X18_unchecked_null_arguments w a sm :
  live_ctx w a sm ->
  tiledb_array_create (Some a) NULL w = None /\
  (forall t arr cx, array_at w t arr cx ->
     tiledb_array_get_schema (Some t) NULL w = None) /\
  (forall t md cx, metadata_at w t md cx ->
     tiledb_metadata_get_schema (Some t) NULL w = None) /\
  (forall parent_dir dirs dir_types,
     tiledb_ls (Some a) parent_dir dirs dir_types None w = None) /\
  (forall parent_dir, tiledb_ls_c (Some a) parent_dir None w = None) /\
  (forall tiledb_config, tiledb_ctx_init NULL tiledb_config w = None) /\
  (forall array mode subarray attributes attribute_num,
     tiledb_array_init (Some a) NULL array mode subarray attributes attribute_num w
     = None) /\
  (forall array mode subarray attributes attribute_num buffers buffer_sizes,
     tiledb_array_iterator_init (Some a) NULL array mode subarray attributes
       attribute_num buffers buffer_sizes w = None) /\
  (forall metadata mode attributes attribute_num,
     tiledb_metadata_init (Some a) NULL metadata mode attributes attribute_num w
     = None) /\
  (forall metadata attributes attribute_num buffers buffer_sizes,
     tiledb_metadata_iterator_init (Some a) NULL metadata attributes attribute_num
       buffers buffer_sizes w = None).
Proof.
  intros Ha. open_facts.
  assert ((exists rest, w_oom w = true :: rest) \/ malloc_succeeds w) as Hout.
  { unfold malloc_succeeds. destruct (w_oom w) as [|[] ?]; cbn; eauto. }
  repeat split; intros.
  - by unfold_api; xexec.
  - open_facts. unfold_api; xexec.
    destruct (Array_array_schema arr (w_engine w)); [|done]. by xexec.
  - open_facts. unfold tiledb_metadata_get_schema. unfold_api; xexec.
    destruct (Metadata_array_schema md (w_engine w)); [|done]. by xexec.
  - by unfold_api; xexec.
  - by unfold_api; xexec.
  - destruct Hout as [[rest Hoom]|Hm]; unfold_api; by xexec.
  - destruct Hout as [[rest Hoom]|Hm]; unfold_api; by xexec.
  - destruct Hout as [[rest Hoom]|Hm]; unfold_api; by xexec.
  - destruct Hout as [[rest Hoom]|Hm]; unfold_api; by xexec.
  - destruct Hout as [[rest Hoom]|Hm]; unfold_api; by xexec.
Qed.

(** X19.  tiledb_array_load_schema deletes the ArraySchema object that it
    creates on both paths.  When load fails it returns TILEDB_ERR, records
    the status, allocates nothing and leaves the output struct as it was;
    when load succeeds it returns TILEDB_OK and the output struct holds the
    exported schema, whose arrays are the new blocks at the end of the
    heap. *)
Theorem X19_load_schema_temporary w a sm array p s :
  live_ctx w a sm -> block_at (w_heap w) p = Some (BArraySchema s) ->
  let n := ArraySchema_new (w_engine w) in
  let l := ArraySchema_load n.1 array n.2 in
  let x := ArraySchema_export n.1 (length (w_heap w)) l.2 in
  exists w',
    tiledb_array_load_schema (Some a) array (Some p) w =
      Some (if ok l.1 then TILEDB_OK else TILEDB_ERR, w') /\
    w_engine w' = ArraySchema_delete n.1 l.2 /\
    block_at (w_heap w') p = Some (BArraySchema (if ok l.1 then x.1 else s)) /\
    (ok l.1 = true ->
       w_heap w' = <[p := Some (BArraySchema x.1)]> (w_heap w) ++ (Some <$> x.2)) /\
    (ok l.1 = false ->
       stored_error w' (Some a) = Some (Some l.1) /\
       length (w_heap w') = length (w_heap w)).
Proof.
  intros Ha Hp. open_facts. cbn zeta. engine_pre. unfold_api; cbn in *; xexec.
  assert (a <> p) by (intros ->; congruence).
  split_ok; xexec; (eexists; split; [reflexivity|]); xexec; (split; [done|]).
  - split; [done|]. split; [|done]. intros _.
    by rewrite insert_app_l by solve_lt.
  - split; [done|]. split; [done|]. intros _. split; [done|].
    by rewrite length_insert.
Qed.

(** X24.  tiledb_metadata_load_schema, with the schema object that the
    storage manager returns: when the storage manager fails the call returns
    TILEDB_ERR, records the status and leaves the output struct as it was;
    when it succeeds the call returns TILEDB_OK, the output struct holds the
    exported schema, the schema object is deleted after the export, and the
    last error of the context is the one from before. *)
Theorem X24_metadata_load_schema w a sm metadata p s :
  live_ctx w a sm -> block_at (w_heap w) p = Some (BMetadataSchema s) ->
  let r := sm_metadata_load_schema sm metadata (w_engine w) in
  (ok r.1.1 = false ->
   exists w',
     tiledb_metadata_load_schema (Some a) metadata (Some p) w =
       Some (TILEDB_ERR, w') /\
     w_engine w' = r.2 /\
     stored_error w' (Some a) = Some (Some r.1.1) /\
     block_at (w_heap w') p = Some (BMetadataSchema s)) /\
  (forall o, ok r.1.1 = true -> r.1.2 = Some o ->
   let x := ArraySchema_export_metadata o (length (w_heap w)) r.2 in
   exists w',
     tiledb_metadata_load_schema (Some a) metadata (Some p) w =
       Some (TILEDB_OK, w') /\
     w_engine w' = ArraySchema_delete o r.2 /\
     w_heap w' = <[p := Some (BMetadataSchema x.1)]> (w_heap w) ++ (Some <$> x.2) /\
     stored_error w' (Some a) = stored_error w (Some a)).
Proof.
  intros Ha Hp. open_facts. cbn zeta.
  assert (a <> p) by (intros ->; congruence).
  split.
  - intros Hok. engine_pre. unfold_api; cbn in *; xexec. rewrite Hok. xexec.
    eexists. split; [reflexivity|]. by xexec.
  - intros o Hok Ho. engine_pre.
    match goal with p : (Status * ptr)%type |- _ => destruct p as [st oo] end.
    cbn in Hok, Ho. subst oo. unfold_api; cbn in *; xexec. rewrite Hok.
    xexec. eexists. split; [reflexivity|]. xexec. split; [done|].
    split; [by rewrite insert_app_l by solve_lt|]. by xexec.
Qed.

(** X25.  The last error is kept per context: a call that goes through one
    context, whether the engine operation fails or succeeds, leaves every
    other context as it is, with its last error.  This holds for each of the
    functions that pass the status of an engine operation to save_error. *)
Theorem X25_errors_per_context w f cx st other c :
  dispatches w f cx st -> other <> cx ->
  block_at (w_heap w) other = Some (BCtx c) ->
  exists code w',
    f w = Some (code, w') /\
    block_at (w_heap w') other = Some (BCtx c).
Proof.
  intros H Hne Hc.
  destruct H; open_facts; engine_pre; unfold_api; cbn in *; xexec.
  all: try (split_ok; xexec).
  all: try (eexists _, _; split; [reflexivity|]; by xexec).
  match goal with
  | H : ?P -> is_Some ?o, H' : ok _ = true |- _ =>
      let E := fresh in destruct H as [? E]; [exact H'|]; cbn in E; rewrite E
  end.
  xexec. eexists _, _. split; [reflexivity|]. by xexec.
Qed.

End Handles.

(** ** Schemas built and released by the caller *)

Section Schemas.

Context {engine : Engine}.
Implicit Types (N : heap) (oom : list bool) (e : State) (sch p : addr).

(** The world during a call that fills the struct at [sch]: the heap [h0]
    from before the call with the struct assigned, followed by the new
    blocks [N]. *)
Local Abbreviation W h0 sch blk N oom e :=
  {| w_heap := <[sch := Some blk]> h0 ++ N; w_oom := oom; w_engine := e |}.

(** Execution forwards: the next statement returns, the rest runs in the
    world that it leaves. *)
Lemma bind_run {A B} (m : M engine A) (k : A -> M engine B) w x w' R :
  m w = Some (x, w') -> k x w' = R -> bind m k w = R.
Proof. intros H1 H2. unfold bind. by rewrite H1. Qed.

Lemma never_oom_tail oom : never_oom oom -> never_oom (tail oom).
Proof. destruct oom; [done|]. intros H. by apply Forall_cons in H as [_ H]. Qed.

Lemma never_oom_drop oom k : never_oom oom -> never_oom (drop k oom).
Proof. apply Forall_drop. Qed.

Lemma drop_tail {A} (l : list A) k : drop k (tail l) = drop (S k) l.
Proof. destruct l; [by destruct k|done]. Qed.

Lemma lookup_new (h0 : heap) sch blk (N1 : heap) x (N2 : heap) p :
  p = (length h0 + length N1)%nat ->
  (<[sch := Some blk]> h0 ++ N1 ++ x :: N2) !! p = Some x.
Proof.
  intros ->. rewrite lookup_app_r by (rewrite length_insert; lia).
  rewrite length_insert. replace (length h0 + length N1 - length h0)%nat
    with (length N1) by lia. apply list_lookup_middle. done.
Qed.

Lemma insert_new_at (h0 : heap) sch blk (N1 : heap) x y (N2 : heap) p :
  p = (length h0 + length N1)%nat ->
  <[p := y]> (<[sch := Some blk]> h0 ++ N1 ++ x :: N2) =
  <[sch := Some blk]> h0 ++ N1 ++ y :: N2.
Proof.
  intros ->. rewrite insert_app_r_alt by (rewrite length_insert; lia).
  rewrite length_insert. replace (length h0 + length N1 - length h0)%nat
    with (length N1) by lia.
  f_equal. rewrite insert_app_r_alt by lia. by rewrite Nat.sub_diag.
Qed.

Lemma malloc_run (h0 : heap) sch blk N oom e b :
  head oom <> Some true ->
  malloc b (W h0 sch blk N oom e) =
    Some (Some (length h0 + length N)%nat, W h0 sch blk (N ++ [Some b]) (tail oom) e).
Proof.
  intros H. unfold malloc. cbn.
  rewrite length_app, length_insert, <- app_assoc.
  by destruct oom as [|[] ?].
Qed.

Lemma malloc_fails_run (h0 : heap) sch blk N oom e b :
  malloc b (W h0 sch blk N (true :: oom) e) = Some (NULL, W h0 sch blk N oom e).
Proof. done. Qed.

Lemma never_oom_head oom : never_oom oom -> head oom <> Some true.
Proof. destruct oom as [|[] ?]; [done| |done]. by intros [? _]%Forall_cons. Qed.

Lemma malloc_array_run n mk (w : world engine) :
  0 <= n -> malloc_array n mk w = malloc (mk (Z.to_nat n)) w.
Proof. intros H. unfold malloc_array. by destruct (Z.ltb_spec n 0); [lia|]. Qed.

Lemma load_run {A} (proj : block -> option A) (h0 : heap) sch blk (N1 : heap) b
    (N2 : heap) oom e p x :
  p = (length h0 + length N1)%nat -> proj b = Some x ->
  load proj (Some p) (W h0 sch blk (N1 ++ Some b :: N2) oom e) =
    Some (x, W h0 sch blk (N1 ++ Some b :: N2) oom e).
Proof.
  intros Hp Hx. unfold load, deref, block_at. cbn.
  by rewrite (lookup_new _ _ _ _ _ _ _ Hp), Hx.
Qed.

Lemma store_run (h0 : heap) sch blk (N1 : heap) b b' (N2 : heap) oom e p :
  p = (length h0 + length N1)%nat ->
  store (Some p) b' (W h0 sch blk (N1 ++ Some b :: N2) oom e) =
    Some (tt, W h0 sch blk (N1 ++ Some b' :: N2) oom e).
Proof.
  intros Hp. unfold store, block_at, with_heap. cbn.
  by rewrite (lookup_new _ _ _ _ _ _ _ Hp), (insert_new_at _ _ _ _ _ _ _ _ Hp).
Qed.

Lemma free_run (h0 : heap) sch blk (N1 : heap) b (N2 : heap) oom e p :
  p = (length h0 + length N1)%nat ->
  free (Some p) (W h0 sch blk (N1 ++ Some b :: N2) oom e) =
    Some (tt, W h0 sch blk (N1 ++ None :: N2) oom e).
Proof.
  intros Hp. unfold free, block_at, with_heap. cbn.
  by rewrite (lookup_new _ _ _ _ _ _ _ Hp), (insert_new_at _ _ _ _ _ _ _ _ Hp).
Qed.

Lemma free_dead (h0 : heap) sch blk (N1 N2 : heap) oom e p :
  p = (length h0 + length N1)%nat ->
  free (Some p) (W h0 sch blk (N1 ++ None :: N2) oom e) = None.
Proof.
  intros Hp. unfold free, block_at. cbn.
  by rewrite (lookup_new _ _ _ _ _ _ _ Hp).
Qed.

Lemma free_dead_head (h0 : heap) sch blk (N2 : heap) oom e :
  free_if_not_null (Some (length h0)) (W h0 sch blk (None :: N2) oom e) = None.
Proof. apply (free_dead h0 sch blk [] N2). cbn. lia. Qed.

Lemma lookup_sch (h0 : heap) sch blk N :
  (sch < length h0)%nat -> block_at (<[sch := Some blk]> h0 ++ N) sch = Some blk.
Proof.
  intros H. unfold block_at.
  rewrite lookup_app_l by (by rewrite length_insert).
  by rewrite list_lookup_insert_eq.
Qed.

Lemma insert_sch (h0 : heap) sch blk blk' N :
  (sch < length h0)%nat ->
  <[sch := Some blk']> (<[sch := Some blk]> h0 ++ N) = <[sch := Some blk']> h0 ++ N.
Proof.
  intros H. rewrite insert_app_l by (by rewrite length_insert).
  by rewrite list_insert_insert_eq.
Qed.

Lemma assign_run (h0 : heap) sch s f N oom e :
  (sch < length h0)%nat ->
  assign (Some sch) f (W h0 sch (BArraySchema s) N oom e) =
    Some (tt, W h0 sch (BArraySchema (f s)) N oom e).
Proof.
  intros H. unfold assign, bind, load, store, deref, with_heap. cbn.
  rewrite !lookup_sch by done. cbn. rewrite !lookup_sch by done.
  by rewrite insert_sch.
Qed.

Lemma assign_m_run (h0 : heap) sch s f N oom e :
  (sch < length h0)%nat ->
  assign_m (Some sch) f (W h0 sch (BMetadataSchema s) N oom e) =
    Some (tt, W h0 sch (BMetadataSchema (f s)) N oom e).
Proof.
  intros H. unfold assign_m, bind, load, store, deref, with_heap. cbn.
  rewrite !lookup_sch by done. cbn. rewrite !lookup_sch by done.
  by rewrite insert_sch.
Qed.

Lemma memcpy_run (h0 : heap) sch blk (N1 N2 : heap) oom e p src n :
  p = (length h0 + length N1)%nat -> (Z.to_nat n <= length src)%nat ->
  memcpy (Some p) src n
    (W h0 sch blk (N1 ++ Some (BBytes (replicate (Z.to_nat n) 0)) :: N2) oom e) =
    Some (tt, W h0 sch blk (N1 ++ Some (BBytes (take (Z.to_nat n) src)) :: N2) oom e).
Proof.
  intros Hp Hn. unfold memcpy.
  eapply bind_run; [by apply load_run|].
  rewrite decide_True by (rewrite length_replicate; lia).
  rewrite (store_run _ _ _ _ _ _ _ _ _ _ Hp).
  rewrite drop_ge by (rewrite length_replicate; lia). by rewrite app_nil_r.
Qed.

(** The copy loop over an array of ints. *)
Lemma ints_each_run (h0 : heap) sch blk (N1 N2 : heap) oom e p (src : list Z)
    (n : nat) :
  p = (length h0 + length N1)%nat -> (n <= length src)%nat ->
  forall k i, (i + k = n)%nat ->
    for_each (seq i k) (fun i => bind (element src i) (fun v =>
                bind (store_int_at (Some p) i v) (fun _ => ret None)))
      (W h0 sch blk (N1 ++ Some (BInts (take i src ++ replicate k 0)) :: N2) oom e) =
    Some (None, W h0 sch blk (N1 ++ Some (BInts (take n src)) :: N2) oom e).
Proof.
  intros Hp Hn. induction k as [|k IH]; intros i Hi; cbn [seq for_each].
  - replace i with n by lia. by rewrite app_nil_r.
  - destruct (lookup_lt_is_Some_2 src i) as [v Hv]; [lia|].
    eapply bind_run.
    { eapply bind_run; [unfold element; by rewrite Hv|].
      eapply bind_run; [|reflexivity].
      unfold store_int_at. eapply bind_run; [by apply load_run|].
      rewrite decide_True.
      2: { rewrite length_app, length_take, length_replicate. lia. }
      by apply store_run. }
    cbv beta iota.
    rewrite insert_app_r_alt by (rewrite length_take; lia).
    rewrite length_take_le by lia. rewrite Nat.sub_diag.
    cbn [replicate insert list_insert].
    replace (take i src ++ v :: replicate k 0)
      with (take (S i) src ++ replicate k 0)
      by (by rewrite (take_S_r _ _ _ Hv), <- app_assoc).
    apply IH. lia.
Qed.

Lemma ints_loop_run (h0 : heap) sch blk (N1 N2 : heap) oom e p (src : list Z) (n : Z) :
  p = (length h0 + length N1)%nat -> (Z.to_nat n <= length src)%nat ->
  for_loop n (fun i => bind (element src i) (fun v =>
              bind (store_int_at (Some p) i v) (fun _ => ret None)))
    (W h0 sch blk (N1 ++ Some (BInts (replicate (Z.to_nat n) 0)) :: N2) oom e) =
  Some (None, W h0 sch blk (N1 ++ Some (BInts (take (Z.to_nat n) src)) :: N2) oom e).
Proof.
  intros Hp Hn. unfold for_loop.
  by apply (ints_each_run _ _ _ _ _ _ _ _ _ _ Hp Hn (Z.to_nat n) 0%nat).
Qed.


(** The copy loop over an array of strings. *)
Lemma strings_each_run (h0 : heap) sch blk (N1 : heap) e p (src : list string)
    (n : nat) :
  p = (length h0 + length N1)%nat -> (n <= length src)%nat ->
  forall k i oom, (i + k = n)%nat -> never_oom (take k oom) ->
    for_each (seq i k) (fun i => bind (element src i) (fun s =>
                bind (malloc (BChars "")) (fun q =>
                bind (store_string_at (Some p) i q) (fun _ =>
                if q is None then ret (Some TILEDB_OOM)
                else bind (store q (BChars s)) (fun _ => ret None)))))
      (W h0 sch blk
         (N1 ++ Some (BStrings ((Some <$> seq (S p) i) ++ replicate k NULL))
             :: ((fun s => Some (BChars s)) <$> take i src)) oom e) =
    Some (None,
          W h0 sch blk
            (N1 ++ Some (BStrings (Some <$> seq (S p) n))
                :: ((fun s => Some (BChars s)) <$> take n src)) (drop k oom) e).
Proof.
  intros Hp Hn. induction k as [|k IH]; intros i oom Hi Hoom; cbn [seq for_each].
  - replace i with n by lia. by rewrite app_nil_r, drop_0.
  - destruct (lookup_lt_is_Some_2 src i) as [s Hs]; [lia|].
    eapply bind_run.
    { eapply bind_run; [unfold element; by rewrite Hs|].
      eapply bind_run; [apply malloc_run; by destruct oom as [|[] ?]; inversion Hoom|].
      rewrite <- (app_assoc N1), <- app_comm_cons.
      eapply bind_run.
      { unfold store_string_at. eapply bind_run; [by apply load_run|].
        rewrite decide_True.
        2: { rewrite length_app, length_fmap, length_seq, length_replicate. lia. }
        by apply store_run. }
      cbv beta iota.
      eapply bind_run; [|reflexivity].
      rewrite app_comm_cons, (app_assoc N1).
      apply store_run.
      rewrite !length_app. cbn [length]. lia. }
    cbv beta iota.
    rewrite <- (app_assoc N1), <- app_comm_cons.
    rewrite insert_app_r_alt by (rewrite length_fmap, length_seq; lia).
    rewrite length_fmap, length_seq, Nat.sub_diag. cbn [replicate insert list_insert].
    replace ((Some <$> seq (S p) i) ++
             Some (length h0 + length (N1 ++ Some (BStrings ((Some <$> seq (S p) i)
               ++ NULL :: replicate k NULL))
               :: ((fun s => Some (BChars s)) <$> take i src)))%nat :: replicate k NULL)
      with ((Some <$> seq (S p) (S i)) ++ replicate k NULL).
    2: { rewrite seq_S, fmap_app, <- app_assoc. cbn [fmap list_fmap app].
         do 3 f_equal. rewrite length_app. cbn [length].
         rewrite length_fmap, length_take_le by lia. lia. }
    replace (((fun s => Some (BChars s)) <$> take i src) ++ [Some (BChars s)])
      with ((fun s => Some (BChars s)) <$> take (S i) src)
      by (by rewrite (take_S_r _ _ _ Hs), fmap_app).
    rewrite <- drop_tail. apply IH; [lia|].
    destruct oom; [destruct k; constructor|]. by inversion Hoom.
Qed.

Lemma strings_loop_run (h0 : heap) sch blk (N1 : heap) oom e p (src : list string)
    (n : Z) :
  p = (length h0 + length N1)%nat -> (Z.to_nat n <= length src)%nat ->
  never_oom (take (Z.to_nat n) oom) ->
  for_loop n (fun i => bind (element src i) (fun s =>
              bind (malloc (BChars "")) (fun q =>
              bind (store_string_at (Some p) i q) (fun _ =>
              if q is None then ret (Some TILEDB_OOM)
              else bind (store q (BChars s)) (fun _ => ret None)))))
    (W h0 sch blk (N1 ++ [Some (BStrings (replicate (Z.to_nat n) NULL))]) oom e) =
  Some (None,
        W h0 sch blk
          (N1 ++ Some (BStrings (Some <$> seq (S p) (Z.to_nat n)))
              :: ((fun s => Some (BChars s)) <$> take (Z.to_nat n) src))
          (drop (Z.to_nat n) oom) e).
Proof.
  intros Hp Hn Hoom. unfold for_loop.
  by apply (strings_each_run _ _ _ _ _ _ _ _ Hp Hn (Z.to_nat n) 0%nat).
Qed.

(** The loop of free_strings, and free_strings. *)
Lemma free_each_run (h0 : heap) sch blk (N1 N2 : heap) oom e p (bl : list block) :
  p = (length h0 + length N1)%nat ->
  forall k i, (i + k = length bl)%nat ->
    for_each (seq i k) (fun i =>
        bind (load as_strings (Some p)) (fun l =>
        bind (element l i) (fun q =>
        bind (free_if_not_null q) (fun _ => ret None))))
      (W h0 sch blk
         (N1 ++ Some (BStrings (Some <$> seq (S p) (length bl)))
             :: (replicate i None ++ (Some <$> drop i bl)) ++ N2) oom e) =
    Some (None,
          W h0 sch blk
            (N1 ++ Some (BStrings (Some <$> seq (S p) (length bl)))
                :: replicate (length bl) None ++ N2) oom e).
Proof.
  intros Hp. induction k as [|k IH]; intros i Hi; cbn [seq for_each].
  - replace i with (length bl) by lia. by rewrite drop_all, app_nil_r.
  - destruct (lookup_lt_is_Some_2 bl i) as [b Hb]; [lia|].
    eapply bind_run.
    { eapply bind_run; [by apply load_run|].
      eapply bind_run.
      { unfold element. rewrite list_lookup_fmap, lookup_seq_lt by lia. reflexivity. }
      eapply bind_run; [|reflexivity].
      unfold free_if_not_null.
      rewrite (drop_S _ _ _ Hb). cbn [fmap list_fmap].
      replace (N1 ++ Some (BStrings (Some <$> seq (S p) (length bl)))
                  :: (replicate i None ++ Some b :: (Some <$> drop (S i) bl)) ++ N2)
        with ((N1 ++ Some (BStrings (Some <$> seq (S p) (length bl)))
                  :: replicate i None)
                ++ Some b :: ((Some <$> drop (S i) bl) ++ N2))
        by (by rewrite <- !app_assoc).
      apply free_run.
      rewrite !length_app. cbn [length]. rewrite length_replicate. lia. }
    cbv beta iota.
    replace ((N1 ++ Some (BStrings (Some <$> seq (S p) (length bl))) :: replicate i None)
               ++ None :: (Some <$> drop (S i) bl) ++ N2)
      with (N1 ++ Some (BStrings (Some <$> seq (S p) (length bl)))
               :: (replicate (S i) None ++ (Some <$> drop (S i) bl)) ++ N2).
    2: { rewrite replicate_S_end, <- !app_assoc. done. }
    apply IH. lia.
Qed.

Lemma free_strings_run (h0 : heap) sch blk (N1 N2 : heap) oom e p (bl : list block)
    (n : Z) :
  p = (length h0 + length N1)%nat -> Z.to_nat n = length bl ->
  free_strings (Some p) n
    (W h0 sch blk
       (N1 ++ Some (BStrings (Some <$> seq (S p) (length bl)))
           :: (Some <$> bl) ++ N2) oom e) =
  Some (tt, W h0 sch blk (N1 ++ None :: replicate (length bl) None ++ N2) oom e).
Proof.
  intros Hp Hn. unfold free_strings, for_loop. rewrite Hn.
  eapply bind_run.
  { by apply (free_each_run _ _ _ _ _ _ _ _ _ Hp (length bl) 0%nat). }
  cbv beta. by apply free_run.
Qed.


Lemma sanity_check_ctx_run (w : world engine) a c sm :
  block_at (w_heap w) a = Some (BCtx c) -> storage_manager_ c = Some sm ->
  sanity_check_ctx (Some a) w = Some (Status_Ok, w).
Proof.
  intros Hc Hsm. unfold sanity_check_ctx, bind, load, deref.
  by rewrite Hc; cbn; rewrite Hsm.
Qed.

Lemma int_add_run (x y : Z) (w : world engine) :
  INT_MIN <= x + y <= INT_MAX -> int_add x y w = Some (x + y, w).
Proof. intros H. unfold int_add. by rewrite decide_True. Qed.

(** One statement of tiledb_array_set_schema or tiledb_metadata_set_schema. *)
Ltac noom := repeat first [apply never_oom_tail | apply never_oom_drop]; assumption.

Ltac step :=
  eapply bind_run;
  [ first
      [ apply int_add_run; unfold INT_MIN, INT_MAX in *; lia
      | apply malloc_run; apply never_oom_head; noom
      | rewrite malloc_array_run by lia; apply malloc_run; apply never_oom_head; noom
      | apply assign_run; assumption
      | apply assign_m_run; assumption
      | apply store_run; reflexivity
      | apply strings_loop_run; [reflexivity|assumption|apply Forall_take; noom]
      | apply ints_loop_run; [reflexivity|assumption]
      | apply memcpy_run; [reflexivity|assumption]
      | reflexivity ]
  | cbv beta iota ].

Lemma optional_bytes_run (asg : ptr -> M engine unit) (upd : ptr -> block)
    (h0 : heap) sch blk N oom e (o : option bytes) (n : Z) :
  (forall (q : ptr) N' oom',
     asg q (W h0 sch blk N' oom' e) = Some (tt, W h0 sch (upd q) N' oom' e)) ->
  (forall te, o = Some te -> 0 <= n /\ (Z.to_nat n <= length te)%nat) ->
  never_oom oom ->
  match o with
  | None => bind (asg NULL) (fun _ => ret None)
  | Some te =>
      bind (malloc_array n (fun k => BBytes (replicate k 0))) (fun q : ptr =>
      bind (asg q) (fun _ =>
      if q is None then ret (Some TILEDB_OOM)
      else bind (memcpy q te n) (fun _ => ret None)))
  end (W h0 sch blk N oom e) =
  Some (None,
        W h0 sch (upd (optional_ptr o (length h0 + length N)%nat))
          (N ++ optional_block BBytes (take (Z.to_nat n) <$> o))
          (drop (optional_size o) oom) e).
Proof.
  intros Hasg Hfit Hoom. destruct o as [te|]; cbn [optional_ptr optional_block
    optional_size fmap option_fmap option_map].
  - destruct (Hfit te eq_refl) as [Hn Hlen].
    step. eapply bind_run; [apply Hasg|]. cbv beta iota. step.
    by rewrite <- drop_tail, drop_0.
  - eapply bind_run; [apply Hasg|]. by rewrite app_nil_r, drop_0.
Qed.

Lemma optional_ints_run (asg : ptr -> M engine unit) (upd : ptr -> block)
    (h0 : heap) sch blk N oom e (o : option (list Z)) (n : Z) :
  (forall (q : ptr) N' oom',
     asg q (W h0 sch blk N' oom' e) = Some (tt, W h0 sch (upd q) N' oom' e)) ->
  0 <= n -> (forall c, o = Some c -> (Z.to_nat n <= length c)%nat) ->
  never_oom oom ->
  match o with
  | None => bind (asg NULL) (fun _ => ret None)
  | Some src =>
      bind (malloc_array n (fun k => BInts (replicate k 0))) (fun q : ptr =>
      bind (asg q) (fun _ =>
      if q is None then ret (Some TILEDB_OOM)
      else for_loop n (fun i => bind (element src i) (fun v =>
             bind (store_int_at q i v) (fun _ => ret None)))))
  end (W h0 sch blk N oom e) =
  Some (None,
        W h0 sch (upd (optional_ptr o (length h0 + length N)%nat))
          (N ++ optional_block BInts (take (Z.to_nat n) <$> o))
          (drop (optional_size o) oom) e).
Proof.
  intros Hasg Hn Hfit Hoom. destruct o as [src|]; cbn [optional_ptr optional_block
    optional_size fmap option_fmap option_map].
  - pose proof (Hfit src eq_refl) as Hlen.
    step. eapply bind_run; [apply Hasg|]. cbv beta iota.
    rewrite <- drop_tail, drop_0. by apply ints_loop_run.
  - eapply bind_run; [apply Hasg|]. by rewrite app_nil_r, drop_0.
Qed.


Lemma compressors_run (asg : ptr -> M engine unit) (upd : ptr -> block)
    (h0 : heap) sch blk N oom e (o : option (list Z)) (cnt : Z) :
  (forall (q : ptr) N' oom',
     asg q (W h0 sch blk N' oom' e) = Some (tt, W h0 sch (upd q) N' oom' e)) ->
  0 <= cnt + 1 <= INT_MAX ->
  (forall c, o = Some c -> (Z.to_nat (cnt + 1) <= length c)%nat) ->
  never_oom oom ->
  match o with
  | None => bind (asg NULL) (fun _ => ret None)
  | Some src =>
      bind (int_add cnt 1) (fun n =>
      bind (malloc_array n (fun k => BInts (replicate k 0))) (fun q : ptr =>
      bind (asg q) (fun _ =>
      if q is None then ret (Some TILEDB_OOM)
      else bind (int_add cnt 1) (fun n =>
           for_loop n (fun i => bind (element src i) (fun v =>
             bind (store_int_at q i v) (fun _ => ret None)))))))
  end (W h0 sch blk N oom e) =
  Some (None,
        W h0 sch (upd (optional_ptr o (length h0 + length N)%nat))
          (N ++ optional_block BInts (take (Z.to_nat (cnt + 1)) <$> o))
          (drop (optional_size o) oom) e).
Proof.
  intros Hasg Hn Hfit Hoom. destruct o as [src|]; cbn [optional_ptr optional_block
    optional_size fmap option_fmap option_map].
  - pose proof (Hfit src eq_refl) as Hlen.
    do 2 step. eapply bind_run; [apply Hasg|]. cbv beta iota. step.
    rewrite <- drop_tail, drop_0. apply ints_loop_run; [done|lia].
  - eapply bind_run; [apply Hasg|]. by rewrite app_nil_r, drop_0.
Qed.

Lemma length_optional_block {A} (mk : A -> block) (o : option A) :
  length (optional_block mk o) = optional_size o.
Proof. by destruct o. Qed.

Lemma optional_size_fmap {A B} (f : A -> B) (o : option A) :
  optional_size (f <$> o) = optional_size o.
Proof. by destruct o. Qed.

Lemma optional_ptr_fmap {A B} (f : A -> B) (o : option A) a :
  optional_ptr (f <$> o) a = optional_ptr o a.
Proof. by destruct o. Qed.

Lemma world_eq (h0 : heap) sch blk blk' N N' oom oom' e (rc : Z) :
  blk = blk' -> N = N' -> oom = oom' ->
  Some (rc, W h0 sch blk N oom e) = Some (rc, W h0 sch blk' N' oom' e).
Proof. by intros -> -> ->. Qed.

Lemma tail_as_drop {A} (l : list A) : tail l = drop 1 l.
Proof. by destruct l. Qed.

Ltac fields :=
  cbn [array_name_ attributes_ attribute_num_ capacity_ cell_order_ cell_val_num_
       compressor_ dense_ dimensions_ dim_num_ domain_ tile_extents_ tile_order_
       types_ set_array_name_ set_attributes_ set_attribute_num_ set_capacity_
       set_cell_order_ set_cell_val_num_ set_compressor_ set_dense_
       set_dimensions_ set_dim_num_ set_domain_ set_tile_extents_
       set_tile_order_ set_types_].

(** Addresses are lengths of lists of blocks. *)
Ltac lengths :=
  repeat first
    [ rewrite length_app | rewrite length_fmap | rewrite length_seq
    | rewrite length_replicate | rewrite length_optional_block
    | rewrite optional_size_fmap | rewrite length_take_le by lia
    | progress cbn [length] ];
  try lia.

Ltac blocks_eq :=
  repeat first
    [ reflexivity
    | match goal with |- @eq nat _ _ => solve [lengths] end
    | progress f_equal ].

Lemma array_schema_ext (s s' : tiledb_array_schema_t) :
  array_name_ s = array_name_ s' -> attributes_ s = attributes_ s' ->
  attribute_num_ s = attribute_num_ s' -> capacity_ s = capacity_ s' ->
  cell_order_ s = cell_order_ s' -> cell_val_num_ s = cell_val_num_ s' ->
  compressor_ s = compressor_ s' -> dense_ s = dense_ s' ->
  dimensions_ s = dimensions_ s' -> dim_num_ s = dim_num_ s' ->
  domain_ s = domain_ s' -> tile_extents_ s = tile_extents_ s' ->
  tile_order_ s = tile_order_ s' -> types_ s = types_ s' -> s = s'.
Proof. destruct s, s'; cbn; intros; by subst. Qed.

Lemma array_set_schema_run (h0 : heap) sch s0 oom e a c sm name attributes
    attribute_num capacity cell_order cell_val_num compression dense dimensions
    dim_num domain domain_len tile_extents tile_extents_len tile_order types :
  block_at h0 a = Some (BCtx c) -> storage_manager_ c = Some sm ->
  block_at h0 sch = Some (BArraySchema s0) -> never_oom oom ->
  schema_args_fit attributes attribute_num cell_val_num compression dimensions
    dim_num domain domain_len tile_extents tile_extents_len types ->
  let attrs := take (Z.to_nat attribute_num) attributes in
  let dims := take (Z.to_nat dim_num) dimensions in
  let dom := take (Z.to_nat domain_len) domain in
  let te := take (Z.to_nat tile_extents_len) <$> tile_extents in
  let tys := take (Z.to_nat (attribute_num + 1)) types in
  let cvn := take (Z.to_nat attribute_num) <$> cell_val_num in
  let cmp := take (Z.to_nat (attribute_num + 1)) <$> compression in
  let N := array_schema_blocks (length h0) name attrs dims dom te tys cvn cmp in
  tiledb_array_set_schema (Some a) (Some sch) (Some name) attributes attribute_num
    capacity cell_order cell_val_num compression dense dimensions dim_num domain
    domain_len tile_extents tile_extents_len tile_order types
    (W h0 sch (BArraySchema s0) [] oom e) =
  Some (TILEDB_OK,
        W h0 sch
          (BArraySchema
             (array_schema_copy (length h0) attrs dims te cvn cmp attribute_num
                capacity cell_order dense dim_num tile_order))
          N (drop (length N) oom) e).
Proof.
  intros Hc Hsm Hs Hoom
    (Hn & Hattrs & Hd & Hdims & Hdl & Hdom & Hte & Htys & Hcvn & Hcmp & Hmax & _).
  intros attrs dims dom te tys cvn cmp N.
  assert (sch < length h0)%nat as Hsch by (by eapply block_at_lt).
  assert (a <> sch) as Hne by (intros ->; congruence).
  assert (0 <= attribute_num + 1) as Hn1 by lia.
  unfold tiledb_array_set_schema. cbv zeta.
  eapply bind_run.
  { eapply sanity_check_ctx_run; [|exact Hsm]. cbn [w_heap].
    rewrite app_nil_r, block_at_insert_ne by done. exact Hc. }
  cbn [ok negb]. do 3 step.
  (* the name *)
  do 3 step.
  (* the attributes *)
  do 4 step.
  (* the dimensions *)
  do 4 step.
  (* dense and the domain *)
  do 4 step.
  (* the tile extents *)
  match goal with |- context [<[_ := Some (BArraySchema ?s)]> _] =>
    eapply bind_run;
    [ apply (optional_bytes_run (fun q => assign (Some sch) (set_tile_extents_ q))
               (fun q => BArraySchema (set_tile_extents_ q s)));
        [intros; by apply assign_run|exact Hte|noom] |]
  end.
  cbv beta iota.
  (* the types *)
  do 5 step.
  (* cell_val_num *)
  match goal with |- context [<[_ := Some (BArraySchema ?s)]> _] =>
    eapply bind_run;
    [ apply (optional_ints_run (fun q => assign (Some sch) (set_cell_val_num_ q))
               (fun q => BArraySchema (set_cell_val_num_ q s)));
        [intros; by apply assign_run|lia|exact Hcvn|noom] |]
  end.
  cbv beta iota.
  (* the orders and the capacity *)
  do 3 step.
  (* the compression *)
  match goal with |- context [<[_ := Some (BArraySchema ?s)]> _] =>
    eapply bind_run;
    [ apply (compressors_run (fun q => assign (Some sch) (set_compressor_ q))
               (fun q => BArraySchema (set_compressor_ q s)));
        [intros; by apply assign_run|lia|exact Hcmp|noom] |]
  end.
  cbv beta iota. unfold ret.
  assert (length attrs = Z.to_nat attribute_num) as Hla by (by apply length_take_le).
  assert (length dims = Z.to_nat dim_num) as Hld by (by apply length_take_le).
  subst te cvn cmp.
  apply world_eq.
  - f_equal. apply array_schema_ext; unfold array_schema_copy; fields;
      rewrite ?optional_ptr_fmap; try reflexivity; f_equal; lengths.
  - subst N. unfold array_schema_blocks, string_array_blocks.
    rewrite <- !app_assoc. cbn [app]. blocks_eq.
  - rewrite !tail_as_drop, !drop_drop. f_equal. subst N.
    unfold array_schema_blocks, string_array_blocks. lengths.
Qed.


Lemma never_oom_take_replicate n (l : list bool) :
  never_oom (take n (replicate n false ++ l)).
Proof.
  rewrite take_app_length' by (by rewrite length_replicate).
  by apply Forall_replicate.
Qed.

Lemma drop_replicate_app n (l : list bool) : drop n (replicate n false ++ l) = l.
Proof. by rewrite drop_app_length' by (by rewrite length_replicate). Qed.

Lemma array_set_schema_domain_oom (h0 : heap) sch s0 rest e a c sm name attributes
    attribute_num capacity cell_order cell_val_num compression dense dimensions
    dim_num domain domain_len tile_extents tile_extents_len tile_order types :
  block_at h0 a = Some (BCtx c) -> storage_manager_ c = Some sm ->
  block_at h0 sch = Some (BArraySchema s0) ->
  0 <= attribute_num -> (Z.to_nat attribute_num <= length attributes)%nat ->
  0 <= dim_num -> (Z.to_nat dim_num <= length dimensions)%nat ->
  tiledb_array_set_schema (Some a) (Some sch) (Some name) attributes attribute_num
    capacity cell_order cell_val_num compression dense dimensions dim_num domain
    domain_len tile_extents tile_extents_len tile_order types
    (W h0 sch (BArraySchema s0) []
       (false :: false :: replicate (Z.to_nat attribute_num) false ++
        false :: replicate (Z.to_nat dim_num) false ++ true :: rest) e) = None.
Proof.
  intros Hc Hsm Hs Hn Hattrs Hd Hdims.
  assert (sch < length h0)%nat as Hsch by (by eapply block_at_lt).
  assert (a <> sch) as Hne by (intros ->; congruence).
  unfold tiledb_array_set_schema. cbv zeta.
  eapply bind_run.
  { eapply sanity_check_ctx_run; [|exact Hsm]. cbn [w_heap].
    rewrite app_nil_r, block_at_insert_ne by done. exact Hc. }
  cbn [ok negb]. do 3 step.
  (* the name *)
  eapply bind_run; [by apply malloc_run|]. cbv beta iota. cbn [tail]. do 2 step.
  (* the attributes *)
  step.
  eapply bind_run; [rewrite malloc_array_run by lia; by apply malloc_run|].
  cbv beta iota. cbn [tail]. step.
  eapply bind_run.
  { apply strings_loop_run; [reflexivity|assumption|apply never_oom_take_replicate]. }
  cbv beta iota. rewrite drop_replicate_app.
  (* the dimensions *)
  step.
  eapply bind_run; [rewrite malloc_array_run by lia; by apply malloc_run|].
  cbv beta iota. cbn [tail]. step.
  eapply bind_run.
  { apply strings_loop_run; [reflexivity|assumption|apply never_oom_take_replicate]. }
  cbv beta iota. rewrite drop_replicate_app.
  (* dense, and the domain, whose allocation fails *)
  step.
  eapply bind_run.
  { unfold malloc_array. destruct (domain_len <? 0); [reflexivity|].
    apply malloc_fails_run. }
  cbv beta iota. cbn [tail]. step. reflexivity.
Qed.

Lemma load_sch_run (h0 : heap) sch s N oom e :
  (sch < length h0)%nat ->
  load as_array_schema (Some sch) (W h0 sch (BArraySchema s) N oom e) =
    Some (s, W h0 sch (BArraySchema s) N oom e).
Proof. intros H. unfold load, deref. cbn. by rewrite lookup_sch. Qed.

Lemma free_one_run (h0 : heap) sch blk (N1 : heap) b (N2 : heap) oom e p :
  p = (length h0 + length N1)%nat ->
  free_if_not_null (Some p) (W h0 sch blk (N1 ++ Some b :: N2) oom e) =
    Some (tt, W h0 sch blk (N1 ++ None :: N2) oom e).
Proof. apply free_run. Qed.

Lemma free_optional_run {A} (mk : A -> block) (o : option A) (h0 : heap) sch blk
    (N1 N2 : heap) oom e p :
  p = (length h0 + length N1)%nat ->
  free_if_not_null (optional_ptr o p)
    (W h0 sch blk (N1 ++ optional_block mk o ++ N2) oom e) =
    Some (tt, W h0 sch blk (N1 ++ replicate (optional_size o) None ++ N2) oom e).
Proof. intros Hp. destruct o; [by apply free_run|done]. Qed.

Lemma free_optional_last_run {A} (mk : A -> block) (o : option A) (h0 : heap) sch
    blk (N1 : heap) oom e p :
  p = (length h0 + length N1)%nat ->
  free_if_not_null (optional_ptr o p)
    (W h0 sch blk (N1 ++ optional_block mk o) oom e) =
    Some (tt, W h0 sch blk (N1 ++ replicate (optional_size o) None) oom e).
Proof. intros Hp. destruct o; [by apply free_run|done]. Qed.

Lemma free_string_array_run (h0 : heap) sch blk (N1 N2 : heap) oom e p
    (strs : list string) (n : Z) :
  p = (length h0 + length N1)%nat -> Z.to_nat n = length strs ->
  free_strings (Some p) n
    (W h0 sch blk (N1 ++ string_array_blocks p strs ++ N2) oom e) =
    Some (tt, W h0 sch blk (N1 ++ replicate (S (length strs)) None ++ N2) oom e).
Proof.
  intros Hp Hn. unfold string_array_blocks.
  change ((fun s => Some (BChars s)) <$> strs) with ((Some ∘ BChars) <$> strs).
  rewrite (list_fmap_compose BChars Some strs).
  rewrite <- (length_fmap BChars strs), <- app_comm_cons.
  apply free_strings_run; [done|by rewrite length_fmap].
Qed.

Lemma all_dead (l : list (option block)) :
  Forall (fun x => x = None) l -> l = replicate (length l) None.
Proof.
  induction 1 as [|x l -> _ IH]; [done|]. cbn. by rewrite <- IH.
Qed.

(** The freed blocks join the prefix of the blocks that are done. *)
Ltac assoc :=
  match goal with
  | |- context [<[_ := _]> _ ++ (?X ++ ?R ++ ?rest)] => rewrite (app_assoc X R rest)
  end.

Lemma array_free_schema_run (h0 : heap) sch oom e name attrs dims dom te tys cvn
    cmp attribute_num capacity cell_order dense dim_num tile_order :
  (sch < length h0)%nat ->
  Z.to_nat attribute_num = length attrs -> Z.to_nat dim_num = length dims ->
  let s := array_schema_copy (length h0) attrs dims te cvn cmp attribute_num
             capacity cell_order dense dim_num tile_order in
  let N := array_schema_blocks (length h0) name attrs dims dom te tys cvn cmp in
  tiledb_array_free_schema (Some sch) (W h0 sch (BArraySchema s) N oom e) =
    Some (TILEDB_OK, W h0 sch (BArraySchema s) (replicate (length N) None) oom e).
Proof.
  intros Hsch Hn Hd s N. unfold tiledb_array_free_schema.
  eapply bind_run; [by apply load_sch_run|].
  subst s N. unfold array_schema_copy, array_schema_blocks. cbv zeta. fields.
  eapply bind_run; [apply (free_one_run _ _ _ []); cbn; lia|].
  eapply bind_run.
  { apply (free_string_array_run _ _ _ [None]); [cbn; lia|done]. }
  assoc.
  eapply bind_run.
  { apply free_string_array_run; [lengths|done]. }
  assoc.
  eapply bind_run; [apply free_one_run; lengths|].
  match goal with |- context [?X ++ None :: ?rest] =>
    rewrite (cons_middle None X rest), (app_assoc X [None])
  end.
  eapply bind_run; [apply free_optional_run; lengths|].
  assoc.
  eapply bind_run; [apply free_one_run; lengths|].
  match goal with |- context [?X ++ None :: ?rest] =>
    rewrite (cons_middle None X rest), (app_assoc X [None])
  end.
  assoc.
  eapply bind_run; [apply free_optional_last_run; lengths|].
  match goal with |- context [(?X ++ ?A) ++ replicate ?k None] =>
    rewrite <- (app_assoc X A (replicate k None))
  end.
  eapply bind_run; [apply free_optional_run; lengths|].
  unfold ret. apply world_eq; [done| |done].
  match goal with |- ?l = _ => rewrite (all_dead l) end.
  - f_equal. unfold string_array_blocks. lengths.
  - repeat first [apply Forall_app; split | apply Forall_cons; split
                 | apply Forall_replicate | apply Forall_nil ]; done.
Qed.


Lemma metadata_schema_ext (s s' : tiledb_metadata_schema_t) :
  metadata_name_ s = metadata_name_ s' -> m_attributes_ s = m_attributes_ s' ->
  m_attribute_num_ s = m_attribute_num_ s' -> m_capacity_ s = m_capacity_ s' ->
  m_cell_val_num_ s = m_cell_val_num_ s' -> m_compressor_ s = m_compressor_ s' ->
  m_types_ s = m_types_ s' -> s = s'.
Proof. destruct s, s'; cbn; intros; by subst. Qed.

Ltac m_fields :=
  cbn [metadata_name_ m_attributes_ m_attribute_num_ m_capacity_ m_cell_val_num_
       m_compressor_ m_types_ set_metadata_name_ set_m_attributes_
       set_m_attribute_num_ set_m_capacity_ set_m_cell_val_num_
       set_m_compressor_ set_m_types_].

Lemma metadata_set_schema_run (h0 : heap) sch s0 oom e a c sm name attributes
    attribute_num capacity cell_val_num compression types :
  block_at h0 a = Some (BCtx c) -> storage_manager_ c = Some sm ->
  block_at h0 sch = Some (BMetadataSchema s0) -> never_oom oom ->
  metadata_args_fit attributes attribute_num cell_val_num compression types ->
  let attrs := take (Z.to_nat attribute_num) attributes in
  let tys := take (Z.to_nat (attribute_num + 1)) types in
  let cvn := take (Z.to_nat attribute_num) <$> cell_val_num in
  let cmp := take (Z.to_nat (attribute_num + 1)) <$> compression in
  let N := metadata_schema_blocks (length h0) name attrs tys cvn cmp in
  tiledb_metadata_set_schema (Some a) (Some sch) (Some name) attributes
    attribute_num capacity cell_val_num compression types
    (W h0 sch (BMetadataSchema s0) [] oom e) =
  Some (TILEDB_OK,
        W h0 sch
          (BMetadataSchema
             (metadata_schema_copy (length h0) attrs cvn cmp attribute_num capacity))
          N (drop (length N) oom) e).
Proof.
  intros Hc Hsm Hs Hoom (Hn & Hattrs & Htys & Hcvn & Hcmp & Hmax).
  intros attrs tys cvn cmp N.
  assert (sch < length h0)%nat as Hsch by (by eapply block_at_lt).
  assert (a <> sch) as Hne by (intros ->; congruence).
  assert (0 <= attribute_num + 1) as Hn1 by lia.
  unfold tiledb_metadata_set_schema. cbv zeta.
  eapply bind_run.
  { eapply sanity_check_ctx_run; [|exact Hsm]. cbn [w_heap].
    rewrite app_nil_r, block_at_insert_ne by done. exact Hc. }
  cbn [ok negb]. do 3 step.
  (* the name *)
  do 3 step.
  (* the attributes *)
  do 4 step.
  (* the types *)
  do 5 step.
  (* cell_val_num *)
  match goal with |- context [<[_ := Some (BMetadataSchema ?s)]> _] =>
    eapply bind_run;
    [ apply (optional_ints_run (fun q => assign_m (Some sch) (set_m_cell_val_num_ q))
               (fun q => BMetadataSchema (set_m_cell_val_num_ q s)));
        [intros; by apply assign_m_run|lia|exact Hcvn|noom] |]
  end.
  cbv beta iota.
  (* the capacity *)
  step.
  (* the compression *)
  match goal with |- context [<[_ := Some (BMetadataSchema ?s)]> _] =>
    eapply bind_run;
    [ apply (compressors_run (fun q => assign_m (Some sch) (set_m_compressor_ q))
               (fun q => BMetadataSchema (set_m_compressor_ q s)));
        [intros; by apply assign_m_run|lia|exact Hcmp|noom] |]
  end.
  cbv beta iota. unfold ret.
  assert (length attrs = Z.to_nat attribute_num) as Hla by (by apply length_take_le).
  subst cvn cmp.
  apply world_eq.
  - f_equal. apply metadata_schema_ext; unfold metadata_schema_copy; m_fields;
      rewrite ?optional_ptr_fmap; try reflexivity; f_equal; lengths.
  - subst N. unfold metadata_schema_blocks, string_array_blocks.
    rewrite <- !app_assoc. cbn [app]. blocks_eq.
  - rewrite !tail_as_drop, !drop_drop. f_equal. subst N.
    unfold metadata_schema_blocks, string_array_blocks. lengths.
Qed.

Lemma load_msch_run (h0 : heap) sch s N oom e :
  (sch < length h0)%nat ->
  load as_metadata_schema (Some sch) (W h0 sch (BMetadataSchema s) N oom e) =
    Some (s, W h0 sch (BMetadataSchema s) N oom e).
Proof. intros H. unfold load, deref. cbn. by rewrite lookup_sch. Qed.

Lemma metadata_free_schema_run (h0 : heap) sch oom e name attrs tys cvn cmp
    attribute_num capacity :
  (sch < length h0)%nat -> Z.to_nat attribute_num = length attrs ->
  let s := metadata_schema_copy (length h0) attrs cvn cmp attribute_num capacity in
  let N := metadata_schema_blocks (length h0) name attrs tys cvn cmp in
  tiledb_metadata_free_schema (Some sch) (W h0 sch (BMetadataSchema s) N oom e) =
    Some (TILEDB_OK,
          W h0 sch (BMetadataSchema s) (replicate (length N) None) oom e).
Proof.
  intros Hsch Hn s N. unfold tiledb_metadata_free_schema.
  eapply bind_run; [by apply load_msch_run|].
  subst s N. unfold metadata_schema_copy, metadata_schema_blocks. cbv zeta. m_fields.
  eapply bind_run; [apply (free_one_run _ _ _ []); cbn; lia|].
  eapply bind_run.
  { apply (free_string_array_run _ _ _ [None]); [cbn; lia|done]. }
  assoc.
  eapply bind_run; [apply free_one_run; lengths|].
  match goal with |- context [?X ++ None :: ?rest] =>
    rewrite (cons_middle None X rest), (app_assoc X [None])
  end.
  assoc.
  eapply bind_run; [apply free_optional_last_run; lengths|].
  match goal with |- context [(?X ++ ?A) ++ replicate ?k None] =>
    rewrite <- (app_assoc X A (replicate k None))
  end.
  eapply bind_run; [apply free_optional_run; lengths|].
  unfold ret. apply world_eq; [done| |done].
  match goal with |- ?l = _ => rewrite (all_dead l) end.
  - f_equal. unfold string_array_blocks. lengths.
  - repeat first [apply Forall_app; split | apply Forall_cons; split
                 | apply Forall_replicate | apply Forall_nil ]; done.
Qed.


Lemma world_as_shape (w : world engine) sch blk :
  block_at (w_heap w) sch = Some blk ->
  w = W (w_heap w) sch blk [] (w_oom w) (w_engine w).
Proof.
  intros H. destruct w as [h oom e]. cbn in *. f_equal.
  rewrite app_nil_r. symmetry. apply list_insert_id.
  unfold block_at in H. by destruct (h !! sch) as [[]|]; simplify_eq.
Qed.

Lemma block_at_dead_tail (h0 : heap) sch blk k x :
  x <> sch ->
  block_at (<[sch := Some blk]> h0 ++ replicate k None) x = block_at h0 x.
Proof.
  intros Hx. unfold block_at. destruct (decide (x < length h0)%nat).
  - rewrite lookup_app_l by (by rewrite length_insert).
    by rewrite list_lookup_insert_ne.
  - rewrite lookup_app_r by (rewrite length_insert; lia).
    rewrite (lookup_ge_None_2 h0) by lia.
    destruct (replicate k None !! _) as [o|] eqn:E; [|done].
    by apply lookup_replicate in E as [-> _].
Qed.

(** X20.  tiledb_array_set_schema on arguments that fit (the counts are not
    negative, [attribute_num + 1] does not exceed INT_MAX, and every input
    array holds at least as many entries as the call reads), when no
    allocation fails: the call returns TILEDB_OK without touching the engine;
    it allocates, in this order, the name, the array of attribute names and
    one block per attribute name, the array of dimension names and one block
    per dimension name, the domain, the tile extents when given, the types,
    cell_val_num when given and the compression when given; every field of
    the struct is assigned, the pointer fields with the addresses of these
    blocks. *)
Theorem X20_set_schema_succeeds (w : world engine) a sm sch s0 name attributes
    attribute_num capacity cell_order cell_val_num compression dense dimensions
    dim_num domain domain_len tile_extents tile_extents_len tile_order types :
  live_ctx w a sm -> block_at (w_heap w) sch = Some (BArraySchema s0) ->
  never_oom (w_oom w) ->
  schema_args_fit attributes attribute_num cell_val_num compression dimensions
    dim_num domain domain_len tile_extents tile_extents_len types ->
  let L := length (w_heap w) in
  let attrs := take (Z.to_nat attribute_num) attributes in
  let dims := take (Z.to_nat dim_num) dimensions in
  let dom := take (Z.to_nat domain_len) domain in
  let te := take (Z.to_nat tile_extents_len) <$> tile_extents in
  let tys := take (Z.to_nat (attribute_num + 1)) types in
  let cvn := take (Z.to_nat attribute_num) <$> cell_val_num in
  let cmp := take (Z.to_nat (attribute_num + 1)) <$> compression in
  let N := array_schema_blocks L name attrs dims dom te tys cvn cmp in
  tiledb_array_set_schema (Some a) (Some sch) (Some name) attributes attribute_num
    capacity cell_order cell_val_num compression dense dimensions dim_num domain
    domain_len tile_extents tile_extents_len tile_order types w =
  Some (TILEDB_OK,
        {| w_heap :=
             <[sch := Some (BArraySchema
                              (array_schema_copy L attrs dims te cvn cmp
                                 attribute_num capacity cell_order dense dim_num
                                 tile_order))]> (w_heap w) ++ N;
           w_oom := drop (length N) (w_oom w);
           w_engine := w_engine w |}).
Proof.
  intros (c & Hc & Hsm) Hs Hoom Hfit. cbv zeta.
  rewrite (world_as_shape w sch _ Hs) at 1.
  by eapply array_set_schema_run.
Qed.

(** X21.  tiledb_array_free_schema after tiledb_array_set_schema, on
    arguments that fit and without allocation failure: both calls return
    TILEDB_OK; afterwards every block that tiledb_array_set_schema allocated
    is freed, every block from before other than the struct is unchanged, and
    the struct itself is neither freed nor changed by
    tiledb_array_free_schema, so it holds dangling pointers: a second
    tiledb_array_free_schema on it is undefined. *)
Theorem X21_schema_round_trip (w : world engine) a sm sch s0 name attributes
    attribute_num capacity cell_order cell_val_num compression dense dimensions
    dim_num domain domain_len tile_extents tile_extents_len tile_order types :
  live_ctx w a sm -> block_at (w_heap w) sch = Some (BArraySchema s0) ->
  never_oom (w_oom w) ->
  schema_args_fit attributes attribute_num cell_val_num compression dimensions
    dim_num domain domain_len tile_extents tile_extents_len types ->
  exists w1 w2,
    tiledb_array_set_schema (Some a) (Some sch) (Some name) attributes
      attribute_num capacity cell_order cell_val_num compression dense dimensions
      dim_num domain domain_len tile_extents tile_extents_len tile_order types w =
      Some (TILEDB_OK, w1) /\
    tiledb_array_free_schema (Some sch) w1 = Some (TILEDB_OK, w2) /\
    (forall x, (length (w_heap w) <= x)%nat -> block_at (w_heap w2) x = None) /\
    (forall x, x <> sch -> block_at (w_heap w2) x = block_at (w_heap w) x) /\
    block_at (w_heap w2) sch = block_at (w_heap w1) sch /\
    length (w_heap w2) = length (w_heap w1) /\
    w_engine w2 = w_engine w /\
    tiledb_array_free_schema (Some sch) w2 = None.
Proof.
  intros (c & Hc & Hsm) Hs Hoom Hfit.
  assert (sch < length (w_heap w))%nat as Hsch by (by eapply block_at_lt).
  pose proof Hfit as (_ & Hattrs & _ & Hdims & _).
  eexists _, _. split.
  { rewrite (world_as_shape w sch _ Hs) at 1. by eapply array_set_schema_run. }
  split.
  { apply array_free_schema_run; [done|by rewrite length_take_le..]. }
  cbn [w_heap w_engine].
  split.
  { intros x Hx. rewrite block_at_dead_tail by lia. by apply block_at_ge. }
  split; [intros x Hx; by apply block_at_dead_tail|].
  split; [by rewrite !lookup_sch|].
  split; [by rewrite !length_app, !length_insert, length_replicate|].
  split; [done|].
  unfold tiledb_array_free_schema.
  eapply bind_run; [by apply load_sch_run|].
  unfold array_schema_copy, array_schema_blocks. cbv zeta. fields.
  cbn [length replicate]. unfold bind.
  by rewrite free_dead_head.
Qed.

(** X22.  tiledb_metadata_set_schema on arguments that fit (the count is
    not negative, [attribute_num + 1] does not exceed INT_MAX, and every
    input array holds at least as many entries as the call reads), when no
    allocation fails: the call returns TILEDB_OK without touching the engine;
    it allocates the name, the array of attribute names and one block per
    attribute name, the types, cell_val_num when given and the compression
    when given, each a copy of the input; every field of the struct is
    assigned, the pointer fields with the addresses of these blocks. *)
Theorem X22_metadata_set_schema_succeeds (w : world engine) a sm sch s0 name
    attributes attribute_num capacity cell_val_num compression types :
  live_ctx w a sm -> block_at (w_heap w) sch = Some (BMetadataSchema s0) ->
  never_oom (w_oom w) ->
  metadata_args_fit attributes attribute_num cell_val_num compression types ->
  let L := length (w_heap w) in
  let attrs := take (Z.to_nat attribute_num) attributes in
  let tys := take (Z.to_nat (attribute_num + 1)) types in
  let cvn := take (Z.to_nat attribute_num) <$> cell_val_num in
  let cmp := take (Z.to_nat (attribute_num + 1)) <$> compression in
  let N := metadata_schema_blocks L name attrs tys cvn cmp in
  tiledb_metadata_set_schema (Some a) (Some sch) (Some name) attributes
    attribute_num capacity cell_val_num compression types w =
  Some (TILEDB_OK,
        {| w_heap :=
             <[sch := Some (BMetadataSchema
                              (metadata_schema_copy L attrs cvn cmp attribute_num
                                 capacity))]> (w_heap w) ++ N;
           w_oom := drop (length N) (w_oom w);
           w_engine := w_engine w |}).
Proof.
  intros (c & Hc & Hsm) Hs Hoom Hfit. cbv zeta.
  rewrite (world_as_shape w sch _ Hs) at 1.
  by eapply metadata_set_schema_run.
Qed.

(** X23.  tiledb_metadata_free_schema after tiledb_metadata_set_schema, on
    arguments that fit and without allocation failure: both calls return
    TILEDB_OK; afterwards every block that tiledb_metadata_set_schema
    allocated is freed, every block from before other than the struct is
    unchanged, the struct is not freed, and a second
    tiledb_metadata_free_schema on it is undefined. *)
Theorem X23_metadata_schema_round_trip (w : world engine) a sm sch s0 name
    attributes attribute_num capacity cell_val_num compression types :
  live_ctx w a sm -> block_at (w_heap w) sch = Some (BMetadataSchema s0) ->
  never_oom (w_oom w) ->
  metadata_args_fit attributes attribute_num cell_val_num compression types ->
  exists w1 w2,
    tiledb_metadata_set_schema (Some a) (Some sch) (Some name) attributes
      attribute_num capacity cell_val_num compression types w =
      Some (TILEDB_OK, w1) /\
    tiledb_metadata_free_schema (Some sch) w1 = Some (TILEDB_OK, w2) /\
    (forall x, (length (w_heap w) <= x)%nat -> block_at (w_heap w2) x = None) /\
    (forall x, x <> sch -> block_at (w_heap w2) x = block_at (w_heap w) x) /\
    block_at (w_heap w2) sch = block_at (w_heap w1) sch /\
    length (w_heap w2) = length (w_heap w1) /\
    w_engine w2 = w_engine w /\
    tiledb_metadata_free_schema (Some sch) w2 = None.
Proof.
  intros (c & Hc & Hsm) Hs Hoom Hfit.
  assert (sch < length (w_heap w))%nat as Hsch by (by eapply block_at_lt).
  pose proof Hfit as (_ & Hattrs & _).
  eexists _, _. split.
  { rewrite (world_as_shape w sch _ Hs) at 1. by eapply metadata_set_schema_run. }
  split.
  { apply metadata_free_schema_run; [done|by rewrite length_take_le]. }
  cbn [w_heap w_engine].
  split.
  { intros x Hx. rewrite block_at_dead_tail by lia. by apply block_at_ge. }
  split; [intros x Hx; by apply block_at_dead_tail|].
  split; [by rewrite !lookup_sch|].
  split; [by rewrite !length_app, !length_insert, length_replicate|].
  split; [done|].
  unfold tiledb_metadata_free_schema.
  eapply bind_run; [by apply load_msch_run|].
  unfold metadata_schema_copy, metadata_schema_blocks. cbv zeta. m_fields.
  cbn [length replicate]. unfold bind.
  by rewrite free_dead_head.
Qed.

(** X26.  An allocation failure in tiledb_array_set_schema.  When the first
    allocation (the name) fails the call returns TILEDB_OOM; the name pointer
    of the struct is null and nothing else has changed.  The allocation of
    the domain is the one whose result is not tested: when the allocations
    before it succeed and it fails, the call copies the domain through the
    null pointer, which is undefined, instead of returning TILEDB_OOM. *)
Theorem X26_set_schema_allocation_failure (w : world engine) a sm sch s0 name
    attributes attribute_num capacity cell_order cell_val_num compression dense
    dimensions dim_num domain domain_len tile_extents tile_extents_len tile_order
    types rest :
  live_ctx w a sm -> block_at (w_heap w) sch = Some (BArraySchema s0) ->
  0 <= attribute_num -> (Z.to_nat attribute_num <= length attributes)%nat ->
  0 <= dim_num -> (Z.to_nat dim_num <= length dimensions)%nat ->
  (w_oom w = true :: rest ->
   tiledb_array_set_schema (Some a) (Some sch) (Some name) attributes
     attribute_num capacity cell_order cell_val_num compression dense dimensions
     dim_num domain domain_len tile_extents tile_extents_len tile_order types w =
   Some (TILEDB_OOM,
         {| w_heap := <[sch := Some (BArraySchema (set_array_name_ NULL s0))]>
                        (w_heap w);
            w_oom := rest;
            w_engine := w_engine w |})) /\
  (w_oom w =
     replicate (3 + Z.to_nat attribute_num + Z.to_nat dim_num) false ++ true :: rest ->
   tiledb_array_set_schema (Some a) (Some sch) (Some name) attributes
     attribute_num capacity cell_order cell_val_num compression dense dimensions
     dim_num domain domain_len tile_extents tile_extents_len tile_order types w =
   None).
Proof.
  intros (c & Hc & Hsm) Hs Hn Hattrs Hd Hdims.
  assert (sch < length (w_heap w))%nat as Hsch by (by eapply block_at_lt).
  assert (a <> sch) as Hne by (intros ->; congruence).
  split; intros Hoom; rewrite (world_as_shape w sch _ Hs) at 1; rewrite Hoom.
  - unfold tiledb_array_set_schema. cbv zeta.
    eapply bind_run.
    { eapply sanity_check_ctx_run; [|exact Hsm]. cbn [w_heap].
      rewrite app_nil_r, block_at_insert_ne by done. exact Hc. }
    cbn [ok negb]. do 3 step.
    eapply bind_run; [apply malloc_fails_run|]. cbv beta iota. step.
    unfold ret. by rewrite app_nil_r.
  - replace (3 + Z.to_nat attribute_num + Z.to_nat dim_num)%nat
      with (2 + (Z.to_nat attribute_num + (1 + Z.to_nat dim_num)))%nat by lia.
    rewrite !replicate_add, <- !app_assoc. cbn [replicate app].
    by eapply array_set_schema_domain_oom.
Qed.

End Schemas.

(** ** The claims on sample worlds *)

Lemma C1_counterexample :
  (sm_finalize 0%nat (w_engine (sample_world []))).1 = Status_Error "finalize failed" /\
  ~ reported (sample_world []) (tiledb_ctx_finalize (Some 0%nat)) 0%nat
      (Status_Error "finalize failed").
Proof.
  split; [reflexivity|]. unfold reported. vm_compute. intros [_ H]. discriminate H.
Qed.

Lemma C1_witness :
  reported (sample_world []) (tiledb_group_create (Some 0%nat) (Some "g"%string)) 0%nat
    (Status_Error "group exists").
Proof.
  apply (proj1 (C1_last_error_of_context (sample_world []))).
  apply (d_group_create (sample_world []) 0%nat 0%nat (Some "g"%string)).
  eexists. split; reflexivity.
Defined.

Lemma C2_witness :
  exists w1 out,
    tiledb_array_read (Some 1%nat) [[]] [8] (sample_world []) =
      Some ((TILEDB_OK, out), w1) /\
    tiledb_array_overflow (Some 1%nat) 0 w1 = Some (1, w1).
Proof.
  destruct (C2_overflow_resume sample_verdict (sample_world []) 1%nat 7%nat 0%nat
              sample_array [8] [[]])
    as (w1 & sizes & next & Hread & _ & _ & Hnext & _ & Hov & _).
  - reflexivity.
  - eexists. reflexivity.
  - reflexivity.
  - reflexivity.
  - vm_compute. lia.
  - exists w1. eexists. split; [exact Hread|].
    injection Hnext as <-. exact (Hov 0%nat 8 eq_refl).
Defined.



Lemma C4_witness :
  tiledb_metadata_iterator_init (Some 0%nat) (Some 2%nat) (Some "m"%string) None 0 [] []
    (sample_world [true]) =
    Some (TILEDB_ERR, after_failed_malloc (sample_world [true]) 2%nat []) /\
  tiledb_array_init (Some 0%nat) (Some 2%nat) (Some "a"%string) 0 None None 0
    (sample_world [true]) = None.
Proof.
  destruct (C4_allocation_failure (sample_world [true]) 0%nat 0%nat 2%nat [])
    as (_ & _ & _ & _ & Hmi & Hai).
  - eexists. split; reflexivity.
  - eexists. reflexivity.
  - reflexivity.
  - split; [apply Hmi|apply Hai].
Defined.

Lemma C5_witness :
  exists p copy h',
    block_at h' p = Some (BAIO copy) /\
    aio_buffers_ copy = Some 40%nat /\ aio_status_ copy = Some (StatusField 3%nat).
Proof.
  destruct (C5_aio_request_copy (sample_world []) 1%nat 7%nat 0%nat 3%nat sample_request)
    as (p & copy & h' & Hp & _ & Hb & _ & _ & _ & _ & Hs & _).
  - reflexivity.
  - eexists. reflexivity.
  - reflexivity.
  - vm_compute. discriminate.
  - exists p, copy, h'. auto.
Defined.

Lemma C6_witness :
  exists w',
    tiledb_delete (Some 0%nat) None (sample_world []) = Some (TILEDB_OK, w').
Proof.
  destruct (C6_null_directory (sample_world []) 0%nat 0%nat) as (_ & Hd & _).
  - eexists. split; reflexivity.
  - destruct Hd as (w' & Hd & _). exists w'. exact Hd.
Defined.

Lemma C8_witness :
  tiledb_array_sync (Some 5%nat) (sample_world []) = Some (TILEDB_ERR, sample_world []).
Proof.
  apply (C8_invalid_array_handle (sample_world []) (Some 5%nat)).
  right. eexists _, _. split; [reflexivity|]. split; [reflexivity|]. by left.
Defined.

Lemma C10_witness :
  exists w' s,
    tiledb_array_set_schema (Some 0%nat) (Some 4%nat) (Some "A"%string)
      ["a1"; "a2"]%string 2 1000 0 None (Some [0; 1; 0]) 1 ["x"; "y"]%string 2
      [0; 3; 0; 3] 4 (Some [2; 2]) 2 1 [1; 1; 1] (sample_world [])
      = Some (TILEDB_OK, w') /\
    block_at (w_heap w') 4%nat = Some (BArraySchema s) /\
    strings_at (w_heap w') (attributes_ s) = Some ["a1"; "a2"]%string /\
    cell_val_num_ s = NULL.
Proof.
  destruct (tiledb_array_set_schema (Some 0%nat) (Some 4%nat) (Some "A"%string)
      ["a1"; "a2"]%string 2 1000 0 None (Some [0; 1; 0]) 1 ["x"; "y"]%string 2
      [0; 3; 0; 3] 4 (Some [2; 2]) 2 1 [1; 1; 1] (sample_world [])) as [[code w']|] eqn:E.
  2: { vm_compute in E. discriminate E. }
  assert (code = TILEDB_OK) as ->.
  { vm_compute in E. injection E as <- _. reflexivity. }
  destruct (C10_set_schema_copies _ _ _ _ _ _ _ _ _ _ _ _ _ _ _ _ _ _ _ _ E)
    as (s & Hs & _ & _ & Hattrs & _ & _ & _ & _ & _ & _ & _ & _ & _ & _ & _ & _ & Hcv & _).
  exists w', s. split; [reflexivity|]. split; [exact Hs|]. split; [exact Hattrs|]. exact Hcv.
Defined.

(** ** The further properties on sample worlds *)

Lemma X1_witness :
  tiledb_group_create (Some 1%nat) (Some "g"%string) (handles_world passing []) =
    Some (TILEDB_ERR, handles_world passing []).
Proof.
  apply (X1_invalid_context (handles_world passing []) (Some 1%nat)).
  right. eexists _, _. repeat split; reflexivity.
Defined.

Lemma X2_witness :
  tiledb_dir_type (Some 1%nat) (Some "d"%string) (handles_world passing []) = None.
Proof.
  apply (proj2 (X2_dir_type_unchecked (handles_world passing []) (Some "d"%string))
           1%nat _ eq_refl eq_refl).
Defined.

Lemma X3_witness :
  tiledb_array_iterator_next (Some 7%nat) (handles_world passing []) =
    Some (TILEDB_ERR, handles_world passing []).
Proof.
  apply (X3_invalid_array_iterator (handles_world passing []) (Some 7%nat)).
  right. eexists _, _. split; [reflexivity|]. split; [reflexivity|]. by left.
Defined.

Lemma X4_witness :
  tiledb_metadata_finalize (Some 8%nat) (handles_world passing []) =
    Some (TILEDB_ERR, handles_world passing []).
Proof.
  apply (X4_invalid_metadata (handles_world passing []) (Some 8%nat)).
  right. eexists _, _. split; [reflexivity|]. split; [reflexivity|]. by right.
Defined.

Lemma X5_witness :
  tiledb_metadata_iterator_end (Some 9%nat) (handles_world passing []) =
    Some (TILEDB_ERR, handles_world passing []).
Proof.
  apply (X5_invalid_metadata_iterator (handles_world passing []) (Some 9%nat)).
  right. eexists _, _. split; [reflexivity|]. split; [reflexivity|]. by left.
Defined.

Lemma X6_witness :
  exists w1 w2,
    tiledb_config_create (handles_world passing []) = Some (Some 14%nat, w1) /\
    tiledb_config_free (Some 14%nat) w1 = Some (TILEDB_OK, w2) /\
    block_at (w_heap w2) 14%nat = None.
Proof.
  destruct (X6_config_life_cycle (handles_world passing []) 0%nat
              (∅ : gmap obj ReadPath.array))
    as (w1 & Hc & _ & _ & _ & _ & w2 & Hf & _ & Hd & _).
  - discriminate.
  - reflexivity.
  - exists w1, w2. auto.
Defined.

Lemma X7_witness :
  tiledb_config_create (handles_world passing [true]) =
    Some (NULL, handles_world passing []) /\
  tiledb_config_set_read_method (Some 10%nat) 1 (handles_world passing [true]) =
    Some (TILEDB_ERR, handles_world passing [true]).
Proof.
  destruct (X7_config_refusals (handles_world passing [true]) 10%nat [])
    as (Hc & _ & _ & Hr & _).
  - reflexivity.
  - reflexivity.
  - split; [exact Hc|apply Hr].
Defined.

Lemma X8_witness :
  exists w1 w2,
    tiledb_ctx_init (Some 2%nat) NULL (handles_world passing []) =
      Some (TILEDB_OK, w1) /\
    tiledb_ctx_finalize (Some 14%nat) w1 = Some (TILEDB_OK, w2) /\
    tiledb_ctx_finalize (Some 14%nat) w2 = None.
Proof.
  destruct (X8_ctx_life_cycle (handles_world passing []) 2%nat NULL None)
    as (w1 & w2 & Hi & _ & _ & _ & _ & Hf & _ & _ & _ & Hff & _).
  - eexists. reflexivity.
  - discriminate.
  - left. split; reflexivity.
  - exists w1, w2. auto.
Defined.

Lemma X9_witness :
  exists code w',
    tiledb_group_create (Some 0%nat) (Some "g"%string) (handles_world failing []) =
      Some (code, w') /\
    stored_error w' (Some 0%nat) = Some (Some (Status_Error "group_create")) /\
    block_at (w_heap w') 11%nat =
      Some (BError {| status_ := Some (Status_Error "earlier") |}).
Proof.
  apply (X9_error_snapshot (handles_world failing []) _ 0%nat
           (Status_Error "group_create") 11%nat (Status_Error "earlier")).
  - apply (d_group_create (handles_world failing []) 0%nat 0%nat (Some "g"%string)).
    eexists. split; reflexivity.
  - reflexivity.
  - reflexivity.
Defined.

Lemma X10_witness :
  exists w1 w2,
    tiledb_error_last (Some 0%nat) (handles_world passing []) =
      Some (Some 14%nat, w1) /\
    tiledb_error_message (Some 14%nat) w1 = Some (Dangling, w1) /\
    tiledb_error_free (Some 14%nat) w1 = Some (TILEDB_OK, w2) /\
    tiledb_error_free (Some 14%nat) w2 = None.
Proof.
  destruct (X10_error_object (handles_world passing []) 0%nat
              {| storage_manager_ := Some 0%nat;
                 last_error_ := Some (Status_Error "earlier") |}
              (Status_Error "earlier"))
    as (w1 & w2 & Hl & _ & Hm & _ & Hf & _ & _ & _ & _ & Hff).
  - reflexivity.
  - reflexivity.
  - discriminate.
  - exists w1, w2. auto.
Defined.

Lemma X11_witness :
  tiledb_error_last (Some 0%nat) (handles_world passing [true]) = None /\
  tiledb_array_aio_read (Some 3%nat) NULL (handles_world passing [true]) = None.
Proof.
  destruct (X11_unchecked_malloc (handles_world passing [true]) []) as [He Ha].
  - reflexivity.
  - split.
    + exact (He 0%nat {| storage_manager_ := Some 0%nat;
                         last_error_ := Some (Status_Error "earlier") |}
               (Status_Error "earlier") eq_refl eq_refl).
    + exact (proj1 (Ha 3%nat 1%nat 0%nat NULL eq_refl)).
Defined.

Lemma X12_witness :
  exists w',
    tiledb_array_init (Some 0%nat) (Some 2%nat) (Some "a"%string) 0 None None 0
      (handles_world failing []) = Some (TILEDB_ERR, w') /\
    block_at (w_heap w') 2%nat = Some (BPtr (Some 14%nat)) /\
    block_at (w_heap w') 14%nat = None.
Proof.
  destruct (X12_init_failure (handles_world failing []) 0%nat 0%nat 2%nat)
    as (Ha & _).
  - eexists. split; reflexivity.
  - eexists. reflexivity.
  - discriminate.
  - destruct (Ha (Some "a"%string) 0 None None 0 eq_refl)
      as (w' & Hi & _ & Ho & Hd & _).
    exists w'. auto.
Defined.

Lemma X13_witness :
  exists w',
    tiledb_metadata_init (Some 0%nat) (Some 2%nat) (Some "m"%string) 0 None 0
      (handles_world passing []) = Some (TILEDB_OK, w') /\
    block_at (w_heap w') 14%nat =
      Some (BMetadata {| metadata_ := Some 0%nat; metadata_ctx_ := Some 0%nat |}).
Proof.
  destruct (X13_init_success (handles_world passing []) 0%nat 0%nat 2%nat)
    as (_ & _ & Hm & _).
  - eexists. split; reflexivity.
  - eexists. reflexivity.
  - discriminate.
  - destruct (Hm (Some "m"%string) 0 None 0 eq_refl) as (w' & Hi & _ & _ & Hb & _).
    exists w'. auto.
Defined.

Lemma X14_witness :
  exists w',
    tiledb_array_finalize (Some 3%nat) (handles_world failing []) =
      Some (TILEDB_ERR, w') /\
    block_at (w_heap w') 3%nat = None /\
    tiledb_array_finalize (Some 3%nat) w' = None.
Proof.
  destruct (X14_finalize_releases (handles_world failing []) 3%nat 1%nat 0%nat 0%nat)
    as (Ha & _).
  - eexists. split; reflexivity.
  - destruct Ha as (w' & Hf & _ & Hd & _ & Hff & _); [reflexivity|].
    exists w'. auto.
Defined.

Lemma X15_witness :
  exists w',
    tiledb_metadata_finalize (Some 5%nat) (handles_world passing []) =
      Some (TILEDB_OK, w') /\
    block_at (w_heap w') 5%nat =
      Some (BMetadata {| metadata_ := Some 3%nat; metadata_ctx_ := Some 0%nat |}).
Proof.
  destruct (X15_metadata_finalize_keeps_handle (handles_world passing []) 5%nat
              3%nat 0%nat 0%nat) as (w' & Hf & _ & Hb & _).
  - reflexivity.
  - eexists. split; reflexivity.
  - exists w'. auto.
Defined.

Lemma X16_witness :
  tiledb_array_iterator_end (Some 4%nat) (handles_world passing []) =
    Some (1, handles_world passing []).
Proof.
  apply (X16_boolean_queries (handles_world passing []) 4%nat 2%nat 0%nat).
  reflexivity.
Defined.

Lemma X17_witness :
  exists w',
    tiledb_metadata_create (Some 0%nat) NULL (handles_world passing []) =
      Some (TILEDB_ERR, w') /\
    stored_error w' (Some 0%nat) = Some (Some (Status_Error "Invalid metadata schema")).
Proof.
  destruct (X17_null_schema_refused (handles_world passing []) 0%nat 0%nat)
    as (_ & _ & w' & Hc & He & _).
  - eexists. split; reflexivity.
  - exists w'. auto.
Defined.

Lemma X18_witness :
  tiledb_array_create (Some 0%nat) NULL (handles_world passing []) = None /\
  tiledb_ls_c (Some 0%nat) (Some "ws"%string) None (handles_world passing []) = None.
Proof.
  destruct (X18_unchecked_null_arguments (handles_world passing []) 0%nat 0%nat)
    as (Hc & _ & _ & _ & Hl & _).
  - eexists. split; reflexivity.
  - split; [exact Hc|apply Hl].
Defined.

Lemma X19_witness :
  exists w',
    tiledb_array_load_schema (Some 0%nat) (Some "a"%string) (Some 12%nat)
      (handles_world failing []) = Some (TILEDB_ERR, w') /\
    block_at (w_heap w') 12%nat = Some (BArraySchema blank_schema).
Proof.
  destruct (X19_load_schema_temporary (handles_world failing []) 0%nat 0%nat
              (Some "a"%string) 12%nat blank_schema) as (w' & Hl & _ & Hb & _).
  - eexists. split; reflexivity.
  - reflexivity.
  - exists w'. auto.
Defined.

Lemma X24_witness :
  exists w',
    tiledb_metadata_load_schema (Some 0%nat) (Some "m"%string) (Some 13%nat)
      (handles_world passing []) = Some (TILEDB_OK, w').
Proof.
  destruct (X24_metadata_load_schema (handles_world passing []) 0%nat 0%nat
              (Some "m"%string) 13%nat blank_metadata_schema) as (_ & Hok).
  - eexists. split; reflexivity.
  - reflexivity.
  - destruct (Hok 0%nat eq_refl eq_refl) as (w' & Hl & _).
    exists w'. exact Hl.
Defined.

Lemma sample_args_fit :
  schema_args_fit ["a1"; "a2"]%string 2 None (Some [0; 1; 0]) ["x"; "y"]%string 2
    [0; 3; 0; 3] 4 (Some [2; 2]) 2 [1; 1; 1].
Proof.
  unfold schema_args_fit, INT_MAX. repeat split; intros; simplify_eq; cbn; lia.
Defined.

Lemma X20_witness :
  exists w',
    tiledb_array_set_schema (Some 0%nat) (Some 12%nat) (Some "A"%string)
      ["a1"; "a2"]%string 2 1000 0 None (Some [0; 1; 0]) 1 ["x"; "y"]%string 2
      [0; 3; 0; 3] 4 (Some [2; 2]) 2 1 [1; 1; 1] (handles_world passing [])
      = Some (TILEDB_OK, w') /\
    length (w_heap w') = 25%nat.
Proof.
  eexists. split.
  - apply (X20_set_schema_succeeds (handles_world passing []) 0%nat 0%nat 12%nat
             blank_schema).
    + eexists. split; reflexivity.
    + reflexivity.
    + constructor.
    + exact sample_args_fit.
  - reflexivity.
Defined.

Lemma X21_witness :
  exists w1 w2,
    tiledb_array_set_schema (Some 0%nat) (Some 12%nat) (Some "A"%string)
      ["a1"; "a2"]%string 2 1000 0 None (Some [0; 1; 0]) 1 ["x"; "y"]%string 2
      [0; 3; 0; 3] 4 (Some [2; 2]) 2 1 [1; 1; 1] (handles_world passing [])
      = Some (TILEDB_OK, w1) /\
    tiledb_array_free_schema (Some 12%nat) w1 = Some (TILEDB_OK, w2) /\
    block_at (w_heap w2) 14%nat = None.
Proof.
  destruct (X21_schema_round_trip (handles_world passing []) 0%nat 0%nat 12%nat
              blank_schema "A"%string ["a1"; "a2"]%string 2 1000 0 None
              (Some [0; 1; 0]) 1 ["x"; "y"]%string 2 [0; 3; 0; 3] 4 (Some [2; 2]) 2
              1 [1; 1; 1]) as (w1 & w2 & Hs & Hf & Hd & _).
  - eexists. split; reflexivity.
  - reflexivity.
  - constructor.
  - exact sample_args_fit.
  - exists w1, w2. split; [exact Hs|]. split; [exact Hf|]. apply Hd. cbn. lia.
Defined.

Lemma sample_metadata_args_fit :
  metadata_args_fit ["a1"; "a2"]%string 2 (Some [1; 1]) None [1; 1; 4].
Proof.
  unfold metadata_args_fit, INT_MAX. repeat split; intros; simplify_eq; cbn; lia.
Defined.

Lemma X22_witness :
  exists w',
    tiledb_metadata_set_schema (Some 0%nat) (Some 13%nat) (Some "M"%string)
      ["a1"; "a2"]%string 2 1000 (Some [1; 1]) None [1; 1; 4]
      (handles_world passing []) = Some (TILEDB_OK, w') /\
    length (w_heap w') = 20%nat.
Proof.
  eexists. split.
  - apply (X22_metadata_set_schema_succeeds (handles_world passing []) 0%nat 0%nat
             13%nat blank_metadata_schema).
    + eexists. split; reflexivity.
    + reflexivity.
    + constructor.
    + exact sample_metadata_args_fit.
  - reflexivity.
Defined.

Lemma X23_witness :
  exists w1 w2,
    tiledb_metadata_set_schema (Some 0%nat) (Some 13%nat) (Some "M"%string)
      ["a1"; "a2"]%string 2 1000 (Some [1; 1]) None [1; 1; 4]
      (handles_world passing []) = Some (TILEDB_OK, w1) /\
    tiledb_metadata_free_schema (Some 13%nat) w1 = Some (TILEDB_OK, w2) /\
    block_at (w_heap w2) 14%nat = None.
Proof.
  destruct (X23_metadata_schema_round_trip (handles_world passing []) 0%nat 0%nat
              13%nat blank_metadata_schema "M"%string ["a1"; "a2"]%string 2 1000
              (Some [1; 1]) None [1; 1; 4]) as (w1 & w2 & Hs & Hf & Hd & _).
  - eexists. split; reflexivity.
  - reflexivity.
  - constructor.
  - exact sample_metadata_args_fit.
  - exists w1, w2. split; [exact Hs|]. split; [exact Hf|]. apply Hd. cbn. lia.
Defined.

Lemma X25_witness :
  exists code w',
    tiledb_group_create (Some 0%nat) (Some "g"%string) (handles_world failing []) =
      Some (code, w') /\
    block_at (w_heap w') 1%nat =
      Some (BCtx {| storage_manager_ := None; last_error_ := None |}).
Proof.
  apply (X25_errors_per_context (handles_world failing []) _ 0%nat
           (Status_Error "group_create") 1%nat).
  - apply (d_group_create (handles_world failing []) 0%nat 0%nat (Some "g"%string)).
    eexists. split; reflexivity.
  - discriminate.
  - reflexivity.
Defined.

Lemma X26_witness :
  tiledb_array_set_schema (Some 0%nat) (Some 12%nat) (Some "A"%string)
    ["a1"; "a2"]%string 2 1000 0 None (Some [0; 1; 0]) 1 ["x"; "y"]%string 2
    [0; 3; 0; 3] 4 (Some [2; 2]) 2 1 [1; 1; 1]
    (handles_world passing (replicate 7 false ++ [true])) = None.
Proof.
  apply (X26_set_schema_allocation_failure
           (handles_world passing (replicate 7 false ++ [true])) 0%nat 0%nat 12%nat
           blank_schema "A"%string ["a1"; "a2"]%string 2 1000 0 None
           (Some [0; 1; 0]) 1 ["x"; "y"]%string 2 [0; 3; 0; 3] 4 (Some [2; 2]) 2 1
           [1; 1; 1] []).
  - eexists. split; reflexivity.
  - reflexivity.
  - lia.
  - cbn. lia.
  - lia.
  - cbn. lia.
  - reflexivity.
Defined.
